(** * AgentSwarm: task queue, reconciler, worker pipeline and rate limiter

    A shallow embedding of the orchestration core of the repository
    ([orchestrator.py], [agents/reconciler_agent.py], [agents/worker.py],
    [config.py], the supervisor and the archive of [main.py], the [/stop]
    route of [web/server.py]), the properties of it that the specification
    states (Part II) and further properties of the code (Part III).

    Conventions of the embedding:
    - a SQLite table is the list of its rows in rowid (insertion) order;
      an [UPDATE ... WHERE] maps over the rows, its [rowcount] is the number
      of rows that satisfy the [WHERE] clause;
    - SQL [NULL] / Python [None] is [None] of an option;
    - [CURRENT_TIMESTAMP] and the Python clocks are an explicit argument
      [now] in [Z]: seconds for the tables and the reconciler, milliseconds
      for the rate limiter;
    - a fresh [uuid.uuid4().hex] is an explicit argument (queue operations)
      or a draw from an oracle [nat -> string] (reconciler sweep);
    - an exception is a value of [exn]; a function that can raise returns
      the state reached together with [inl e] or [inr v];
    - a Python [str] is a [string], one [ascii] per character; only the
      strings that [json.loads] decodes are lists of code points. *)

From Stdlib Require Import ZArith List String Ascii Bool Lia DecimalString Sorted.
From stdpp Require Import base option list strings gmap.

Set Warnings "-register-all".

Local Open Scope string_scope.
Local Open Scope list_scope.
Local Open Scope Z_scope.

(* ===================================================================== *)
(** * Part I: definitions                                                 *)
(* ===================================================================== *)

(** ** orchestrator.py: the [tasks] and [agent_log] tables *)

(** One row of [tasks].  The [id INTEGER PRIMARY KEY AUTOINCREMENT] column
    is the position of the row in the table.  [depends_on] is stored as
    JSON text written by [json.dumps] of a list of task ids and read back
    by [json.loads]; the embedding keeps the list. *)
Record task_row := mk_task_row {
  task_id : string;
  title : string;
  description : string;
  status : string;
  priority : Z;
  retries : Z;
  depends_on : list string;
  assigned_worker : option string;
  branch_name : option string;
  result : option string;
  error : option string;
  created_at : Z;
  started_at : option Z;
  completed_at : option Z
}.

(** One row of [agent_log]. *)
Record log_row := mk_log_row {
  log_worker_id : string;
  log_task_id : string;
  log_event_name : string;
  log_message : string;
  log_tokens_used : Z;
  log_timestamp : Z
}.

Record db := mk_db {
  tasks : list task_row;
  agent_log : list log_row
}.

(** The dict that [get_ready_tasks] builds for a ready row, and to which
    [claim_task] adds the key ['branch_name']. *)
Record task_dict := mk_task_dict {
  td_task_id : string;
  td_title : string;
  td_description : string;
  td_priority : Z;
  td_branch_name : option string
}.

Inductive exn :=
| AttributeError (attr : string)
| IntegrityError (column : string)
| OSError (reason : string)
| Exception_ (msg : string).

(** [UPDATE tasks SET ... WHERE cond]: the rows after the statement. *)
Definition sql_update (cond : task_row -> bool) (set : task_row -> task_row)
    (rows : list task_row) : list task_row :=
  map (fun r => if cond r then set r else r) rows.

(** [cursor.rowcount] of that statement. *)
Definition rowcount (cond : task_row -> bool) (rows : list task_row) : nat :=
  length (filter (fun r => cond r = true) rows).

(** [log_event]: the [INSERT INTO agent_log].  The line appended to the
    per-task file under [LOGS_DIR] is outside the modelled state. *)
Definition log_event (worker_id tid event message : string) (tokens : Z)
    (now : Z) (d : db) : db :=
  {| tasks := tasks d;
     agent_log := agent_log d ++
       [ {| log_worker_id := worker_id; log_task_id := tid;
            log_event_name := event; log_message := message;
            log_tokens_used := tokens; log_timestamp := now |} ] |}.

(** The row that [INSERT INTO tasks (task_id, title, description, priority,
    depends_on)] creates: the other columns take their schema defaults. *)
Definition new_row (tid ttl desc : string) (prio : Z) (deps : list string)
    (now : Z) : task_row :=
  {| task_id := tid; title := ttl; description := desc;
     status := "pending"; priority := prio; retries := 0;
     depends_on := deps;
     assigned_worker := None; branch_name := None;
     result := None; error := None;
     created_at := now; started_at := None; completed_at := None |}.

Definition has_task_id (tid : string) (rows : list task_row) : bool :=
  existsb (fun r => String.eqb (task_id r) tid) rows.

(** [add_task]: [uuid_hex] is the value of [uuid.uuid4().hex].  The plain
    [INSERT] raises [sqlite3.IntegrityError] when the [UNIQUE] column
    [task_id] already holds the new id; nothing is committed then. *)
Definition add_task (ttl desc : string) (prio : Z) (deps : list string)
    (uuid_hex : string) (now : Z) (d : db) : db * (exn + string) :=
  let tid := "task-" +:+ String.substring 0 8 uuid_hex in
  if has_task_id tid (tasks d)
  then (d, inl (IntegrityError "tasks.task_id"))
  else ({| tasks := tasks d ++ [new_row tid ttl desc prio deps now];
           agent_log := agent_log d |}, inr tid).

(** [ORDER BY priority ASC, created_at ASC].  Rows that tie on both keys
    keep their rowid order (a stable insertion sort). *)
Definition order_le (a b : task_row) : bool :=
  (priority a <? priority b) ||
  ((priority a =? priority b) && (created_at a <=? created_at b)).

Fixpoint order_insert (r : task_row) (l : list task_row) : list task_row :=
  match l with
  | [] => [r]
  | x :: xs => if order_le r x then r :: x :: xs else x :: order_insert r xs
  end.

Definition order_by_priority_created (l : list task_row) : list task_row :=
  foldr order_insert [] l.

Definition is_pending (r : task_row) : bool := String.eqb (status r) "pending".

(** [SELECT ... FROM tasks WHERE status = 'pending' ORDER BY ...]. *)
Definition select_pending (d : db) : list task_row :=
  order_by_priority_created (filter (fun r => is_pending r = true) (tasks d)).

Definition in_ids (tid : string) (ids : list string) : bool :=
  existsb (String.eqb tid) ids.

(** [SELECT COUNT( * ) FROM tasks WHERE task_id IN (deps) AND status != 'done']. *)
Definition pending_deps (deps : list string) (d : db) : nat :=
  rowcount (fun r => in_ids (task_id r) deps
                     && negb (String.eqb (status r) "done")) (tasks d).

Definition ready_dict (r : task_row) : task_dict :=
  {| td_task_id := task_id r; td_title := title r;
     td_description := description r; td_priority := priority r;
     td_branch_name := None |}.

(** The body of the [for] loop of [get_ready_tasks] for one pending row:
    does the row go to [ready]? *)
Definition deps_satisfied (d : db) (r : task_row) : bool :=
  match depends_on r with
  | [] => true
  | deps => Nat.eqb (pending_deps deps d) 0
  end.

Definition get_ready_tasks (d : db) : list task_dict :=
  map ready_dict (filter (fun r => deps_satisfied d r = true) (select_pending d)).

(** The [WHERE task_id = ? AND status = 'pending'] of the claim. *)
Definition claim_where (tid : string) (r : task_row) : bool :=
  String.eqb (task_id r) tid && String.eqb (status r) "pending".

Definition claim_set (worker_id branch : string) (now : Z) (r : task_row)
    : task_row :=
  {| task_id := task_id r; title := title r; description := description r;
     status := "running"; priority := priority r; retries := retries r;
     depends_on := depends_on r;
     assigned_worker := Some worker_id; branch_name := Some branch;
     result := result r; error := error r;
     created_at := created_at r; started_at := Some now;
     completed_at := completed_at r |}.

(** [claim_task] after the snapshot [ready_tasks = self.get_ready_tasks()]:
    the rest of the function runs against the table as it is when the
    [UPDATE] executes, which other workers may have changed since the
    snapshot was taken. *)
Definition claim_update (worker_id : string) (now : Z)
    (ready_tasks : list task_dict) (d : db) : db * option task_dict :=
  match ready_tasks with
  | [] => (d, None)
  | task :: _ =>
      let tid := td_task_id task in
      let branch := "agent-" +:+ String.substring 0 8 tid in
      if Nat.eqb (rowcount (claim_where tid) (tasks d)) 0
      then (d, None)
      else ({| tasks := sql_update (claim_where tid)
                          (claim_set worker_id branch now) (tasks d);
               agent_log := agent_log d |},
            Some {| td_task_id := td_task_id task; td_title := td_title task;
                    td_description := td_description task;
                    td_priority := td_priority task;
                    td_branch_name := Some branch |})
  end.

(** [claim_task] with nothing interleaved between snapshot and update. *)
Definition claim_task (worker_id : string) (now : Z) (d : db)
    : db * option task_dict :=
  claim_update worker_id now (get_ready_tasks d) d.

Definition complete_set (st res : string) (now : Z) (r : task_row) : task_row :=
  {| task_id := task_id r; title := title r; description := description r;
     status := st; priority := priority r; retries := retries r;
     depends_on := depends_on r;
     assigned_worker := assigned_worker r; branch_name := branch_name r;
     result := Some res; error := error r;
     created_at := created_at r; started_at := started_at r;
     completed_at := Some now |}.

(** [complete_task]: [UPDATE tasks SET status = ?, result = ?,
    completed_at = CURRENT_TIMESTAMP WHERE task_id = ?]. *)
Definition complete_task (tid res st : string) (now : Z) (d : db) : db :=
  {| tasks := sql_update (fun r => String.eqb (task_id r) tid)
                (complete_set st res now) (tasks d);
     agent_log := agent_log d |}.

Definition fail_set (err : string) (r : task_row) : task_row :=
  {| task_id := task_id r; title := title r; description := description r;
     status := "pending"; priority := priority r; retries := retries r + 1;
     depends_on := depends_on r;
     assigned_worker := assigned_worker r; branch_name := branch_name r;
     result := result r; error := Some err;
     created_at := created_at r; started_at := None;
     completed_at := completed_at r |}.

(** [fail_task]: [UPDATE tasks SET status = 'pending', error = ?,
    retries = retries + 1, started_at = NULL WHERE task_id = ?]. *)
Definition fail_task (tid err : string) (d : db) : db :=
  {| tasks := sql_update (fun r => String.eqb (task_id r) tid)
                (fail_set err) (tasks d);
     agent_log := agent_log d |}.

Definition fix_needed_set (err : string) (now : Z) (r : task_row) : task_row :=
  {| task_id := task_id r; title := title r; description := description r;
     status := "fix_needed"; priority := priority r; retries := retries r;
     depends_on := depends_on r;
     assigned_worker := assigned_worker r; branch_name := branch_name r;
     result := result r; error := Some err;
     created_at := created_at r; started_at := started_at r;
     completed_at := Some now |}.

(** [mark_fix_needed]. *)
Definition mark_fix_needed (tid err : string) (now : Z) (d : db) : db :=
  {| tasks := sql_update (fun r => String.eqb (task_id r) tid)
                (fix_needed_set err now) (tasks d);
     agent_log := agent_log d |}.

(** The claim loop as the specification words it: every candidate of the
    snapshot is tried in order, and [None] comes back only when no
    candidate's conditional update affects a row.  Used only to compare
    with [claim_update]. *)
Fixpoint claim_update_spec (worker_id : string) (now : Z)
    (ready_tasks : list task_dict) (d : db) : db * option task_dict :=
  match ready_tasks with
  | [] => (d, None)
  | task :: rest =>
      match claim_update worker_id now [task] d with
      | (d', Some t) => (d', Some t)
      | (_, None) => claim_update_spec worker_id now rest d
      end
  end.

(** ** config.py: the module namespace *)

Inductive pyval :=
| PyInt (z : Z)
| PyStr (s : string)
| PyObject (name : string).

(** The values that [config.py] reads from the environment (or their
    defaults) when it is imported. *)
Record settings := mk_settings {
  MINIMAX_API_KEY : string;
  MINIMAX_BASE_URL : string;
  MINIMAX_MODEL : string;
  PLANNER_MODEL : string;
  RECONCILER_MODEL : string;
  MAX_WORKERS : Z;
  MAX_TASKS : Z;
  RECONCILER_INTERVAL : Z;
  WORKER_TIMEOUT : Z;
  MAX_RETRIES : Z;
  API_RATE_LIMIT_RPM : Z;
  WORKSPACE_DIR : string;
  LOGS_DIR : string;
  DB_PATH : string;
  OUTPUTS_DIR : string
}.

(** The attributes of the module [config] after import, in the order in
    which [config.py] binds them. *)
Definition config (s : settings) : list (string * pyval) :=
  [ ("os", PyObject "module os");
    ("Path", PyObject "class pathlib.Path");
    ("load_dotenv", PyObject "function load_dotenv");
    ("MINIMAX_API_KEY", PyStr (MINIMAX_API_KEY s));
    ("MINIMAX_BASE_URL", PyStr (MINIMAX_BASE_URL s));
    ("MINIMAX_MODEL", PyStr (MINIMAX_MODEL s));
    ("PLANNER_MODEL", PyStr (PLANNER_MODEL s));
    ("RECONCILER_MODEL", PyStr (RECONCILER_MODEL s));
    ("MAX_WORKERS", PyInt (MAX_WORKERS s));
    ("MAX_TASKS", PyInt (MAX_TASKS s));
    ("RECONCILER_INTERVAL", PyInt (RECONCILER_INTERVAL s));
    ("WORKER_TIMEOUT", PyInt (WORKER_TIMEOUT s));
    ("MAX_RETRIES", PyInt (MAX_RETRIES s));
    ("API_RATE_LIMIT_RPM", PyInt (API_RATE_LIMIT_RPM s));
    ("WORKSPACE_DIR", PyStr (WORKSPACE_DIR s));
    ("LOGS_DIR", PyStr (LOGS_DIR s));
    ("DB_PATH", PyStr (DB_PATH s));
    ("OUTPUTS_DIR", PyStr (OUTPUTS_DIR s)) ].

(** [config.py] with every variable of the environment unset. *)
Definition default_settings (api_key : string) : settings :=
  {| MINIMAX_API_KEY := api_key;
     MINIMAX_BASE_URL := "https://api.minimax.io/v1";
     MINIMAX_MODEL := "MiniMax-M2.5";
     PLANNER_MODEL := "MiniMax-M2.5";
     RECONCILER_MODEL := "MiniMax-M2.5";
     MAX_WORKERS := 15; MAX_TASKS := 100; RECONCILER_INTERVAL := 120;
     WORKER_TIMEOUT := 300; MAX_RETRIES := 3; API_RATE_LIMIT_RPM := 20;
     WORKSPACE_DIR := "/home/gary/agentswarm/workspace";
     LOGS_DIR := "/home/gary/agentswarm/logs";
     DB_PATH := "/home/gary/agentswarm/db/tasks.db";
     OUTPUTS_DIR := "/home/gary/agentswarm/outputs" |}.

(** Attribute lookup [module.name]: [AttributeError] when the module does
    not bind [name]. *)
Fixpoint getattr (module : list (string * pyval)) (name : string)
    : exn + pyval :=
  match module with
  | [] => inl (AttributeError name)
  | (k, v) :: rest => if String.eqb k name then inr v else getattr rest name
  end.

(** [getattr(module, name, default)]. *)
Definition getattr_default (module : list (string * pyval)) (name : string)
    (default : pyval) : pyval :=
  match getattr module name with
  | inr v => v
  | inl _ => default
  end.

(** ** Computations with state and exceptions *)

(** Computations that thread a state [S] and may raise.  What was done to
    the state before an exception stays done. *)
Definition Run (S A : Type) : Type := S -> S * (exn + A).

Global Instance Run_ret {S : Type} : MRet (Run S) := fun A a s => (s, inr a).

Global Instance Run_bind {S : Type} : MBind (Run S) := fun A B f m s =>
  match m s with
  | (s', inl e) => (s', inl e)
  | (s', inr a) => f a s'
  end.

Definition raise {S A : Type} (e : exn) : Run S A := fun s => (s, inl e).

Definition lift_result {S A : Type} (r : exn + A) : Run S A := fun s => (s, r).

(** [for x in xs: body(x)]. *)
Fixpoint for_each {S A : Type} (xs : list A) (body : A -> Run S unit)
    : Run S unit :=
  match xs with
  | [] => mret tt
  | x :: rest => body x ;; for_each rest body
  end.

(** ** agents/reconciler_agent.py *)

(** The state a sweep runs in: the database and the number of
    [uuid.uuid4()] values drawn so far. *)
Record world := mk_world {
  w_db : db;
  w_uuid_draws : nat
}.

Abbreviation M := (Run world).

Definition read_db : M db := fun w => (w, inr (w_db w)).

Definition modify_db (f : db -> db) : M unit :=
  fun w => ({| w_db := f (w_db w); w_uuid_draws := w_uuid_draws w |}, inr tt).

(** [queue.add_task] inside a sweep: the id comes from the next draw of the
    oracle [uuid4_hex]. *)
Definition queue_add_task (uuid4_hex : nat -> string) (now : Z)
    (ttl desc : string) (prio : Z) : M string :=
  fun w =>
    let (d', r) := add_task ttl desc prio [] (uuid4_hex (w_uuid_draws w)) now
                     (w_db w) in
    ({| w_db := d'; w_uuid_draws := S (w_uuid_draws w) |}, r).

(** The outcome of [check_syntax]: the byte-compilation of the workspace
    is an input of the sweep. *)
Record syntax_result := mk_syntax_result {
  syntax_ok : bool;
  syntax_output : string
}.

Record stalled_dict := mk_stalled_dict {
  sd_task_id : string;
  sd_title : string;
  sd_worker_id : option string;
  sd_elapsed : Z
}.

Definition is_running (r : task_row) : bool := String.eqb (status r) "running".

(** [elapsed > timeout_secs]; the comparison of a number with a value that
    is not a number raises [TypeError], which the bare [except: pass]
    around it swallows. *)
Definition exceeds (elapsed : Z) (timeout_secs : pyval) : bool :=
  match timeout_secs with
  | PyInt t => t <? elapsed
  | _ => false
  end.

(** The [for] loop of [check_stalled_workers]. *)
Fixpoint stalled_of (timeout_secs : pyval) (now : Z) (running : list task_row)
    : list stalled_dict :=
  match running with
  | [] => []
  | r :: rest =>
      match started_at r with
      | Some started =>
          let elapsed := now - started in
          if exceeds elapsed timeout_secs
          then {| sd_task_id := task_id r; sd_title := title r;
                  sd_worker_id := assigned_worker r;
                  sd_elapsed := elapsed |} :: stalled_of timeout_secs now rest
          else stalled_of timeout_secs now rest
      | None => stalled_of timeout_secs now rest
      end
  end.

(** [check_stalled_workers]: the timeout is read from the attribute
    [WORKER_TIMEOUT_SECONDS] of [config] before the table is queried. *)
Definition check_stalled_workers (cfg : list (string * pyval)) (now : Z)
    : M (list stalled_dict) :=
  timeout_secs ← lift_result (getattr cfg "WORKER_TIMEOUT_SECONDS");
  d ← read_db;
  mret (stalled_of timeout_secs now
          (filter (fun r => is_running r = true) (tasks d))).

(** [str(x)] of a nullable text column inside an f-string. *)
Definition str_opt (x : option string) : string :=
  match x with
  | Some s => s
  | None => "None"
  end.

(** [f"{z:.0f}"] of a whole number of seconds. *)
Definition fmt0 (z : Z) : string := NilZero.string_of_int (Z.to_int z).

Definition is_fix_needed (r : task_row) : bool :=
  String.eqb (status r) "fix_needed".

(** The body of the [for] loop of [handle_fix_needed] for one selected
    row [(task_id, title, error)]. *)
Definition handle_one_fix (uuid4_hex : nat -> string) (now : Z) (r : task_row)
    : M unit :=
  let fix_title := "Fix: " +:+ title r in
  let fix_desc := "Fix the issue: " +:+ str_opt (error r) in
  new_task_id ← queue_add_task uuid4_hex now fix_title fix_desc 1;
  modify_db (complete_task (task_id r) ("Replaced by " +:+ new_task_id)
               "replaced" now) ;;
  modify_db (log_event "reconciler" (task_id r) "fix_created"
               ("Created " +:+ new_task_id +:+ " to fix") 0 now).

(** [handle_fix_needed]: the rows are selected once, before the loop; the
    result is the number of iterations, one per selected row. *)
Definition handle_fix_needed (uuid4_hex : nat -> string) (now : Z) : M nat :=
  d ← read_db;
  let fix_tasks := filter (fun r => is_fix_needed r = true) (tasks d) in
  for_each fix_tasks (handle_one_fix uuid4_hex now) ;;
  mret (length fix_tasks).

Record sweep_results := mk_sweep_results {
  res_syntax_check : syntax_result;
  res_stalled : list stalled_dict;
  res_fix_needed : nat;
  res_fixes_created : nat
}.

(** The body of [for s in stalled] of [run_once]. *)
Definition reset_stalled (now : Z) (s : stalled_dict) : M unit :=
  modify_db (log_event "reconciler" (sd_task_id s) "stalled"
               ("Worker " +:+ str_opt (sd_worker_id s) +:+ " stalled") 0 now) ;;
  modify_db (fail_task (sd_task_id s)
               ("Stalled after " +:+ fmt0 (sd_elapsed s) +:+ "s")).

(** [run_once]: syntax sweep, stall sweep, rework sweep, in this order. *)
Definition run_once (cfg : list (string * pyval)) (uuid4_hex : nat -> string)
    (syntax : syntax_result) (now : Z) : M sweep_results :=
  (if syntax_ok syntax then mret tt
   else
     queue_add_task uuid4_hex now "Fix Python syntax errors"
       ("Fix syntax errors: " +:+ String.substring 0 500 (syntax_output syntax))
       1 ;;
     modify_db (log_event "reconciler" "syntax" "error"
                  (String.substring 0 200 (syntax_output syntax)) 0 now)) ;;
  stalled ← check_stalled_workers cfg now;
  for_each stalled (reset_stalled now) ;;
  fixes ← handle_fix_needed uuid4_hex now;
  mret {| res_syntax_check := syntax; res_stalled := stalled;
          res_fix_needed := fixes; res_fixes_created := fixes |}.

(** ** agents/worker.py: paths and the file system *)

(** [s.split(sep)] for a one-character separator. *)
Fixpoint split_on (sep : ascii) (s : string) : list string :=
  match s with
  | EmptyString => [EmptyString]
  | String c rest =>
      if Ascii.eqb c sep then EmptyString :: split_on sep rest
      else match split_on sep rest with
           | [] => [String c EmptyString]
           | w :: ws => String c w :: ws
           end
  end.

(** A [pathlib.PurePosixPath]: whether it has the root ["/"], and its
    components.  Parsing drops empty components and ["."]; [".."] stays. *)
Record PurePath := mk_PurePath {
  is_absolute : bool;
  parts : list string
}.

Definition is_component (p : string) : bool :=
  negb (String.eqb p "") && negb (String.eqb p ".").

Definition Path (s : string) : PurePath :=
  {| is_absolute := String.prefix "/" s;
     parts := filter (fun p => is_component p = true) (split_on "/" s) |}.

(** [base / other]: an absolute right operand replaces the left one. *)
Definition joinpath (base : PurePath) (other : string) : PurePath :=
  let o := Path other in
  if is_absolute o then o
  else {| is_absolute := is_absolute base; parts := parts base ++ parts o |}.

(** [p.parent]. *)
Definition parent (p : PurePath) : PurePath :=
  {| is_absolute := is_absolute p; parts := removelast (parts p) |}.

(** [s.rfind('.')], as the number of characters before the last dot. *)
Fixpoint rfind_dot (s : string) : option nat :=
  match s with
  | EmptyString => None
  | String c rest =>
      match rfind_dot rest with
      | Some i => Some (S i)
      | None => if Ascii.eqb c "." then Some O else None
      end
  end.

(** [p.suffix]: the last component from its last dot on, when that dot is
    neither its first nor its last character. *)
Definition suffix (p : PurePath) : string :=
  let name := List.last (parts p) "" in
  match rfind_dot name with
  | Some i =>
      if (Nat.ltb 0 i && Nat.ltb i (String.length name - 1))%bool
      then String.substring i (String.length name - i) name
      else ""
  | None => ""
  end.

(** What the file system holds at a location.  A location is the list of
    directory entries from the root; the root itself is [[]]. *)
Inductive node :=
| Dir
| File (content : string).

Abbreviation fs := (gmap (list string) node).

(** Resolution of the components of a path by the kernel (no symbolic
    links): [".."] steps to the containing directory, and the root
    contains itself. *)
Fixpoint walk (cur : list string) (ps : list string) : list string :=
  match ps with
  | [] => cur
  | p :: rest =>
      if String.eqb p ".." then walk (removelast cur) rest
      else walk (cur ++ [p]) rest
  end.

(** The location a path names in a process whose working directory is at
    [cwd]. *)
Definition locate (cwd : list string) (p : PurePath) : list string :=
  walk (if is_absolute p then [] else cwd) (parts p).

(** [p.mkdir(parents=True, exist_ok=True)], component by component: a
    missing directory is created, an existing one is kept, a file in the
    way raises. *)
Fixpoint mkdirs (cur : list string) (ps : list string) : Run fs unit :=
  match ps with
  | [] => mret tt
  | p :: rest =>
      if String.eqb p ".." then mkdirs (removelast cur) rest
      else fun f =>
        match f !! (cur ++ [p]) with
        | Some (File _) => (f, inl (OSError "not a directory"))
        | _ => mkdirs (cur ++ [p]) rest (<[cur ++ [p] := Dir]> f)
        end
  end.

Definition mkdir_parents (cwd : list string) (p : PurePath) : Run fs unit :=
  mkdirs (if is_absolute p then [] else cwd) (parts p).

(** Does the path name a directory?  A path without components names the
    root or the working directory, and one that ends in [".."] names the
    directory that contains its parent. *)
Definition names_directory (cwd : list string) (p : PurePath) (f : fs) : bool :=
  String.eqb (List.last (parts p) "..") ".."
  || match f !! locate cwd p with
     | Some Dir => true
     | _ => false
     end.

(** [p.write_text(content)]: creates or overwrites the file. *)
Definition write_text (cwd : list string) (p : PurePath) (content : string)
    : Run fs unit :=
  fun f =>
    if names_directory cwd p f
    then (f, inl (OSError "is a directory"))
    else (<[locate cwd p := File content]> f, inr tt).

(** One element of the [files] list of the worker payload:
    [f.get('path', '')] and [f.get('content', '')]. *)
Record file_entry := mk_file_entry {
  fe_path : string;
  fe_content : string
}.

(** [syntax_check]: the checker is chosen by the suffix and run on the
    file; [tool_ok tool content] is [false] exactly when that subprocess
    ran and exited with a non-zero status.  A file with another suffix
    passes without a check. *)
Definition syntax_check (tool_ok : string -> string -> bool)
    (p : PurePath) (content : string) : bool :=
  let sfx := suffix p in
  if String.eqb sfx ".py" then tool_ok "python3" content
  else if existsb (String.eqb sfx) [".js"; ".ts"; ".jsx"; ".tsx"]
  then tool_ok "node" content
  else if String.eqb sfx ".sh" then tool_ok "bash" content
  else true.

(** [write_files]: the loop, with the list [written] as an accumulator. *)
Fixpoint write_files_loop (tool_ok : string -> string -> bool)
    (cwd : list string) (workspace : PurePath) (files : list file_entry)
    (written : list string) : Run fs (list string) :=
  match files with
  | [] => mret written
  | f :: rest =>
      let path := fe_path f in
      if String.eqb path ""
      then write_files_loop tool_ok cwd workspace rest written
      else
        let file_path := joinpath workspace path in
        mkdir_parents cwd (parent file_path) ;;
        write_text cwd file_path (fe_content f) ;;
        if syntax_check tool_ok file_path (fe_content f)
        then write_files_loop tool_ok cwd workspace rest (written ++ [path])
        else raise (Exception_ ("Syntax check failed for " +:+ path))
  end.

Definition write_files (tool_ok : string -> string -> bool)
    (cwd : list string) (workspace : PurePath) (files : list file_entry)
    : Run fs (list string) :=
  write_files_loop tool_ok cwd workspace files [].

(** The branch that [commit_and_merge] commits and merges for a task. *)
Definition commit_and_merge_branch (tid : string) : string :=
  "agent-" +:+ String.substring 0 8 tid.

(** ** agents/worker.py: [parse_response] *)

(** A value that [json.loads] returns.  A decoded string is the list of
    its code points (an escape [\uXXXX] can name any of them); a float is
    kept as the text it was written with; an object is the list of its
    keys and values in the order of the dict. *)
Inductive json :=
| JNull
| JBool (b : bool)
| JInt (z : Z)
| JFloat (lexeme : string)
| JStr (s : list N)
| JArr (items : list json)
| JObj (fields : list (list N * json)).

(** The code points of a [str] of the embedding. *)
Fixpoint codes (s : string) : list N :=
  match s with
  | EmptyString => []
  | String c rest => N_of_ascii c :: codes rest
  end.

(** [c.isspace()], which is also the class [\s] of [re] on a [str], for
    the characters below 256. *)
Definition is_space (c : ascii) : bool :=
  let n := N_of_ascii c in
  ((9 <=? n) && (n <=? 13) || (28 <=? n) && (n <=? 32)
   || (n =? 133) || (n =? 160))%N.

Fixpoint lstrip (s : string) : string :=
  match s with
  | EmptyString => EmptyString
  | String c rest => if is_space c then lstrip rest else s
  end.

Fixpoint rstrip (s : string) : string :=
  match s with
  | EmptyString => EmptyString
  | String c rest =>
      match rstrip rest with
      | EmptyString => if is_space c then EmptyString else String c EmptyString
      | r => String c r
      end
  end.

(** [s.strip()]. *)
Definition strip (s : string) : string := rstrip (lstrip s).

(** [s[n:]]. *)
Definition slice_from (n : nat) (s : string) : string :=
  String.substring n (String.length s - n) s.

(** [re.sub(r'<think>.*?</think>', '', s, flags=re.DOTALL)]: the leftmost
    ["<think>"] is deleted together with everything up to the first
    ["</think>"] after it, and the search goes on behind that; when no
    ["</think>"] follows, nothing more is deleted.  [fuel] bounds the
    number of deletions. *)
Fixpoint remove_think (fuel : nat) (s : string) : string :=
  match fuel with
  | O => s
  | S fuel' =>
      match index 0 "<think>" s with
      | None => s
      | Some i =>
          match index (i + 7) "</think>" s with
          | None => s
          | Some j =>
              String.substring 0 i s +:+ remove_think fuel' (slice_from (j + 8) s)
          end
      end
  end.

Definition at_position (pat : string) (n : nat) (s : string) : bool :=
  String.prefix pat (slice_from n s).

(** The position at which a run of [\s*] that starts at [n] ends. *)
Definition skip_spaces (n : nat) (s : string) : nat :=
  (n + (String.length (slice_from n s)
        - String.length (lstrip (slice_from n s))))%nat.

(** [re.search(r'```(?:json)?\s*([\s\S]*?)```', s)]: group 1 of the match,
    if there is one.  The match starts at the leftmost three backquotes;
    ["json"] and the white space behind it are skipped, and the group runs
    up to the next three backquotes.  (Neither ["json"] nor white space
    holds a backquote, so giving them back never finds another closing
    fence, and a later start needs the same closing fence.) *)
Definition fence_search (s : string) : option string :=
  match index 0 "```" s with
  | None => None
  | Some i =>
      let k := if at_position "json" (i + 3) s then (i + 7)%nat else (i + 3)%nat in
      let k' := skip_spaces k s in
      match index k' "```" s with
      | None => None
      | Some j => Some (String.substring k' (j - k') s)
      end
  end.

(** The text that [parse_response] hands to the JSON search. *)
Definition clean_response (response : string) : string :=
  let cleaned := strip (remove_think (String.length response) response) in
  match fence_search cleaned with
  | Some g => strip g
  | None => cleaned
  end.

(** What a call of [json.loads] does: it returns a value, raises
    [json.JSONDecodeError], or raises something else. *)
Inductive loads_outcome :=
| Decoded (v : json)
| JSONDecodeError
| Raised (e : exn).

(** The dict returned when no JSON is found. *)
Definition degenerate (cleaned : string) : json :=
  JObj [ (codes "files", JArr []);
         (codes "summary", JStr (codes (String.substring 0 500 cleaned)));
         (codes "tokens_estimate", JInt 500) ].

(** The [try] block of [parse_response]: where the JSON text starts. *)
Definition json_start (cleaned : string) : option nat :=
  match index 0 "[" cleaned, index 0 "{" cleaned with
  | None, brace_match => brace_match
  | Some json_match, Some brace_match =>
      if Nat.ltb brace_match json_match then Some brace_match
      else Some json_match
  | Some json_match, None => Some json_match
  end.

(** [parse_response], with [json.loads] as the parameter [loads].  Only
    [json.JSONDecodeError] is caught. *)
Definition parse_response (loads : string -> loads_outcome)
    (response : string) : exn + json :=
  let cleaned := clean_response response in
  match json_start cleaned with
  | Some json_match =>
      match loads (slice_from json_match cleaned) with
      | Decoded (JArr []) => inr (JObj [])
      | Decoded (JArr (first :: _)) => inr first
      | Decoded result => inr result
      | JSONDecodeError => inr (degenerate cleaned)
      | Raised e => inl e
      end
  | None => inr (degenerate cleaned)
  end.

(** ** [json.loads]

    A decoder for the JSON text that the standard library's [json.loads]
    accepts with its default arguments.  The limits of the interpreter
    (recursion depth, length of integer literals) are not modelled: this
    decoder never answers [Raised]. *)

Definition is_json_space (c : ascii) : bool :=
  let n := N_of_ascii c in ((n =? 32) || (n =? 9) || (n =? 10) || (n =? 13))%N.

Fixpoint skip_json_space (s : string) : string :=
  match s with
  | EmptyString => EmptyString
  | String c rest => if is_json_space c then skip_json_space rest else s
  end.

Definition is_digit (c : ascii) : bool :=
  let n := N_of_ascii c in ((48 <=? n) && (n <=? 57))%N.

Definition hex_value (c : ascii) : option N :=
  let n := N_of_ascii c in
  if ((48 <=? n) && (n <=? 57))%N then Some (n - 48)%N
  else if ((65 <=? n) && (n <=? 70))%N then Some (n - 55)%N
  else if ((97 <=? n) && (n <=? 102))%N then Some (n - 87)%N
  else None.

(** Four hexadecimal digits, as in [\uXXXX]. *)
Definition decode_uXXXX (s : string) : option (N * string) :=
  match s with
  | String a (String b (String c (String d rest))) =>
      match hex_value a, hex_value b, hex_value c, hex_value d with
      | Some x3, Some x2, Some x1, Some x0 =>
          Some (((x3 * 16 + x2) * 16 + x1) * 16 + x0, rest)%N
      | _, _, _, _ => None
      end
  | _ => None
  end.

(** The character that a one-letter escape stands for: quote, backslash
    and slash stand for themselves, and the letters b, f, n, r, t for
    backspace, form feed, line feed, carriage return and tab. *)
Definition simple_escape (c : ascii) : option N :=
  let n := N_of_ascii c in
  if (n =? 34)%N then Some 34%N
  else if (n =? 92)%N then Some 92%N
  else if (n =? 47)%N then Some 47%N
  else if (n =? 98)%N then Some 8%N
  else if (n =? 102)%N then Some 12%N
  else if (n =? 110)%N then Some 10%N
  else if (n =? 114)%N then Some 13%N
  else if (n =? 116)%N then Some 9%N
  else None.

(** The body of a string literal, behind its opening quote: the code
    points up to the closing quote and the text behind it.  A control
    character is refused; a high surrogate escape directly followed by a
    low surrogate escape is one code point. *)
Fixpoint scan_string (fuel : nat) (s : string) : option (list N * string) :=
  match fuel with
  | O => None
  | S fuel' =>
      match s with
      | EmptyString => None
      | String c rest =>
          let n := N_of_ascii c in
          if (n =? 34)%N then Some ([], rest)
          else if (n =? 92)%N then
            match rest with
            | EmptyString => None
            | String e rest' =>
                if (N_of_ascii e =? 117)%N then
                  match decode_uXXXX rest' with
                  | None => None
                  | Some (uni, after) =>
                      if ((55296 <=? uni) && (uni <=? 56319)
                          && String.prefix "\u" after)%N%bool
                      then
                        match decode_uXXXX (slice_from 2 after) with
                        | None => None
                        | Some (uni2, after2) =>
                            if ((56320 <=? uni2) && (uni2 <=? 57343))%N
                            then
                              '(cs, r) ← scan_string fuel' after2;
                              Some ((65536 + ((uni - 55296) * 1024
                                              + (uni2 - 56320)))%N :: cs, r)
                            else
                              '(cs, r) ← scan_string fuel' after;
                              Some (uni :: cs, r)
                        end
                      else
                        '(cs, r) ← scan_string fuel' after;
                        Some (uni :: cs, r)
                  end
                else
                  match simple_escape e with
                  | None => None
                  | Some x =>
                      '(cs, r) ← scan_string fuel' rest';
                      Some (x :: cs, r)
                  end
            end
          else if (n <? 32)%N then None
          else
            '(cs, r) ← scan_string fuel' rest;
            Some (n :: cs, r)
      end
  end.

(** The longest run of decimal digits at the head of [s], and the rest. *)
Fixpoint span_digits (s : string) : string * string :=
  match s with
  | EmptyString => (EmptyString, EmptyString)
  | String c rest =>
      if is_digit c
      then let (ds, r) := span_digits rest in (String c ds, r)
      else (EmptyString, s)
  end.

(** The value of a run of decimal digits. *)
Fixpoint digits_value (acc : Z) (ds : string) : Z :=
  match ds with
  | EmptyString => acc
  | String c rest => digits_value (acc * 10 + Z.of_N (N_of_ascii c - 48)) rest
  end.

(** The integer part of a number: [0] or a run of digits that does not
    start with [0]. *)
Definition scan_int_part (s : string) : option (string * string) :=
  match s with
  | String c rest =>
      if (N_of_ascii c =? 48)%N then Some (String c EmptyString, rest)
      else if is_digit c then Some (span_digits s)
      else None
  | EmptyString => None
  end.

(** [\.[0-9]+], when it is there. *)
Definition scan_frac (s : string) : string * string :=
  match s with
  | String c rest =>
      if (N_of_ascii c =? 46)%N then
        match span_digits rest with
        | (EmptyString, _) => (EmptyString, s)
        | (ds, r) => (String c ds, r)
        end
      else (EmptyString, s)
  | EmptyString => (EmptyString, s)
  end.

(** [[eE][-+]?[0-9]+], when it is there. *)
Definition scan_exp (s : string) : string * string :=
  match s with
  | String c rest =>
      if ((N_of_ascii c =? 101) || (N_of_ascii c =? 69))%N then
        let (sign, rest') :=
          match rest with
          | String g r =>
              if ((N_of_ascii g =? 45) || (N_of_ascii g =? 43))%N
              then (String g EmptyString, r) else (EmptyString, rest)
          | EmptyString => (EmptyString, rest)
          end in
        match span_digits rest' with
        | (EmptyString, _) => (EmptyString, s)
        | (ds, r) => (String c (sign +:+ ds), r)
        end
      else (EmptyString, s)
  | EmptyString => (EmptyString, s)
  end.

(** A number literal: an [int] when it has neither fraction nor exponent. *)
Definition scan_number (s : string) : option (json * string) :=
  let (neg, s1) :=
    match s with
    | String c rest =>
        if (N_of_ascii c =? 45)%N then (true, rest) else (false, s)
    | EmptyString => (false, s)
    end in
  match scan_int_part s1 with
  | None => None
  | Some (ip, s2) =>
      let (frac, s3) := scan_frac s2 in
      let (ex, s4) := scan_exp s3 in
      if (String.eqb frac "" && String.eqb ex "")%bool
      then Some (JInt (if neg then - digits_value 0 ip else digits_value 0 ip), s4)
      else Some (JFloat ((if neg then "-" else "") +:+ ip +:+ frac +:+ ex), s4)
  end.

(** A literal word at the head of [s]. *)
Definition scan_word (w : string) (v : json) (s : string)
    : option (json * string) :=
  if String.prefix w s then Some (v, slice_from (String.length w) s) else None.

(** [d[k] = v] on the fields of a dict: a key that is there keeps its place
    and takes the new value. *)
Fixpoint dict_set (k : list N) (v : json) (fields : list (list N * json))
    : list (list N * json) :=
  match fields with
  | [] => [(k, v)]
  | (k', v') :: rest =>
      if bool_decide (k' = k) then (k, v) :: rest
      else (k', v') :: dict_set k v rest
  end.

(** The scanner: one value at the head of [s].  [scan_items] reads the
    elements of an array behind ["["] or [","], [scan_pairs] the members
    of an object behind ["{"] or [","]. *)
Fixpoint scan_value (fuel : nat) (s : string) : option (json * string) :=
  match fuel with
  | O => None
  | S fuel' =>
      match s with
      | EmptyString => None
      | String c rest =>
          let n := N_of_ascii c in
          if (n =? 34)%N then
            '(cs, r) ← scan_string (String.length rest) rest; Some (JStr cs, r)
          else if (n =? 123)%N then
            match skip_json_space rest with
            | String c' r' =>
                if (N_of_ascii c' =? 125)%N then Some (JObj [], r')
                else '(fields, r) ← scan_pairs fuel' [] (String c' r');
                     Some (JObj fields, r)
            | EmptyString => None
            end
          else if (n =? 91)%N then
            match skip_json_space rest with
            | String c' r' =>
                if (N_of_ascii c' =? 93)%N then Some (JArr [], r')
                else '(items, r) ← scan_items fuel' (String c' r');
                     Some (JArr items, r)
            | EmptyString => None
            end
          else
            match scan_word "null" JNull s with
            | Some x => Some x
            | None =>
            match scan_word "true" (JBool true) s with
            | Some x => Some x
            | None =>
            match scan_word "false" (JBool false) s with
            | Some x => Some x
            | None =>
            match scan_number s with
            | Some x => Some x
            | None =>
            match scan_word "NaN" (JFloat "NaN") s with
            | Some x => Some x
            | None =>
            match scan_word "Infinity" (JFloat "Infinity") s with
            | Some x => Some x
            | None => scan_word "-Infinity" (JFloat "-Infinity") s
            end end end end end end
      end
  end
with scan_items (fuel : nat) (s : string) : option (list json * string) :=
  match fuel with
  | O => None
  | S fuel' =>
      '(v, r) ← scan_value fuel' s;
      match skip_json_space r with
      | String c r' =>
          if (N_of_ascii c =? 93)%N then Some ([v], r')
          else if (N_of_ascii c =? 44)%N then
            '(vs, r'') ← scan_items fuel' (skip_json_space r');
            Some (v :: vs, r'')
          else None
      | EmptyString => None
      end
  end
with scan_pairs (fuel : nat) (acc : list (list N * json)) (s : string)
    : option (list (list N * json) * string) :=
  match fuel with
  | O => None
  | S fuel' =>
      match s with
      | String q rest =>
          if (N_of_ascii q =? 34)%N then
            '(k, r0) ← scan_string (String.length rest) rest;
            match skip_json_space r0 with
            | String colon r1 =>
                if (N_of_ascii colon =? 58)%N then
                  '(v, r2) ← scan_value fuel' (skip_json_space r1);
                  match skip_json_space r2 with
                  | String c r3 =>
                      if (N_of_ascii c =? 125)%N
                      then Some (dict_set k v acc, r3)
                      else if (N_of_ascii c =? 44)%N
                      then scan_pairs fuel' (dict_set k v acc)
                             (skip_json_space r3)
                      else None
                  | EmptyString => None
                  end
                else None
            | EmptyString => None
            end
          else None
      | EmptyString => None
      end
  end.

(** [json.loads(s)]: one value with white space around it, and nothing
    else.  A value or a list of elements or members is entered at most
    twice per character read, which the fuel allows for. *)
Definition json_loads (s : string) : loads_outcome :=
  match scan_value (S (2 * String.length s)) (skip_json_space s) with
  | Some (v, rest) =>
      match skip_json_space rest with
      | EmptyString => Decoded v
      | _ => JSONDecodeError
      end
  | None => JSONDecodeError
  end.

(** ** agents/worker.py: the rate limiter

    Times are whole milliseconds: [60.0] seconds is [60000], [0.5] is
    [500]. *)

(** [api_rate_limit_state.json] as [_throttle_for_rate_limit] reads it:
    missing, not a JSON object with the key ["timestamps"] (the [except]
    and the default of [.get] both give the empty list), or the list
    stored under that key. *)
Inductive state_file :=
| NoFile
| Unreadable
| Stamps (timestamps : list Z).

(** [int(v)] of a value that is an [int]. *)
Definition int_of (v : pyval) : option Z :=
  match v with
  | PyInt z => Some z
  | _ => None
  end.

(** [rpm = max(1, int(getattr(config, "API_RATE_LIMIT_RPM", 20)))]. *)
Definition rate_limit_rpm (cfg : list (string * pyval)) : option Z :=
  Z.max 1 <$> int_of (getattr_default cfg "API_RATE_LIMIT_RPM" (PyInt 20)).

(** [warn_threshold = max(1, int(rpm * 0.8))]. *)
Definition warn_threshold (rpm : Z) : Z := Z.max 1 (rpm * 4 / 5).

(** [now - float(t) < 60.0]. *)
Definition live (now t : Z) : bool := now - t <? 60000.

(** [min(timestamps)] of a list that is not empty. *)
Definition oldest (timestamps : list Z) : Z :=
  match timestamps with
  | [] => 0
  | t :: ts => foldl Z.min t ts
  end.

(** What one pass through the [while] loop decides while it holds the
    lock. *)
Record attempt := mk_attempt {
  wait_seconds : Z;
  approaching : bool
}.

(** The critical section of one pass of [_throttle_for_rate_limit], entered
    at time [now]: the state file afterwards, and the decision. *)
Definition throttle_attempt (rpm : Z) (now : Z) (f : state_file)
    : state_file * attempt :=
  let timestamps := match f with Stamps ts => ts | _ => [] end in
  let timestamps := filter (fun t => live now t = true) timestamps in
  if rpm <=? Z.of_nat (length timestamps)
  then (f, {| wait_seconds := Z.max 500 (60000 - (now - oldest timestamps));
              approaching := false |})
  else (Stamps (timestamps ++ [now]),
        {| wait_seconds := 0;
           approaching := warn_threshold rpm <=? Z.of_nat (length timestamps) |}).

(** After the lock is released: [if wait_seconds > 0: ... continue]; the
    pass that does not wait returns, and its caller holds a reservation. *)
Definition must_retry (a : attempt) : bool := 0 <? wait_seconds a.

(** A run of all the processes that share the state file.  The lock makes
    the critical sections happen one after the other: [schedule] lists
    them in that order, each with the worker that enters it and the clock
    reading it takes.  A worker whose pass retries comes back later in the
    schedule; one whose pass returns has its reservation recorded.  The
    result is the state file at the end and the reservations granted. *)
Fixpoint limiter_run (rpm : Z) (schedule : list (string * Z)) (f : state_file)
    : state_file * list (string * Z) :=
  match schedule with
  | [] => (f, [])
  | (worker_id, now) :: rest =>
      let (f', a) := throttle_attempt rpm now f in
      let (f'', granted) := limiter_run rpm rest f' in
      (f'', if must_retry a then granted else (worker_id, now) :: granted)
  end.

(** [_throttle_for_rate_limit] as one process runs it while no other
    process touches the state file: [clock] lists the readings of
    [time.time()] of its successive passes through the [while] loop.  The
    result is the state file it leaves and the reading at which it got its
    reservation, or [None] when it is still retrying after the last
    reading. *)
Fixpoint throttle_for_rate_limit (rpm : Z) (clock : list Z) (f : state_file)
    : state_file * option Z :=
  match clock with
  | [] => (f, None)
  | now :: later =>
      let (f', a) := throttle_attempt rpm now f in
      if must_retry a then throttle_for_rate_limit rpm later f'
      else (f', Some now)
  end.

(** The timestamps recorded in the state file that are live at [now]. *)
Definition live_count (now : Z) (f : state_file) : nat :=
  match f with
  | Stamps ts => length (filter (fun t => live now t = true) ts)
  | _ => O
  end.

(** The reservations granted at a time [t] with [a <= t < a + 60000]. *)
Definition in_window (a : Z) (granted : list (string * Z)) : list (string * Z) :=
  filter (fun g => a <= snd g < a + 60000) granted.

(** ** orchestrator.py: the remaining queue operations *)

(** One element of the list given to [add_tasks_batch]: a dict in which
    each key may be missing. *)
Record batch_task := mk_batch_task {
  bt_task_id : option string;
  bt_title : option string;
  bt_description : option string;
  bt_priority : option Z;
  bt_depends_on : option (list string)
}.

(** [task.get('task_id') or f"task-{uuid.uuid4().hex[:8]}"]: a missing or
    empty id is replaced by a generated one, which takes the next draw of
    the oracle. *)
Definition batch_task_id (uuid4_hex : nat -> string) (draws : nat)
    (t : batch_task) : string * nat :=
  match bt_task_id t with
  | Some tid =>
      if String.eqb tid ""
      then ("task-" +:+ String.substring 0 8 (uuid4_hex draws), S draws)
      else (tid, draws)
  | None => ("task-" +:+ String.substring 0 8 (uuid4_hex draws), S draws)
  end.

(** The loop of [add_tasks_batch]: [INSERT OR IGNORE] skips a row whose
    [task_id] is already in the table. *)
Fixpoint add_tasks_batch_loop (uuid4_hex : nat -> string) (now : Z)
    (items : list batch_task) (draws : nat) (rows : list task_row)
    : list task_row * nat :=
  match items with
  | [] => (rows, draws)
  | t :: rest =>
      let (tid, draws') := batch_task_id uuid4_hex draws t in
      let rows' :=
        if has_task_id tid rows then rows
        else rows ++ [new_row tid (default "" (bt_title t))
                        (default "" (bt_description t))
                        (default 5 (bt_priority t))
                        (default [] (bt_depends_on t)) now] in
      add_tasks_batch_loop uuid4_hex now rest draws' rows'
  end.

(** [add_tasks_batch], with the oracle started at draw [draws]: the table
    afterwards and the number of the next draw. *)
Definition add_tasks_batch (uuid4_hex : nat -> string) (now : Z)
    (items : list batch_task) (draws : nat) (d : db) : db * nat :=
  let (rows, draws') :=
    add_tasks_batch_loop uuid4_hex now items draws (tasks d) in
  ({| tasks := rows; agent_log := agent_log d |}, draws').

(** The dict that [get_stats] returns. *)
Record stats := mk_stats {
  stats_pending : nat;
  stats_running : nat;
  stats_done : nat;
  stats_failed : nat;
  stats_fix_needed : nat;
  stats_total : nat
}.

(** One entry of [SELECT status, COUNT( * ) FROM tasks GROUP BY status], or
    the default 0 of [status_counts.get]. *)
Definition count_status (st : string) (rows : list task_row) : nat :=
  rowcount (fun r => String.eqb (status r) st) rows.

Definition get_stats (d : db) : stats :=
  {| stats_pending := count_status "pending" (tasks d);
     stats_running := count_status "running" (tasks d);
     stats_done := count_status "done" (tasks d);
     stats_failed := count_status "failed" (tasks d);
     stats_fix_needed := count_status "fix_needed" (tasks d);
     stats_total := length (tasks d) |}.

(** [clear]: [DELETE FROM tasks] and [DELETE FROM agent_log]. *)
Definition clear (d : db) : db := {| tasks := []; agent_log := [] |}.

(** ** web/server.py: the [/stop] route *)

Definition set_status (st : string) (r : task_row) : task_row :=
  {| task_id := task_id r; title := title r; description := description r;
     status := st; priority := priority r; retries := retries r;
     depends_on := depends_on r;
     assigned_worker := assigned_worker r; branch_name := branch_name r;
     result := result r; error := error r;
     created_at := created_at r; started_at := started_at r;
     completed_at := completed_at r |}.

(** The statement that [stop_swarm] runs on the table:
    [UPDATE tasks SET status='failed' WHERE status IN ('running','pending')]. *)
Definition stop_swarm (d : db) : db :=
  {| tasks := sql_update
                (fun r => existsb (String.eqb (status r)) ["running"; "pending"])
                (set_status "failed") (tasks d);
     agent_log := agent_log d |}.

(** ** agents/worker.py: the worker loop

    The effects of [execute_task] and [run] on the queue.  What the task
    does outside the queue (the model call, the files, git) is summed up
    in its outcome, an input of the embedding. *)

Inductive task_outcome :=
| Merged (summary : string) (dumps : string)
| MergeConflict
| Failed (message : string).

(** [execute_task]: the table afterwards and the value under ["status"] of
    the dict it returns.  [Merged summary dumps] is a run that reaches
    [return {"status": "success", ...}], [summary] being
    [result.get('summary', '')] and [dumps] the [json.dumps] of the
    returned dict; [Failed message] is a run in which an exception [e]
    with [str(e) = message] reaches the [except] clause. *)
Definition execute_task (worker_id : string) (t_start t_end : Z)
    (task : task_dict) (o : task_outcome) (d : db) : db * string :=
  let tid := td_task_id task in
  let d1 := log_event worker_id tid "started" ("Task: " +:+ td_title task) 0
              t_start d in
  match o with
  | Merged summary _ =>
      (log_event worker_id tid "done" summary 0 t_end d1, "success")
  | MergeConflict =>
      (mark_fix_needed tid "Merge conflict" t_end
         (log_event worker_id tid "conflict" "Merge conflict" 0 t_end d1),
       "conflict")
  | Failed message =>
      (fail_task tid (String.substring 0 500 message)
         (log_event worker_id tid "error" (String.substring 0 200 message) 0
            t_end d1),
       "failed")
  end.

(** [json.dumps(result)] of the dict that [execute_task] returned. *)
Definition dumps_of (o : task_outcome) : string :=
  match o with
  | Merged _ dumps => dumps
  | _ => ""
  end.

(** One pass through the [while] loop of [run], for a worker that no one
    interleaves with: [None] when [claim_task] finds nothing and the loop
    ends, otherwise the table after [execute_task] and, on success,
    [complete_task]. *)
Definition run_iteration (worker_id : string) (t_start t_end : Z)
    (work : task_dict -> task_outcome) (d : db) : option (task_dict * db) :=
  match claim_task worker_id t_start d with
  | (_, None) => None
  | (d1, Some task) =>
      let (d2, st) := execute_task worker_id t_start t_end task (work task) d1 in
      Some (task,
            if String.eqb st "success"
            then complete_task (td_task_id task) (dumps_of (work task)) "done"
                   t_end d2
            else d2)
  end.

(** [run]: pass number [iter] starts at time [clock (2 * iter)] and ends at
    [clock (2 * iter + 1)]; its task has the outcome [work iter].  The
    result says whether the loop has ended within [fuel] passes. *)
Fixpoint run (fuel : nat) (worker_id : string) (clock : nat -> Z)
    (work : nat -> task_dict -> task_outcome) (iter : nat) (d : db)
    : db * bool :=
  match fuel with
  | O => (d, false)
  | S fuel' =>
      match run_iteration worker_id (clock (2 * iter)%nat)
              (clock (2 * iter + 1)%nat) (work iter) d with
      | None => (d, true)
      | Some (_, d') => run fuel' worker_id clock work (S iter) d'
      end
  end.

(** ** main.py: the supervisor loop and the delivery archive *)

(** [running_workers]: the dict from the pid of a worker process to its
    worker id. *)
Abbreviation workers := (gmap positive string).

(** [for i in range(count)] of the spawn step, from the pass [i] on: the
    name is computed from the size the dict has at that pass, then the
    process is started and recorded under its pid.  [spawn_pid i] is the
    pid of the process that the pass [i] starts.  The result is the dict
    and the worker ids given out, in order. *)
Fixpoint spawn_loop (spawn_pid : nat -> positive) (i count : nat)
    (running_workers : workers) : workers * list string :=
  match count with
  | O => (running_workers, [])
  | S count' =>
      let worker_id :=
        "worker-" +:+ fmt0 (Z.of_nat (size running_workers) + Z.of_nat i + 1) in
      let (running_workers', spawned) :=
        spawn_loop spawn_pid (S i) count'
          (<[spawn_pid i := worker_id]> running_workers) in
      (running_workers', worker_id :: spawned)
  end.

(** [slots = config.MAX_WORKERS - len(running_workers)]; workers are
    started when [slots > 0 and stats['pending'] > 0]. *)
Definition spawn_workers (max_workers pending : Z) (spawn_pid : nat -> positive)
    (running_workers : workers) : workers * list string :=
  let slots := max_workers - Z.of_nat (size running_workers) in
  if (0 <? slots) && (0 <? pending)
  then spawn_loop spawn_pid 0 (Z.to_nat (Z.min slots pending)) running_workers
  else (running_workers, []).

(** The pids whose process [is_alive()] denies, then [del] of each. *)
Definition remove_finished (is_alive : positive -> bool)
    (running_workers : workers) : workers :=
  let finished :=
    filter (fun pid => is_alive pid = false)
           (map fst (map_to_list running_workers)) in
  foldl (fun m pid => delete pid m) running_workers finished.

(** One pass of the [while] loop of [main] that does not [break]: the
    dict afterwards and the worker ids started in the pass. *)
Definition supervisor_pass (max_workers pending : Z)
    (spawn_pid : nat -> positive) (is_alive : positive -> bool)
    (running_workers : workers) : workers * list string :=
  let (running_workers', spawned) :=
    spawn_workers max_workers pending spawn_pid running_workers in
  (remove_finished is_alive running_workers', spawned).

(** [s.replace(old, new)] for one-character [old] and [new]. *)
Fixpoint replace_char (old new : ascii) (s : string) : string :=
  match s with
  | EmptyString => EmptyString
  | String c rest =>
      String (if Ascii.eqb c old then new else c) (replace_char old new rest)
  end.

(** [safe_name = project_name[:30].replace(" ", "_").replace("/", "_")]. *)
Definition safe_name (project_name : string) : string :=
  replace_char "/" "_"
    (replace_char " " "_" (String.substring 0 30 project_name)).

(** [archive_name = f"{safe_name}-final-{timestamp}.tar.gz"]. *)
Definition archive_name (project_name timestamp : string) : string :=
  safe_name project_name +:+ "-final-" +:+ timestamp +:+ ".tar.gz".

(** [archive_path = outputs_dir / archive_name]. *)
Definition archive_path (outputs_dir : PurePath)
    (project_name timestamp : string) : PurePath :=
  joinpath outputs_dir (archive_name project_name timestamp).

(** ** Notions used in the statements and sample data *)

(** Two rows that agree on every column but [status], [result] and
    [completed_at]. *)
Definition same_but_completion (a b : task_row) : Prop :=
  task_id b = task_id a /\ title b = title a /\ description b = description a
  /\ priority b = priority a /\ retries b = retries a
  /\ depends_on b = depends_on a /\ assigned_worker b = assigned_worker a
  /\ branch_name b = branch_name a /\ error b = error a
  /\ created_at b = created_at a /\ started_at b = started_at a.

(** A payload path that is relative and has no [".."] component. *)
Definition is_confined (path : string) : bool :=
  negb (is_absolute (Path path))
  && negb (existsb (String.eqb "..") (parts (Path path))).

(** The workspace of [config.py] without [WORKSPACE_DIR] in the
    environment. *)
Definition default_workspace : PurePath :=
  Path "/home/gary/agentswarm/workspace".

(** A payload with an absolute path and a path that climbs out with
    [".."]. *)
Definition escaping_files : list file_entry :=
  [ {| fe_path := "/etc/cron.d/job"; fe_content := "* * * * * root sh" |};
    {| fe_path := "../../.ssh/authorized_keys"; fe_content := "ssh-rsa AAAA" |} ].

(** A payload with one file inside the workspace. *)
Definition confined_files : list file_entry :=
  [ {| fe_path := "src/app.py"; fe_content := "print(1)" |} ].

(** The keys of the worker payload. *)
Definition payload_keys : list (list N) :=
  [codes "files"; codes "summary"; codes "tokens_estimate"].

(** A value normalized to the payload: an object that has the three keys. *)
Definition is_normalized (v : json) : Prop :=
  exists fields, v = JObj fields
                 /\ Forall (fun k => k ∈ map fst fields) payload_keys.

(** What [parse_response] makes of a decoded value:
    [result[0] if result else {}] for a list. *)
Definition first_if_list (v : json) : json :=
  match v with
  | JArr [] => JObj []
  | JArr (first :: _) => first
  | _ => v
  end.

(** The timestamps that the limiter reads from the state file. *)
Definition stamps_of (f : state_file) : list Z :=
  match f with
  | Stamps ts => ts
  | _ => []
  end.

(** A schedule whose clock readings never go back, from [start] on. *)
Fixpoint monotone_from (start : Z) (schedule : list (string * Z)) : Prop :=
  match schedule with
  | [] => True
  | (_, now) :: rest => start <= now /\ monotone_from now rest
  end.

(** What holds between the state file and the reservations granted so far,
    at a time [last] that no later clock reading precedes. *)
Record limiter_inv (rpm last : Z) (hist : list (string * Z)) (f : state_file)
    : Prop := {
  inv_live : forall now, last <= now ->
    filter (fun t => live now t = true) (stamps_of f)
    = filter (fun t => live now t = true) (map snd hist);
  inv_window : forall a, Z.of_nat (length (in_window a hist)) <= rpm;
  inv_size : Z.of_nat (length (stamps_of f)) <= rpm
}.

(** Ten attempts of three workers within two minutes. *)
Definition busy_schedule : list (string * Z) :=
  [ ("worker-1", 0); ("worker-2", 10); ("worker-3", 20); ("worker-1", 30);
    ("worker-2", 5030); ("worker-1", 59999); ("worker-2", 60000);
    ("worker-3", 60005); ("worker-1", 60010); ("worker-3", 119000) ].

(** A row as [add_task] creates it, in a chosen status. *)
Definition sample_row (tid ttl st : string) (prio : Z) (deps : list string)
    (created : Z) : task_row :=
  {| task_id := tid; title := ttl; description := "work";
     status := st; priority := prio; retries := 0; depends_on := deps;
     assigned_worker := None; branch_name := None; result := None;
     error := None; created_at := created; started_at := None;
     completed_at := None |}.

(** Two pending tasks without dependencies. *)
Definition two_pending : db :=
  {| tasks := [ sample_row "task-00000001" "first" "pending" 1 [] 0;
                sample_row "task-00000002" "second" "pending" 1 [] 0 ];
     agent_log := [] |}.

(** A pending task whose only dependency is not in the table. *)
Definition dangling_row : task_row :=
  sample_row "task-00000003" "third" "pending" 5 ["task-ffffffff"] 0.

Definition dangling_db : db := {| tasks := [dangling_row]; agent_log := [] |}.

(** A task that worker [w1] claimed at time 0. *)
Definition running_row : task_row :=
  {| task_id := "task-0000000a"; title := "build"; description := "work";
     status := "running"; priority := 5; retries := 0; depends_on := [];
     assigned_worker := Some "w1"; branch_name := Some "agent-task-000";
     result := None; error := None; created_at := 0; started_at := Some 0;
     completed_at := None |}.

Definition running_db : db := {| tasks := [running_row]; agent_log := [] |}.

(** A task that was completed at time 10 with result ["r"]. *)
Definition done_row : task_row :=
  {| task_id := "task-0000000b"; title := "build"; description := "work";
     status := "done"; priority := 5; retries := 0; depends_on := [];
     assigned_worker := Some "w1"; branch_name := Some "agent-task-000";
     result := Some "r"; error := None; created_at := 0; started_at := Some 0;
     completed_at := Some 10 |}.

Definition done_db : db := {| tasks := [done_row]; agent_log := [] |}.

(** A task that a merge conflict sent to [fix_needed]. *)
Definition conflict_row : task_row :=
  {| task_id := "task-0000000c"; title := "parser"; description := "work";
     status := "fix_needed"; priority := 5; retries := 0; depends_on := [];
     assigned_worker := Some "w1"; branch_name := Some "agent-task-000";
     result := None; error := Some "Merge conflict"; created_at := 0;
     started_at := Some 0; completed_at := Some 10 |}.

Definition conflict_db : db := {| tasks := [conflict_row]; agent_log := [] |}.

Definition empty_db : db := {| tasks := []; agent_log := [] |}.

(** The table after one [add_task] whose [uuid4().hex] starts with
    [1a2b3c4d]. *)
Definition generated_db : db :=
  fst (add_task "build" "work" 5 [] "1a2b3c4d5e6f40718293a4b5c6d7e8f9" 0
         empty_db).

(** A finished task, a task that depends on it, and a task that depends
    on the second one; the third has the most urgent priority. *)
Definition gated_db : db :=
  {| tasks := [ sample_row "task-000000d1" "base" "done" 5 [] 0;
                sample_row "task-000000d2" "middle" "pending" 5
                  ["task-000000d1"] 1;
                sample_row "task-000000d3" "top" "pending" 1
                  ["task-000000d2"] 2;
                sample_row "task-000000d4" "side" "pending" 7 [] 3 ];
     agent_log := [] |}.

(** A call of one of the operations that write to [tasks], by any process.
    A claim carries the ready list that it took as its snapshot. *)
Inductive queue_call :=
| CallAddTask (ttl desc : string) (prio : Z) (deps : list string)
    (uuid_hex : string)
| CallAddTasksBatch (items : list batch_task) (uuid4_hex : nat -> string)
| CallClaimTask (worker_id : string) (ready : list task_dict)
| CallCompleteTask (tid res st : string)
| CallFailTask (tid err : string)
| CallMarkFixNeeded (tid err : string)
| CallStopSwarm.

(** The table after a call made at time [now]. *)
Definition apply_call (now : Z) (c : queue_call) (d : db) : db :=
  match c with
  | CallAddTask ttl desc prio deps uuid_hex =>
      fst (add_task ttl desc prio deps uuid_hex now d)
  | CallAddTasksBatch items uuid4_hex =>
      fst (add_tasks_batch uuid4_hex now items 0 d)
  | CallClaimTask worker_id ready => fst (claim_update worker_id now ready d)
  | CallCompleteTask tid res st => complete_task tid res st now d
  | CallFailTask tid err => fail_task tid err d
  | CallMarkFixNeeded tid err => mark_fix_needed tid err now d
  | CallStopSwarm => stop_swarm d
  end.

(** The table after a sequence of calls, each with its time. *)
Definition run_calls (calls : list (Z * queue_call)) (d : db) : db :=
  foldl (fun d c => apply_call (fst c) (snd c) d) d calls.

(** A row and what a later table holds in its place: the columns that
    [INSERT] sets are the same, and [retries] is not lower. *)
Definition evolves (a b : task_row) : Prop :=
  task_id b = task_id a /\ title b = title a /\ description b = description a
  /\ priority b = priority a /\ depends_on b = depends_on a
  /\ created_at b = created_at a /\ retries a <= retries b.

(** The rows of a table that grew: the old rows, each possibly updated,
    followed by new rows. *)
Definition grows (rows rows' : list task_row) : Prop :=
  exists l1 l2, rows' = l1 ++ l2 /\ Forall2 evolves rows l1.

(** An element of a batch that brings its own identifier. *)
Definition has_explicit_id (t : batch_task) : bool :=
  match bt_task_id t with
  | Some tid => negb (String.eqb tid "")
  | None => false
  end.

(** A row whose status [get_stats] has no counter for. *)
Definition uncounted_status (r : task_row) : bool :=
  negb (existsb (String.eqb (status r))
          ["pending"; "running"; "done"; "failed"; "fix_needed"]).

(** A planner batch with explicit identifiers. *)
Definition planned_batch : list batch_task :=
  [ {| bt_task_id := Some "task-001"; bt_title := Some "layout";
       bt_description := Some "create the files"; bt_priority := Some 1;
       bt_depends_on := None |};
    {| bt_task_id := Some "task-002"; bt_title := Some "logic";
       bt_description := None; bt_priority := None;
       bt_depends_on := Some ["task-001"] |} ].

(** What [run] leaves of a row of the claimed task, by the outcome of the
    task; a row of another task is left as it was. *)
Definition after_iteration (tid : string) (o : task_outcome)
    (old new : task_row) : Prop :=
  if String.eqb (task_id old) tid then
    evolves old new
    /\ match o with
       | Merged _ dumps =>
           status new = "done" /\ result new = Some dumps
           /\ retries new = retries old
       | MergeConflict =>
           status new = "fix_needed" /\ error new = Some "Merge conflict"
           /\ retries new = retries old
       | Failed message =>
           status new = "pending"
           /\ error new = Some (String.substring 0 500 message)
           /\ started_at new = None /\ retries new = retries old + 1
       end
  else new = old.

(** A worker whose tasks succeed or end in a merge conflict. *)
Definition steady_work (i : nat) (task : task_dict) : task_outcome :=
  if String.eqb (td_task_id task) "task-000000d4" then MergeConflict
  else Merged "ok" "{}".

(** A worker whose every task raises. *)
Definition failing_work (i : nat) (task : task_dict) : task_outcome :=
  Failed "API error: 500".

(** Two rows that [get_ready_tasks] cannot tell apart: they agree on the
    columns it reads. *)
Definition same_view (a b : task_row) : Prop :=
  task_id b = task_id a /\ title b = title a /\ description b = description a
  /\ status b = status a /\ priority b = priority a
  /\ depends_on b = depends_on a /\ created_at b = created_at a.

(** The task that the syntax sweep of [run_once] adds. *)
Definition syntax_fix_row (tid output : string) (now : Z) : task_row :=
  new_row tid "Fix Python syntax errors"
    ("Fix syntax errors: " +:+ String.substring 0 500 output) 1 [] now.

(** What the rework sweep makes of a task in [fix_needed]: the row it
    adds. *)
Definition is_fix_for (r new : task_row) : Prop :=
  status new = "pending" /\ priority new = 1
  /\ title new = "Fix: " +:+ title r
  /\ description new = "Fix the issue: " +:+ str_opt (error r)
  /\ depends_on new = [] /\ retries new = 0.


(** A short history of one task: added, claimed, failed, claimed again by
    another worker, completed. *)
Definition retry_history : list (Z * queue_call) :=
  [ (0, CallAddTask "build" "work" 5 [] "1a2b3c4d5e6f40718293a4b5c6d7e8f9");
    (1, CallClaimTask "w1" [ {| td_task_id := "task-1a2b3c4d";
                                td_title := "build"; td_description := "work";
                                td_priority := 5; td_branch_name := None |} ]);
    (2, CallFailTask "task-1a2b3c4d" "boom");
    (3, CallClaimTask "w2" [ {| td_task_id := "task-1a2b3c4d";
                                td_title := "build"; td_description := "work";
                                td_priority := 5; td_branch_name := None |} ]);
    (4, CallCompleteTask "task-1a2b3c4d" "{}" "done") ].

(** [c in s] for a character [c]. *)
Fixpoint has_char (c : ascii) (s : string) : bool :=
  match s with
  | EmptyString => false
  | String a rest => Ascii.eqb a c || has_char c rest
  end.

(** The worker ids that a spawn step gives out when [running_workers] has
    [n] entries and [count] workers are started. *)
Definition ids_from (n : nat) (count : nat) : list string :=
  map (fun i => "worker-" +:+ fmt0 (Z.of_nat n + 2 * Z.of_nat i + 1))
      (seq 0 count).

(** The pids of a system that hands them out in increasing order, after
    [last]. *)
Definition pids_after (last : positive) (i : nat) : positive :=
  (last + Pos.of_succ_nat i)%positive.

(* ===================================================================== *)
(** * Part II: properties                                                 *)
(* ===================================================================== *)

(** ** Tables: updates, counts, ordering *)

Lemma rowcount_zero (cond : task_row -> bool) (rows : list task_row) :
  rowcount cond rows = 0%nat <-> Forall (fun r => cond r = false) rows.
Proof.
  unfold rowcount. induction rows as [|r rows IH]; simpl.
  - split; [constructor | reflexivity].
  - rewrite filter_cons. destruct (cond r) eqn:E.
    + rewrite decide_True by reflexivity. simpl. split; [discriminate|].
      intros H. inversion H; subst. congruence.
    + rewrite decide_False by discriminate. rewrite IH. split.
      * intros H. constructor; assumption.
      * intros H. inversion H; assumption.
Qed.

Lemma rowcount_pos (cond : task_row -> bool) (rows : list task_row) :
  rowcount cond rows <> 0%nat <-> exists r, r ∈ rows /\ cond r = true.
Proof.
  rewrite rowcount_zero. split.
  - intros H. apply not_Forall_Exists in H; [|intros r; apply _].
    apply Exists_exists in H. destruct H as (r & Hin & Hr).
    exists r. split; [assumption|]. apply not_false_is_true. assumption.
  - intros (r & Hin & Hr) H. rewrite Forall_forall in H.
    specialize (H r Hin). congruence.
Qed.

Lemma sql_update_length cond set rows :
  length (sql_update cond set rows) = length rows.
Proof. unfold sql_update. apply length_map. Qed.

Lemma sql_update_lookup cond set rows (i : nat) :
  sql_update cond set rows !! i
  = (fun r => if cond r then set r else r) <$> rows !! i.
Proof. unfold sql_update. apply list_lookup_fmap. Qed.

Lemma elem_of_order_insert (x r : task_row) (l : list task_row) :
  x ∈ order_insert r l <-> x = r \/ x ∈ l.
Proof.
  induction l as [|y l IH]; simpl.
  - rewrite list_elem_of_singleton. rewrite elem_of_nil. tauto.
  - destruct (order_le r y).
    + rewrite elem_of_cons. tauto.
    + rewrite !elem_of_cons, IH. tauto.
Qed.

Lemma elem_of_order_by (x : task_row) (l : list task_row) :
  x ∈ order_by_priority_created l <-> x ∈ l.
Proof.
  unfold order_by_priority_created. induction l as [|y l IH]; simpl.
  - reflexivity.
  - rewrite elem_of_order_insert, IH, elem_of_cons. tauto.
Qed.

Lemma elem_of_select_pending (r : task_row) (d : db) :
  r ∈ select_pending d <-> r ∈ tasks d /\ is_pending r = true.
Proof.
  unfold select_pending. rewrite elem_of_order_by, list_elem_of_filter. tauto.
Qed.

Lemma in_ids_elem_of (tid : string) (ids : list string) :
  in_ids tid ids = true <-> tid ∈ ids.
Proof.
  unfold in_ids. rewrite existsb_exists. split.
  - intros (x & Hin & Heq). apply String.eqb_eq in Heq. subst.
    apply list_elem_of_In. assumption.
  - intros H. exists tid. split; [apply list_elem_of_In; assumption|].
    apply String.eqb_refl.
Qed.

Lemma has_task_id_elem_of (tid : string) (rows : list task_row) :
  has_task_id tid rows = true <-> exists r, r ∈ rows /\ task_id r = tid.
Proof.
  unfold has_task_id. rewrite existsb_exists. split.
  - intros (r & Hin & Heq). exists r. split.
    + apply list_elem_of_In. assumption.
    + apply String.eqb_eq. assumption.
  - intros (r & Hin & Heq). exists r. split.
    + apply list_elem_of_In. assumption.
    + apply String.eqb_eq. assumption.
Qed.

(** ** get_ready_tasks *)

(** A row is ready exactly when it is pending and its dependency check
    passes. *)
Lemma elem_of_get_ready_tasks (t : task_dict) (d : db) :
  t ∈ get_ready_tasks d <->
  exists r, r ∈ tasks d /\ is_pending r = true /\ deps_satisfied d r = true
            /\ t = ready_dict r.
Proof.
  unfold get_ready_tasks. rewrite list_elem_of_fmap. split.
  - intros (r & -> & Hr). apply list_elem_of_filter in Hr as [Hs Hr].
    apply elem_of_select_pending in Hr as [Hin Hp]. eauto.
  - intros (r & Hin & Hp & Hs & ->). exists r. split; [reflexivity|].
    apply list_elem_of_filter. split; [assumption|].
    apply elem_of_select_pending. auto.
Qed.

(** C10: a pending task whose listed dependencies are each either missing
    from the table or [done] passes the dependency check: the count of
    rows that are listed and not [done] is zero, whether or not the listed
    ids exist, and the task is in the ready list.  A dangling dependency
    therefore counts as satisfied. *)
Theorem dangling_dependency_is_ready (d : db) (r : task_row) :
  r ∈ tasks d ->
  is_pending r = true ->
  (forall dep, dep ∈ depends_on r ->
     has_task_id dep (tasks d) = false \/
     (forall r', r' ∈ tasks d -> task_id r' = dep -> status r' = "done")) ->
  pending_deps (depends_on r) d = 0%nat /\ ready_dict r ∈ get_ready_tasks d.
Proof.
  intros Hin Hp Hdeps.
  assert (Hcount : pending_deps (depends_on r) d = 0%nat).
  { unfold pending_deps. apply rowcount_zero. apply Forall_forall.
    intros r' Hr'. destruct (in_ids (task_id r') (depends_on r)) eqn:E;
      [|reflexivity].
    apply in_ids_elem_of in E. destruct (Hdeps _ E) as [Hmiss | Hdone].
    - assert (has_task_id (task_id r') (tasks d) = true) as Hex.
      { apply has_task_id_elem_of. eauto. }
      congruence.
    - rewrite (Hdone r' Hr' eq_refl). reflexivity. }
  split; [assumption|].
  apply elem_of_get_ready_tasks. exists r. repeat split; try assumption.
  unfold deps_satisfied. destruct (depends_on r) eqn:E; [reflexivity|].
  rewrite Hcount. reflexivity.
Qed.

Lemma dangling_dependency_is_ready_witness :
  pending_deps (depends_on dangling_row) dangling_db = 0%nat
  /\ ready_dict dangling_row ∈ get_ready_tasks dangling_db.
Proof.
  apply (dangling_dependency_is_ready dangling_db dangling_row).
  - apply list_elem_of_here.
  - reflexivity.
  - intros dep Hdep. left. apply list_elem_of_singleton in Hdep. subst dep.
    reflexivity.
Defined.

(** ** claim_task *)

Lemma sql_update_Forall2 (cond : task_row -> bool) (set : task_row -> task_row)
    (rows : list task_row) :
  Forall2 (fun old new => new = if cond old then set old else old)
    rows (sql_update cond set rows).
Proof.
  unfold sql_update. induction rows as [|r rows IH]; simpl; constructor; auto.
Qed.

(** Without interleaving, the first ready candidate is still pending when
    the update runs: [claim_task] answers [None] only for an empty ready
    list. *)
Lemma claim_task_none_iff (worker_id : string) (now : Z) (d : db) :
  snd (claim_task worker_id now d) = None <-> get_ready_tasks d = [].
Proof.
  unfold claim_task, claim_update.
  destruct (get_ready_tasks d) as [|t rest] eqn:E; [tauto|].
  assert (t ∈ get_ready_tasks d) as Hin by (rewrite E; apply list_elem_of_here).
  apply elem_of_get_ready_tasks in Hin as (r & Hr & Hp & _ & ->).
  assert (rowcount (claim_where (td_task_id (ready_dict r))) (tasks d) <> 0%nat)
    as Hpos.
  { apply rowcount_pos. exists r. split; [assumption|].
    unfold claim_where. simpl. rewrite String.eqb_refl. exact Hp. }
  apply Nat.eqb_neq in Hpos. rewrite Hpos. simpl. split; discriminate.
Qed.

(** C1 (amended): [claim_task] attempts the conditional update for the
    first candidate of the snapshot only.  It answers [None] exactly when
    the snapshot is empty or no row with the first candidate's id is still
    [pending], and then changes nothing; the other candidates are not
    tried.  Otherwise it answers the first candidate with its branch name
    added, and the rows with that id that were [pending] become [running]
    for this worker, every other row being left as it was. *)
Theorem claim_update_first_candidate (worker_id : string) (now : Z)
    (ready : list task_dict) (d : db) :
  (snd (claim_update worker_id now ready d) = None <->
     match ready with
     | [] => True
     | task :: _ =>
         forall r, r ∈ tasks d -> task_id r = td_task_id task ->
                   status r <> "pending"
     end)
  /\ (snd (claim_update worker_id now ready d) = None ->
      fst (claim_update worker_id now ready d) = d)
  /\ (forall t, snd (claim_update worker_id now ready d) = Some t ->
      exists task rest branch,
        ready = task :: rest
        /\ branch = "agent-" +:+ String.substring 0 8 (td_task_id task)
        /\ t = {| td_task_id := td_task_id task; td_title := td_title task;
                  td_description := td_description task;
                  td_priority := td_priority task;
                  td_branch_name := Some branch |}
        /\ agent_log (fst (claim_update worker_id now ready d)) = agent_log d
        /\ Forall2
             (fun old new =>
                new = if claim_where (td_task_id task) old
                      then claim_set worker_id branch now old else old)
             (tasks d) (tasks (fst (claim_update worker_id now ready d)))).
Proof.
  unfold claim_update. destruct ready as [|task rest].
  - simpl. repeat split; auto. intros t Ht. discriminate.
  - destruct (Nat.eqb (rowcount (claim_where (td_task_id task)) (tasks d)) 0)
      eqn:E; simpl.
    + apply Nat.eqb_eq in E. repeat split; auto.
      * intros _ r Hr Hid Hst.
        apply rowcount_zero in E. rewrite Forall_forall in E.
        specialize (E r Hr). unfold claim_where in E.
        rewrite Hid, Hst, String.eqb_refl in E. discriminate.
      * intros t Ht. discriminate.
    + apply Nat.eqb_neq in E. split; [|split].
      * split; [discriminate|]. intros H. exfalso. apply E.
        apply rowcount_zero. apply Forall_forall. intros r Hr.
        unfold claim_where.
        destruct (String.eqb (task_id r) (td_task_id task)) eqn:Hid;
          [|reflexivity].
        apply String.eqb_eq in Hid. simpl. apply String.eqb_neq.
        apply (H r Hr Hid).
      * discriminate.
      * intros t Ht. injection Ht as <-.
        exists task, rest, ("agent-" +:+ String.substring 0 8 (td_task_id task)).
        repeat split. apply sql_update_Forall2.
Qed.

(** C1 (as stated) fails: with the snapshot of two ready tasks taken before
    another worker claimed the first one, [claim_task] answers [None] and
    leaves the table alone, although the conditional update of the second
    candidate would affect one row; the loop of the specification answers
    the second candidate. *)
Lemma claim_gives_up_after_first_candidate :
  let ready := get_ready_tasks two_pending in
  let d1 := fst (claim_task "worker-B" 1 two_pending) in
  length ready = 2%nat
  /\ claim_update "worker-A" 2 ready d1 = (d1, None)
  /\ rowcount (claim_where "task-00000002") (tasks d1) = 1%nat
  /\ snd (claim_update_spec "worker-A" 2 ready d1)
     = Some {| td_task_id := "task-00000002"; td_title := "second";
               td_description := "work"; td_priority := 1;
               td_branch_name := Some "agent-task-000" |}.
Proof. vm_compute. repeat split. Qed.

(** ** complete_task and fail_task *)

Lemma complete_set_same_but_completion (st res : string) (now : Z)
    (r : task_row) :
  same_but_completion r (complete_set st res now r).
Proof. unfold same_but_completion. simpl. repeat split. Qed.

(** What [complete_task] does to each row, whatever state the row is in. *)
Lemma complete_task_rows (tid res st : string) (now : Z) (d : db) :
  agent_log (complete_task tid res st now d) = agent_log d
  /\ Forall2
       (fun old new =>
          same_but_completion old new
          /\ if String.eqb (task_id old) tid
             then status new = st /\ result new = Some res
                  /\ completed_at new = Some now
             else new = old)
       (tasks d) (tasks (complete_task tid res st now d)).
Proof.
  split; [reflexivity|]. simpl.
  eapply Forall2_impl; [apply sql_update_Forall2|].
  intros old new ->. simpl.
  destruct (String.eqb (task_id old) tid).
  - split; [apply complete_set_same_but_completion|]. simpl. auto.
  - split; [|reflexivity]. unfold same_but_completion. repeat split.
Qed.

(** C2 (amended): after a task was reset by [fail_task], a later
    [complete_task] for it with status [done] is not conditional on the
    caller or on [running]: it sets [status], [result] and [completed_at]
    of the task, and leaves its [retries], [error], [started_at] and
    remaining columns, every other row and the event log as the reset left
    them. *)
Theorem complete_after_reset_rewrites_completion (tid err res : string)
    (now : Z) (d : db) :
  let swept := fail_task tid err d in
  let late := complete_task tid res "done" now swept in
  agent_log late = agent_log swept
  /\ Forall2
       (fun old new =>
          same_but_completion old new
          /\ if String.eqb (task_id old) tid
             then status old = "pending" /\ status new = "done"
                  /\ result new = Some res /\ completed_at new = Some now
             else new = old)
       (tasks swept) (tasks late).
Proof.
  intros swept late.
  destruct (complete_task_rows tid res "done" now swept) as [Hlog Hrows].
  split; [exact Hlog|].
  assert (Forall (fun r => String.eqb (task_id r) tid = true
                           -> status r = "pending") (tasks swept)) as Hsw.
  { subst swept. simpl. unfold sql_update. apply Forall_forall.
    intros r Hr. apply list_elem_of_fmap in Hr as (r0 & -> & _).
    destruct (String.eqb (task_id r0) tid) eqn:E; simpl.
    - reflexivity.
    - congruence. }
  revert Hsw Hrows. fold late. generalize (tasks swept) (tasks late).
  intros l1 l2 Hsw Hrows. induction Hrows as [|a b l1 l2 [Hs Hc] _ IH].
  - constructor.
  - inversion Hsw as [|? ? Ha Hl1]; subst. constructor; [|auto].
    split; [exact Hs|].
    destruct (String.eqb (task_id a) tid); [|exact Hc].
    destruct Hc as (? & ? & ?). auto.
Qed.

(** C2 (as stated) fails: the task that worker [w1] held is reset by
    [fail_task] as the stall sweep does it, and the late [complete_task]
    of [w1] then turns it from [pending] to [done] and sets its result and
    completion time. *)
Lemma late_complete_mutates_reset_task :
  let swept := fail_task "task-0000000a" "Stalled after 301s" running_db in
  let late := complete_task "task-0000000a" "{}" "done" 400 swept in
  map status (tasks swept) = ["pending"]
  /\ map retries (tasks swept) = [1]
  /\ map status (tasks late) = ["done"]
  /\ map result (tasks late) = [Some "{}"]
  /\ map completed_at (tasks late) = [Some 400]
  /\ late <> swept.
Proof. vm_compute. repeat split. discriminate. Qed.

(** C7 (amended): a second [complete_task] with the same result and status
    [done] raises nothing and keeps every column of every row except
    [completed_at], which it sets again, to the time of the second call,
    on the rows of the task. *)
Theorem complete_twice_resets_completed_at (tid res : string)
    (now1 now2 : Z) (d : db) :
  let once := complete_task tid res "done" now1 d in
  let twice := complete_task tid res "done" now2 once in
  twice = complete_task tid res "done" now2 d
  /\ agent_log twice = agent_log once
  /\ Forall2
       (fun old new =>
          same_but_completion old new
          /\ status new = status old /\ result new = result old
          /\ completed_at new = if String.eqb (task_id old) tid
                                then Some now2 else completed_at old)
       (tasks once) (tasks twice).
Proof.
  intros once twice. subst once twice. unfold complete_task. simpl.
  split; [|split; [reflexivity|]].
  - f_equal. unfold sql_update. rewrite map_map. apply map_ext.
    intros r. destruct (String.eqb (task_id r) tid) eqn:E; simpl; rewrite E;
      reflexivity.
  - unfold sql_update. induction (tasks d) as [|r rows IH]; simpl;
      constructor; [|exact IH].
    destruct (String.eqb (task_id r) tid) eqn:E; simpl; rewrite E; simpl.
    + unfold same_but_completion. simpl. repeat split.
    + unfold same_but_completion. repeat split.
Qed.

(** C7 (as stated) fails: completing again, at time 20, a task that was
    completed at time 10 with the same result moves [completed_at] to 20. *)
Lemma second_complete_moves_completed_at :
  map status (tasks done_db) = ["done"]
  /\ map result (tasks done_db) = [Some "r"]
  /\ map completed_at (tasks done_db) = [Some 10]
  /\ map completed_at (tasks (complete_task "task-0000000b" "r" "done" 20 done_db))
     = [Some 20]
  /\ complete_task "task-0000000b" "r" "done" 20 done_db <> done_db.
Proof. vm_compute. repeat split. discriminate. Qed.

(** What a claim that answers a task has done. *)
Lemma claim_update_some (worker_id : string) (now : Z)
    (ready : list task_dict) (d : db) (t : task_dict) :
  snd (claim_update worker_id now ready d) = Some t ->
  exists task rest branch,
    ready = task :: rest
    /\ branch = "agent-" +:+ String.substring 0 8 (td_task_id task)
    /\ t = {| td_task_id := td_task_id task; td_title := td_title task;
              td_description := td_description task;
              td_priority := td_priority task;
              td_branch_name := Some branch |}
    /\ rowcount (claim_where (td_task_id task)) (tasks d) <> 0%nat
    /\ fst (claim_update worker_id now ready d)
       = {| tasks := sql_update (claim_where (td_task_id task))
                       (claim_set worker_id branch now) (tasks d);
            agent_log := agent_log d |}.
Proof.
  unfold claim_update. destruct ready as [|task rest]; [discriminate|].
  destruct (Nat.eqb (rowcount (claim_where (td_task_id task)) (tasks d)) 0)
    eqn:E; simpl; [discriminate|].
  intros Ht. injection Ht as <-. apply Nat.eqb_neq in E.
  exists task, rest, ("agent-" +:+ String.substring 0 8 (td_task_id task)).
  repeat split. exact E.
Qed.

(** ** Branch names *)

Lemma first8_of_generated_id (uuid_hex : string) :
  String.substring 0 8 ("task-" +:+ String.substring 0 8 uuid_hex)
  = "task-" +:+ String.substring 0 3 uuid_hex.
Proof.
  destruct uuid_hex as [|a [|b [|c [|e rest]]]]; reflexivity.
Qed.

(** C9 (amended): the branch recorded at claim time is ["agent-"] followed
    by the first 8 characters of the task identifier, a function of the
    identifier alone, and [commit_and_merge] derives the same name.  For an
    identifier made by [add_task], ["task-"] and 8 hexadecimal digits,
    these 8 characters are ["task-"] and the first 3 of the digits. *)
Theorem branch_is_agent_and_first8_of_task_id (worker_id : string) (now : Z)
    (ready : list task_dict) (d : db) (t : task_dict) :
  snd (claim_update worker_id now ready d) = Some t ->
  td_branch_name t = Some ("agent-" +:+ String.substring 0 8 (td_task_id t))
  /\ td_branch_name t = Some (commit_and_merge_branch (td_task_id t))
  /\ Forall2
       (fun old new =>
          claim_where (td_task_id t) old = true ->
          status new = "running"
          /\ branch_name new = Some (commit_and_merge_branch (td_task_id t)))
       (tasks d) (tasks (fst (claim_update worker_id now ready d)))
  /\ (forall uuid_hex,
        td_task_id t = "task-" +:+ String.substring 0 8 uuid_hex ->
        td_branch_name t
        = Some ("agent-task-" +:+ String.substring 0 3 uuid_hex)).
Proof.
  intros Ht.
  destruct (claim_update_some worker_id now ready d t Ht)
    as (task & rest & branch & -> & -> & -> & _ & ->).
  simpl. unfold commit_and_merge_branch. repeat split.
  - eapply Forall2_impl; [apply sql_update_Forall2|]. simpl.
    intros old new -> Hw. rewrite Hw. simpl. auto.
  - intros uuid_hex Hid. rewrite Hid, first8_of_generated_id. reflexivity.
Qed.

Lemma branch_is_agent_and_first8_of_task_id_witness :
  let t := {| td_task_id := "task-1a2b3c4d"; td_title := "build";
              td_description := "work"; td_priority := 5;
              td_branch_name := Some "agent-task-1a2" |} in
  snd (claim_task "w1" 1 generated_db) = Some t
  /\ td_branch_name t = Some (commit_and_merge_branch (td_task_id t)).
Proof.
  intros t. split; [reflexivity|].
  exact (proj1 (proj2 (branch_is_agent_and_first8_of_task_id "w1" 1
                         (get_ready_tasks generated_db) generated_db t
                         eq_refl))).
Defined.

(** C9 (as stated) fails: for the identifier ["task-1a2b3c4d"] that
    [add_task] makes from a uuid starting with [1a2b3c4d], the branch of
    the claim and of [commit_and_merge] is ["agent-task-1a2"], not
    ["agent-"] followed by the 8 hexadecimal digits. *)
Lemma branch_of_generated_id_is_not_its_hex :
  map task_id (tasks generated_db) = ["task-1a2b3c4d"]
  /\ (td_branch_name <$> snd (claim_task "w1" 1 generated_db))
     = Some (Some "agent-task-1a2")
  /\ map branch_name (tasks (fst (claim_task "w1" 1 generated_db)))
     = [Some "agent-task-1a2"]
  /\ commit_and_merge_branch "task-1a2b3c4d" = "agent-task-1a2"
  /\ commit_and_merge_branch "task-1a2b3c4d" <> "agent-1a2b3c4d".
Proof. vm_compute. repeat split. discriminate. Qed.

(** ** The reconciler sweep *)

(** [config.py] binds [WORKER_TIMEOUT], not [WORKER_TIMEOUT_SECONDS]:
    whatever the environment, the attribute that [check_stalled_workers]
    reads is missing. *)
Lemma config_has_no_WORKER_TIMEOUT_SECONDS (s : settings) :
  getattr (config s) "WORKER_TIMEOUT_SECONDS"
  = inl (AttributeError "WORKER_TIMEOUT_SECONDS")
  /\ getattr (config s) "WORKER_TIMEOUT" = inr (PyInt (WORKER_TIMEOUT s)).
Proof. split; reflexivity. Qed.

Lemma check_stalled_workers_raises (s : settings) (now : Z) (w : world) :
  check_stalled_workers (config s) now w
  = (w, inl (AttributeError "WORKER_TIMEOUT_SECONDS")).
Proof. reflexivity. Qed.

(** With [config.py] as the configuration, every sweep ends in an
    exception before its stall sweep and its rework sweep do anything: the
    rows of [tasks] are the old ones, followed at most by the task of the
    syntax sweep, and the only event a sweep can log is the [error] of the
    syntax sweep. *)
Lemma run_once_raises (s : settings) (uuid4_hex : nat -> string)
    (syntax : syntax_result) (now : Z) (w : world) :
  let out := run_once (config s) uuid4_hex syntax now w in
  (exists e, snd out = inl e)
  /\ (exists added,
        tasks (w_db (fst out)) = tasks (w_db w) ++ added
        /\ Forall (fun r => title r = "Fix Python syntax errors") added)
  /\ (exists logged,
        agent_log (w_db (fst out)) = agent_log (w_db w) ++ logged
        /\ Forall (fun e => log_event_name e = "error") logged).
Proof.
  unfold run_once. destruct (syntax_ok syntax).
  - simpl. split; [eauto|]. split; exists []; rewrite app_nil_r; auto.
  - unfold mbind, Run_bind, queue_add_task, add_task. cbv beta.
    match goal with
    | |- context [has_task_id ?t ?l] => destruct (has_task_id t l)
    end; simpl.
    + split; [eauto|]. split; exists []; rewrite app_nil_r; auto.
    + split; [eauto|]. split; eexists; split; try reflexivity;
        repeat constructor.
Qed.

(** C3: the stall sweep is not reached.  A task that has been [running]
    for 1000 seconds, with the default timeout of 300 seconds, is left
    [running] with [retries] 0 and no [stalled] event: [run_once] raises
    [AttributeError] for [config.WORKER_TIMEOUT_SECONDS]. *)
Theorem stalled_task_is_not_reset (api_key : string)
    (uuid4_hex : nat -> string) :
  let w := {| w_db := running_db; w_uuid_draws := 0 |} in
  map status (tasks running_db) = ["running"]
  /\ map started_at (tasks running_db) = [Some 0]
  /\ run_once (config (default_settings api_key)) uuid4_hex
       {| syntax_ok := true; syntax_output := "" |} 1000 w
     = (w, inl (AttributeError "WORKER_TIMEOUT_SECONDS")).
Proof. repeat split. Qed.

(** What the stall sweep does once the attribute it reads exists: the
    same task is logged as [stalled] and goes back to [pending] with
    [retries] 1. *)
Example stall_sweep_with_the_attribute_bound (api_key : string)
    (uuid4_hex : nat -> string) :
  let w := {| w_db := running_db; w_uuid_draws := 0 |} in
  let cfg := ("WORKER_TIMEOUT_SECONDS", PyInt 300)
               :: config (default_settings api_key) in
  let out := run_once cfg uuid4_hex
               {| syntax_ok := true; syntax_output := "" |} 1000 w in
  map status (tasks (w_db (fst out))) = ["pending"]
  /\ map retries (tasks (w_db (fst out))) = [1]
  /\ map started_at (tasks (w_db (fst out))) = [None]
  /\ map error (tasks (w_db (fst out))) = [Some "Stalled after 1000s"]
  /\ map log_event_name (agent_log (w_db (fst out))) = ["stalled"]
  /\ match snd out with
     | inr r => map sd_task_id (res_stalled r) = ["task-0000000a"]
     | inl _ => False
     end.
Proof. vm_compute. repeat split. Qed.

(** C5: the rework sweep is not reached either.  With a task in
    [fix_needed], [run_once] raises the same [AttributeError] in its stall
    sweep: no fix task is created, the task stays in [fix_needed] and no
    [fix_created] event is logged. *)
Theorem fix_needed_task_is_not_replaced (api_key : string)
    (uuid4_hex : nat -> string) :
  let w := {| w_db := conflict_db; w_uuid_draws := 0 |} in
  map status (tasks conflict_db) = ["fix_needed"]
  /\ run_once (config (default_settings api_key)) uuid4_hex
       {| syntax_ok := true; syntax_output := "" |} 20 w
     = (w, inl (AttributeError "WORKER_TIMEOUT_SECONDS")).
Proof. repeat split. Qed.

(** What [handle_fix_needed] does when it is called: one new pending task
    of priority 1 for the task in [fix_needed], which becomes [replaced],
    and a [fix_created] event. *)
Example handle_fix_needed_when_reached :
  let w := {| w_db := conflict_db; w_uuid_draws := 0 |} in
  let out := handle_fix_needed (fun _ => "0f1e2d3c4b5a69788796a5b4c3d2e1f0") 20 w in
  snd out = inr 1%nat
  /\ map status (tasks (w_db (fst out))) = ["replaced"; "pending"]
  /\ map title (tasks (w_db (fst out))) = ["parser"; "Fix: parser"]
  /\ map description (tasks (w_db (fst out)))
     = ["work"; "Fix the issue: Merge conflict"]
  /\ map priority (tasks (w_db (fst out))) = [5; 1]
  /\ map result (tasks (w_db (fst out)))
     = [Some "Replaced by task-0f1e2d3c"; None]
  /\ map log_event_name (agent_log (w_db (fst out))) = ["fix_created"].
Proof. vm_compute. repeat split. Qed.

(** ** write_files *)

Lemma walk_app (cur ps1 ps2 : list string) :
  walk cur (ps1 ++ ps2) = walk (walk cur ps1) ps2.
Proof.
  revert cur. induction ps1 as [|p ps1 IH]; intros cur; simpl; [reflexivity|].
  destruct (String.eqb p ".."); apply IH.
Qed.

Lemma walk_no_dotdot (cur ps : list string) :
  existsb (String.eqb "..") ps = false -> walk cur ps = cur ++ ps.
Proof.
  revert cur. induction ps as [|p ps IH]; intros cur H;
    cbn [existsb walk] in *.
  - symmetry. apply app_nil_r.
  - apply orb_false_elim in H as [Hp Hps].
    rewrite String.eqb_sym in Hp. rewrite Hp, IH by assumption.
    rewrite <- app_assoc. reflexivity.
Qed.

(** A confined path is located under the workspace. *)
Lemma locate_joinpath_confined (cwd : list string) (workspace : PurePath)
    (path : string) :
  is_confined path = true ->
  locate cwd (joinpath workspace path)
  = locate cwd workspace ++ parts (Path path).
Proof.
  unfold is_confined. intros H. apply andb_prop in H as [Hrel Hdots].
  apply negb_true_iff in Hrel. apply negb_true_iff in Hdots.
  unfold joinpath. rewrite Hrel. unfold locate. simpl.
  rewrite walk_app. apply walk_no_dotdot. assumption.
Qed.

(** [mkdir] creates directories only: no file appears, changes or
    disappears. *)
Lemma mkdirs_keeps_files (ps cur : list string) (f : fs) (loc : list string)
    (c : string) :
  fst (mkdirs cur ps f) !! loc = Some (File c) <-> f !! loc = Some (File c).
Proof.
  revert cur f. induction ps as [|p ps IH]; intros cur f; simpl; [reflexivity|].
  destruct (String.eqb p ".."); [apply IH|].
  destruct (f !! (cur ++ [p])) as [[|c']|] eqn:E; simpl; try reflexivity.
  - rewrite IH. destruct (decide (cur ++ [p] = loc)) as [<-|Hne].
    + rewrite lookup_insert_eq, E. split; discriminate.
    + rewrite lookup_insert_ne by assumption. reflexivity.
  - rewrite IH. destruct (decide (cur ++ [p] = loc)) as [<-|Hne].
    + rewrite lookup_insert_eq, E. split; discriminate.
    + rewrite lookup_insert_ne by assumption. reflexivity.
Qed.

(** [write_text] touches the location of its path only. *)
Lemma write_text_elsewhere (cwd : list string) (p : PurePath)
    (content : string) (f : fs) (loc : list string) :
  loc <> locate cwd p ->
  fst (write_text cwd p content f) !! loc = f !! loc.
Proof.
  intros Hne. unfold write_text. destruct (names_directory cwd p f); simpl.
  - reflexivity.
  - apply lookup_insert_ne. congruence.
Qed.

(** C4 (amended): [write_files] joins each non-empty path to the workspace
    and writes there, without checking the path.  When every path of the
    payload is relative and free of [".."], no file outside the workspace
    directory is created, overwritten or removed; absolute paths and paths
    with [".."] are not rejected. *)
Theorem write_files_confined_paths_stay_inside
    (tool_ok : string -> string -> bool) (cwd : list string)
    (workspace : PurePath) (files : list file_entry) (f : fs)
    (loc : list string) (c : string) :
  forallb (fun e => is_confined (fe_path e)) files = true ->
  ~ locate cwd workspace `prefix_of` loc ->
  fst (write_files tool_ok cwd workspace files f) !! loc = Some (File c)
  <-> f !! loc = Some (File c).
Proof.
  intros Hfiles Hout. unfold write_files.
  generalize (@nil string) as written. revert f Hfiles.
  induction files as [|e files IH]; intros f Hfiles written; simpl;
    [reflexivity|].
  simpl in Hfiles. apply andb_prop in Hfiles as [He Hfiles].
  destruct (String.eqb (fe_path e) ""); [apply IH; assumption|].
  unfold mbind, Run_bind. unfold mkdir_parents.
  pose proof (mkdirs_keeps_files
                (parts (parent (joinpath workspace (fe_path e))))
                (if is_absolute (parent (joinpath workspace (fe_path e)))
                 then [] else cwd) f loc c) as Hmk.
  destruct (mkdirs _ (parts (parent (joinpath workspace (fe_path e)))) f)
    as [f1 [e1|[]]]; simpl in Hmk; [exact Hmk|].
  assert (loc <> locate cwd (joinpath workspace (fe_path e))) as Hne.
  { intros ->. apply Hout. rewrite locate_joinpath_confined by assumption.
    apply prefix_app_r. reflexivity. }
  pose proof (write_text_elsewhere cwd (joinpath workspace (fe_path e))
                (fe_content e) f1 loc Hne) as Hwt.
  destruct (write_text cwd (joinpath workspace (fe_path e)) (fe_content e) f1)
    as [f2 [e2|[]]]; simpl in Hwt.
  - simpl. rewrite Hwt. exact Hmk.
  - destruct (syntax_check tool_ok (joinpath workspace (fe_path e))
                (fe_content e)).
    + rewrite IH by assumption. rewrite Hwt. exact Hmk.
    + simpl. rewrite Hwt. exact Hmk.
Qed.

Lemma write_files_confined_paths_stay_inside_witness :
  forallb (fun e => is_confined (fe_path e)) confined_files = true
  /\ (fst (write_files (fun _ _ => true) [] default_workspace confined_files
             {[ ["etc"; "passwd"] := File "root" ]})
        !! ["etc"; "passwd"] = Some (File "root")
      <-> ({[ ["etc"; "passwd"] := File "root" ]} : fs) !! ["etc"; "passwd"]
          = Some (File "root")).
Proof.
  split; [reflexivity|].
  apply (write_files_confined_paths_stay_inside (fun _ _ => true) []
           default_workspace confined_files).
  - reflexivity.
  - intros [k Hk]. discriminate Hk.
Defined.

(** C4 (as stated) fails: for the payload with an absolute path and a path
    with [".."], [write_files] rejects nothing, reports both paths as
    written, and creates both files outside the workspace. *)
Lemma write_files_escapes_the_workspace :
  let out := write_files (fun _ _ => true) [] default_workspace
               escaping_files ∅ in
  locate [] default_workspace = ["home"; "gary"; "agentswarm"; "workspace"]
  /\ snd out = inr ["/etc/cron.d/job"; "../../.ssh/authorized_keys"]
  /\ fst out !! ["etc"; "cron.d"; "job"] = Some (File "* * * * * root sh")
  /\ fst out !! ["home"; "gary"; ".ssh"; "authorized_keys"]
     = Some (File "ssh-rsa AAAA")
  /\ ~ locate [] default_workspace `prefix_of` ["etc"; "cron.d"; "job"]
  /\ ~ locate [] default_workspace
         `prefix_of` ["home"; "gary"; ".ssh"; "authorized_keys"].
Proof.
  repeat split; try (vm_compute; reflexivity);
    intros [k Hk]; vm_compute in Hk; discriminate Hk.
Qed.

(** ** parse_response *)

Lemma length_substring_le (s : string) (n m : nat) :
  (String.length (String.substring n m s) <= m)%nat.
Proof.
  revert n m. induction s as [|c s IH]; intros n m.
  - destruct n, m; simpl; lia.
  - destruct n as [|n]; destruct m as [|m]; simpl; try lia.
    + specialize (IH 0%nat m). lia.
    + apply IH.
    + apply IH.
Qed.

Lemma length_slice_from (n : nat) (s : string) :
  (String.length (slice_from n s) <= String.length s - n)%nat.
Proof. apply length_substring_le. Qed.

(** The fuel that [clean_response] gives to [remove_think], the length of
    the response, is enough: more fuel deletes nothing more. *)
Lemma remove_think_enough_fuel (n m : nat) (s : string) :
  (String.length s <= n)%nat -> (String.length s <= m)%nat ->
  remove_think n s = remove_think m s.
Proof.
  revert m s. induction n as [|n IH]; intros m s Hn Hm.
  - destruct s; [|simpl in Hn; lia]. destruct m; reflexivity.
  - destruct m as [|m].
    + destruct s; [reflexivity|simpl in Hm; lia].
    + cbn [remove_think].
      destruct (index 0 "<think>" s) as [i|]; [|reflexivity].
      destruct (index (i + 7) "</think>" s) as [j|]; [|reflexivity].
      f_equal. pose proof (length_slice_from (j + 8) s).
      apply IH; lia.
Qed.

Lemma json_loads_never_raises (s : string) (e : exn) : json_loads s <> Raised e.
Proof.
  unfold json_loads.
  destruct (scan_value _ _) as [[v rest]|]; [|discriminate].
  destruct (skip_json_space rest); discriminate.
Qed.

Lemma degenerate_is_normalized (cleaned : string) :
  is_normalized (degenerate cleaned).
Proof.
  eexists. split; [reflexivity|]. unfold payload_keys. simpl.
  repeat constructor.
Qed.

(** C8 (amended): [parse_response] catches [json.JSONDecodeError] and
    nothing else, so it returns whenever [json.loads] raises nothing but
    that.  When the cleaned response has no ["["] and no ["{"], or the text
    from the first of them does not decode, the result is
    [{files: [], summary: cleaned[:500], tokens_estimate: 500}], which has
    the three keys.  When that text decodes, the result is the decoded
    value itself, or the first element of a decoded list, or [{}] for an
    empty list: it is not normalized to the three keys. *)
Theorem parse_response_degrades_or_passes_through
    (loads : string -> loads_outcome) (response : string) :
  let cleaned := clean_response response in
  ((forall s e, loads s <> Raised e) ->
   exists v, parse_response loads response = inr v)
  /\ ((json_start cleaned = None
       \/ exists i, json_start cleaned = Some i
                    /\ loads (slice_from i cleaned) = JSONDecodeError) ->
      parse_response loads response = inr (degenerate cleaned)
      /\ is_normalized (degenerate cleaned))
  /\ (forall i v, json_start cleaned = Some i ->
                  loads (slice_from i cleaned) = Decoded v ->
                  parse_response loads response = inr (first_if_list v)).
Proof.
  intros cleaned. unfold parse_response. fold cleaned.
  split; [|split].
  - intros Hloads. destruct (json_start cleaned) as [i|]; [|eauto].
    destruct (loads (slice_from i cleaned)) as [v| |e] eqn:E.
    + destruct v as [| | | | |[|x items]|]; eauto.
    + eauto.
    + exfalso. exact (Hloads _ _ E).
  - intros [Hnone | (i & Hi & Hfail)].
    + rewrite Hnone. split; [reflexivity|apply degenerate_is_normalized].
    + rewrite Hi, Hfail. split; [reflexivity|apply degenerate_is_normalized].
  - intros i v Hi Hv. rewrite Hi, Hv.
    destruct v as [| | | | |[|x items]|]; reflexivity.
Qed.

Lemma parse_response_degrades_or_passes_through_witness :
  json_start (clean_response "no json here") = None
  /\ parse_response json_loads "no json here"
     = inr (degenerate "no json here")
  /\ exists v, parse_response json_loads "[{}, 2]" = inr v.
Proof.
  split; [reflexivity|].
  destruct (parse_response_degrades_or_passes_through json_loads
              "no json here") as (_ & Hdeg & _).
  destruct (parse_response_degrades_or_passes_through json_loads
              "[{}, 2]") as (Hret & _ & _).
  split.
  - apply Hdeg. left. reflexivity.
  - apply Hret. apply json_loads_never_raises.
Defined.

(** C8 (as stated) fails: the response ["{}"] decodes, and [parse_response]
    returns the empty object, which has none of the three keys; the
    response ["[1]"] makes it return the number 1, which is not an object. *)
Lemma parse_response_does_not_normalize :
  parse_response json_loads "{}" = inr (JObj [])
  /\ ~ is_normalized (JObj [])
  /\ parse_response json_loads "[1]" = inr (JInt 1)
  /\ ~ is_normalized (JInt 1).
Proof.
  split; [reflexivity|]. split; [|split; [reflexivity|]].
  - intros (fields & Hf & Hkeys). injection Hf as <-.
    inversion Hkeys as [|? ? Hk _]; subst. simpl in Hk.
    apply elem_of_nil in Hk. exact Hk.
  - intros (fields & Hf & _). discriminate Hf.
Qed.

(** ** The rate limiter *)

Lemma rate_limit_rpm_at_least_1 (cfg : list (string * pyval)) (rpm : Z) :
  rate_limit_rpm cfg = Some rpm -> 1 <= rpm.
Proof.
  unfold rate_limit_rpm.
  destruct (int_of _) as [z|]; simpl; [|discriminate].
  intros H. injection H as <-. lia.
Qed.

Lemma rate_limit_rpm_of_config (s : settings) :
  rate_limit_rpm (config s) = Some (Z.max 1 (API_RATE_LIMIT_RPM s)).
Proof. reflexivity. Qed.

(** A pass that finds the limit reached writes nothing and retries. *)
Lemma throttle_attempt_full (rpm now : Z) (f : state_file) :
  rpm <= Z.of_nat (live_count now f) ->
  fst (throttle_attempt rpm now f) = f
  /\ must_retry (snd (throttle_attempt rpm now f)) = true.
Proof.
  intros H. unfold throttle_attempt.
  assert (live_count now f
          = length (filter (fun t => live now t = true) (stamps_of f))) as E
    by (destruct f; reflexivity).
  rewrite E in H. fold (stamps_of f).
  apply Z.leb_le in H. rewrite H. simpl. split; [reflexivity|].
  unfold must_retry. simpl. apply Z.ltb_lt. lia.
Qed.

(** A pass that finds room records [now] behind the live timestamps and
    returns. *)
Lemma throttle_attempt_room (rpm now : Z) (f : state_file) :
  Z.of_nat (live_count now f) < rpm ->
  fst (throttle_attempt rpm now f)
  = Stamps (filter (fun t => live now t = true) (stamps_of f) ++ [now])
  /\ must_retry (snd (throttle_attempt rpm now f)) = false.
Proof.
  intros H. unfold throttle_attempt.
  assert (live_count now f
          = length (filter (fun t => live now t = true) (stamps_of f))) as E
    by (destruct f; reflexivity).
  rewrite E in H. fold (stamps_of f).
  apply Z.leb_gt in H. rewrite H. simpl. split; reflexivity.
Qed.

Lemma live_later (now now' t : Z) :
  now <= now' -> live now' t = true -> live now t = true.
Proof. unfold live. intros H H'. apply Z.ltb_lt in H'. apply Z.ltb_lt. lia. Qed.

Lemma filter_live_snd (now : Z) (hist : list (string * Z)) :
  filter (fun t => live now t = true) (map snd hist)
  = map snd (filter (fun g => live now (snd g) = true) hist).
Proof.
  induction hist as [|g hist IH]; [reflexivity|]. simpl.
  rewrite !filter_cons. destruct (decide (live now (snd g) = true)); simpl;
    rewrite IH; reflexivity.
Qed.

Lemma limiter_inv_step (rpm last now : Z) (worker_id : string)
    (hist : list (string * Z)) (f : state_file) :
  limiter_inv rpm last hist f -> last <= now ->
  limiter_inv rpm now
    (if must_retry (snd (throttle_attempt rpm now f))
     then hist else hist ++ [(worker_id, now)])
    (fst (throttle_attempt rpm now f)).
Proof.
  intros [Hlive Hwin Hsize] Hle.
  destruct (Z_lt_le_dec (Z.of_nat (live_count now f)) rpm) as [Hroom|Hfull].
  - destruct (throttle_attempt_room rpm now f Hroom) as [-> ->].
    assert (live_count now f
            = length (filter (fun t => live now t = true) (stamps_of f))) as E
      by (destruct f; reflexivity).
    split.
    + intros now' Hle'. simpl. rewrite map_app, !filter_app. f_equal.
      rewrite list_filter_filter_l by (intros t; apply live_later; assumption).
      apply Hlive. lia.
    + intros a. unfold in_window. rewrite filter_app, length_app.
      rewrite filter_cons, filter_nil. simpl.
      destruct (decide (a <= now < a + 60000)) as [Hin|Hout]; simpl.
      * assert (length (filter (fun g => (a <= snd g < a + 60000)%Z) hist)
                <= length (filter (fun t => live now t = true) (stamps_of f)))%nat
          as Hbound.
        { rewrite (Hlive now Hle), filter_live_snd, length_map.
          rewrite <- (list_filter_filter_l
                        (fun g => a <= snd g < a + 60000)
                        (fun g => live now (snd g) = true)).
          - apply length_filter.
          - intros g Hg. unfold live. apply Z.ltb_lt. lia. }
        rewrite E in Hroom. lia.
      * specialize (Hwin a). unfold in_window in Hwin. lia.
    + simpl. rewrite length_app. simpl. rewrite E in Hroom. lia.
  - destruct (throttle_attempt_full rpm now f Hfull) as [-> ->].
    split; [|assumption|assumption].
    intros now' Hle'. apply Hlive. lia.
Qed.

Lemma limiter_run_inv (rpm : Z) (schedule : list (string * Z)) :
  forall (last : Z) (hist : list (string * Z)) (f : state_file),
    limiter_inv rpm last hist f -> monotone_from last schedule ->
    exists last',
      limiter_inv rpm last' (hist ++ snd (limiter_run rpm schedule f))
        (fst (limiter_run rpm schedule f)).
Proof.
  induction schedule as [|[worker_id now] rest IH]; intros last hist f Hinv Hmono.
  - simpl. rewrite app_nil_r. eauto.
  - destruct Hmono as [Hle Hrest]. simpl.
    pose proof (limiter_inv_step rpm last now worker_id hist f Hinv Hle) as Hstep.
    destruct (throttle_attempt rpm now f) as [f1 a]. simpl in Hstep.
    destruct (IH now _ f1 Hstep Hrest) as [last' Hfinal].
    destruct (limiter_run rpm rest f1) as [f2 granted]. simpl in *.
    exists last'. destruct (must_retry a); [exact Hfinal|].
    rewrite <- app_assoc in Hfinal. exact Hfinal.
Qed.

(** C6: with the limit [rpm] that every process derives from the
    configuration, a state file that starts without timestamps, and
    critical sections that the lock puts in an order along which the clock
    does not go back: a pass that finds [rpm] or more live timestamps
    leaves the state file as it is and the caller goes on to its next pass;
    the reservations granted in any window of 60 seconds are at most
    [rpm]; and the live timestamps recorded in the state file are at most
    [rpm] at any time. *)
Theorem rate_limiter_grants_at_most_rpm (cfg : list (string * pyval))
    (rpm start : Z) (schedule : list (string * Z)) (f0 : state_file) :
  rate_limit_rpm cfg = Some rpm ->
  stamps_of f0 = [] ->
  monotone_from start schedule ->
  (forall now later f, rpm <= Z.of_nat (live_count now f) ->
     fst (throttle_attempt rpm now f) = f
     /\ throttle_for_rate_limit rpm (now :: later) f
        = throttle_for_rate_limit rpm later f)
  /\ (forall a,
        Z.of_nat (length (in_window a (snd (limiter_run rpm schedule f0))))
        <= rpm)
  /\ (forall now,
        Z.of_nat (live_count now (fst (limiter_run rpm schedule f0))) <= rpm).
Proof.
  intros Hrpm Hempty Hmono. apply rate_limit_rpm_at_least_1 in Hrpm.
  split.
  { intros now later f Hfull.
    destruct (throttle_attempt_full rpm now f Hfull) as [Hf Hretry].
    split; [exact Hf|]. simpl.
    destruct (throttle_attempt rpm now f) as [f' a]. simpl in *.
    rewrite Hretry, Hf. reflexivity. }
  assert (limiter_inv rpm start [] f0) as Hinit.
  { split.
    - intros now _. rewrite Hempty. reflexivity.
    - intros a. simpl. lia.
    - rewrite Hempty. simpl. lia. }
  destruct (limiter_run_inv rpm schedule start [] f0 Hinit Hmono)
    as [last' [Hlive Hwin Hsize]].
  simpl in *. split; [exact Hwin|].
  intros now.
  assert (live_count now (fst (limiter_run rpm schedule f0))
          <= length (stamps_of (fst (limiter_run rpm schedule f0))))%nat.
  { destruct (fst (limiter_run rpm schedule f0)); simpl; try lia.
    apply length_filter. }
  lia.
Qed.

Lemma rate_limiter_grants_at_most_rpm_witness :
  rate_limit_rpm [("API_RATE_LIMIT_RPM", PyInt 3)] = Some 3
  /\ snd (limiter_run 3 busy_schedule NoFile)
     = [ ("worker-1", 0); ("worker-2", 10); ("worker-3", 20);
         ("worker-2", 60000); ("worker-1", 60010); ("worker-3", 119000) ]
  /\ Z.of_nat (length (in_window 10 (snd (limiter_run 3 busy_schedule NoFile))))
     <= 3.
Proof.
  split; [reflexivity|]. split; [reflexivity|].
  apply (rate_limiter_grants_at_most_rpm [("API_RATE_LIMIT_RPM", PyInt 3)]
           3 0 busy_schedule NoFile).
  - reflexivity.
  - reflexivity.
  - simpl. repeat split; lia.
Defined.

(* ===================================================================== *)
(** * Part III: further properties of the code                            *)
(* ===================================================================== *)

(** ** claim_task: exclusion, dependencies, order *)

(** The row behind the answer of a claim: the first row of the ordered
    pending rows that passes the dependency check. *)
Lemma claim_task_some_row (worker_id : string) (now : Z) (d : db)
    (t : task_dict) :
  snd (claim_task worker_id now d) = Some t ->
  exists r rows,
    filter (fun r => deps_satisfied d r = true) (select_pending d) = r :: rows
    /\ td_task_id t = task_id r /\ td_title t = title r
    /\ td_description t = description r /\ td_priority t = priority r.
Proof.
  unfold claim_task. intros Ht.
  destruct (claim_update_some _ _ _ _ _ Ht)
    as (task & rest & branch & Hready & _ & -> & _ & _).
  unfold get_ready_tasks in Hready.
  destruct (filter _ (select_pending d)) as [|r rows]; [discriminate|].
  simpl in Hready. injection Hready as <- _.
  exists r, rows. repeat split.
Qed.

(** X1: a task that a claim has answered is not answered by any later
    claim made on the table that the first one left, whichever worker
    makes it and whatever snapshot it works from. *)
Theorem claimed_task_is_not_claimed_again (worker_id worker_id' : string)
    (now now' : Z) (ready ready' : list task_dict) (d : db)
    (t t' : task_dict) :
  snd (claim_update worker_id now ready d) = Some t ->
  snd (claim_update worker_id' now' ready'
         (fst (claim_update worker_id now ready d))) = Some t' ->
  td_task_id t' <> td_task_id t.
Proof.
  intros Ht Ht'.
  destruct (claim_update_some _ _ _ _ _ Ht)
    as (task & rest & branch & _ & _ & -> & _ & Hd).
  rewrite Hd in Ht'.
  destruct (claim_update_some _ _ _ _ _ Ht')
    as (task' & rest' & branch' & _ & _ & -> & Hcount & _).
  simpl in *. intros Heq. apply rowcount_pos in Hcount as (r' & Hin & Hw).
  unfold sql_update in Hin. apply list_elem_of_fmap in Hin as (old & -> & _).
  rewrite Heq in Hw. unfold claim_where in Hw.
  destruct (String.eqb (task_id old) (td_task_id task)
            && String.eqb (status old) "pending") eqn:E.
  - simpl in Hw. rewrite andb_false_r in Hw. discriminate.
  - congruence.
Qed.

Lemma claimed_task_is_not_claimed_again_witness :
  let first := claim_task "worker-A" 1 two_pending in
  let second := claim_task "worker-B" 2 (fst first) in
  (td_task_id <$> snd first) = Some "task-00000001"
  /\ (td_task_id <$> snd second) = Some "task-00000002"
  /\ "task-00000002" <> "task-00000001".
Proof.
  intros first second. split; [reflexivity|]. split; [reflexivity|].
  exact (claimed_task_is_not_claimed_again "worker-A" "worker-B" 1 2
           (get_ready_tasks two_pending)
           (get_ready_tasks (fst (claim_task "worker-A" 1 two_pending)))
           two_pending
           {| td_task_id := "task-00000001"; td_title := "first";
              td_description := "work"; td_priority := 1;
              td_branch_name := Some "agent-task-000" |}
           {| td_task_id := "task-00000002"; td_title := "second";
              td_description := "work"; td_priority := 1;
              td_branch_name := Some "agent-task-000" |}
           eq_refl eq_refl).
Defined.

(** X2: the task that [claim_task] answers is a pending row of the table,
    and every row of the table that it lists as a dependency is [done]. *)
Theorem claim_respects_dependencies (worker_id : string) (now : Z) (d : db)
    (t : task_dict) :
  snd (claim_task worker_id now d) = Some t ->
  exists r, r ∈ tasks d /\ task_id r = td_task_id t /\ status r = "pending"
            /\ forall r', r' ∈ tasks d -> task_id r' ∈ depends_on r ->
                          status r' = "done".
Proof.
  intros Ht.
  destruct (claim_task_some_row _ _ _ _ Ht) as (r & rows & Hf & Hid & _).
  assert (r ∈ filter (fun r => deps_satisfied d r = true) (select_pending d))
    as Hr by (rewrite Hf; apply list_elem_of_here).
  apply list_elem_of_filter in Hr as [Hdeps Hr].
  apply elem_of_select_pending in Hr as [Hin Hp].
  exists r. split; [exact Hin|]. split; [auto|].
  split; [apply String.eqb_eq; exact Hp|].
  intros r' Hr' Hdep. unfold deps_satisfied in Hdeps.
  destruct (depends_on r) as [|dep deps] eqn:E.
  - apply elem_of_nil in Hdep. contradiction.
  - apply Nat.eqb_eq in Hdeps. unfold pending_deps in Hdeps.
    apply rowcount_zero in Hdeps. rewrite Forall_forall in Hdeps.
    specialize (Hdeps r' Hr').
    apply in_ids_elem_of in Hdep. rewrite Hdep in Hdeps. simpl in Hdeps.
    apply negb_false_iff in Hdeps. apply String.eqb_eq. exact Hdeps.
Qed.

Lemma claim_respects_dependencies_witness :
  (td_task_id <$> snd (claim_task "worker-A" 5 gated_db)) = Some "task-000000d2"
  /\ exists r, r ∈ tasks gated_db /\ task_id r = "task-000000d2"
               /\ status r = "pending"
               /\ forall r', r' ∈ tasks gated_db ->
                             task_id r' ∈ depends_on r -> status r' = "done".
Proof.
  split; [reflexivity|].
  exact (claim_respects_dependencies "worker-A" 5 gated_db
           {| td_task_id := "task-000000d2"; td_title := "middle";
              td_description := "work"; td_priority := 5;
              td_branch_name := Some "agent-task-000" |} eq_refl).
Defined.

(** The order of [ORDER BY priority ASC, created_at ASC] as a relation. *)
Lemma order_le_spec (a b : task_row) :
  order_le a b = true <->
  priority a < priority b
  \/ (priority a = priority b /\ created_at a <= created_at b).
Proof.
  unfold order_le. rewrite orb_true_iff, andb_true_iff.
  rewrite Z.ltb_lt, Z.eqb_eq, Z.leb_le. reflexivity.
Qed.

Lemma order_le_total (a b : task_row) :
  order_le a b = false -> order_le b a = true.
Proof.
  intros H. apply order_le_spec.
  assert (~ (priority a < priority b
             \/ (priority a = priority b /\ created_at a <= created_at b)))
    as Hn.
  { intros Hc. apply order_le_spec in Hc. congruence. }
  lia.
Qed.

Lemma order_le_trans (a b c : task_row) :
  order_le a b = true -> order_le b c = true -> order_le a c = true.
Proof. rewrite !order_le_spec. lia. Qed.

Lemma order_insert_sorted (r : task_row) (l : list task_row) :
  StronglySorted (fun a b => order_le a b = true) l ->
  StronglySorted (fun a b => order_le a b = true) (order_insert r l).
Proof.
  induction l as [|x l IH]; intros Hl; simpl.
  - repeat constructor.
  - apply StronglySorted_inv in Hl as [Hl Hx].
    destruct (order_le r x) eqn:E.
    + constructor; [constructor; assumption|].
      constructor; [exact E|].
      eapply Forall_impl; [exact Hx|]. intros y Hy.
      eapply order_le_trans; eassumption.
    + constructor; [apply IH; assumption|].
      apply Forall_forall. intros y Hy.
      apply elem_of_order_insert in Hy as [->|Hy].
      * apply order_le_total. exact E.
      * rewrite Forall_forall in Hx. apply Hx. exact Hy.
Qed.

Lemma order_by_sorted (l : list task_row) :
  StronglySorted (fun a b => order_le a b = true)
    (order_by_priority_created l).
Proof.
  unfold order_by_priority_created. induction l as [|x l IH]; simpl.
  - constructor.
  - apply order_insert_sorted. exact IH.
Qed.

Lemma filter_sorted (P : task_row -> Prop) `{!forall r, Decision (P r)}
    (l : list task_row) :
  StronglySorted (fun a b => order_le a b = true) l ->
  StronglySorted (fun a b => order_le a b = true) (filter P l).
Proof.
  induction l as [|x l IH]; intros Hl; [constructor|].
  apply StronglySorted_inv in Hl as [Hl Hx].
  rewrite filter_cons. destruct (decide (P x)); [|auto].
  constructor; [auto|].
  apply Forall_forall. intros y Hy. apply list_elem_of_filter in Hy as [_ Hy].
  rewrite Forall_forall in Hx. apply Hx. exact Hy.
Qed.

(** X3: [claim_task] answers a ready task that no other ready task
    precedes: no pending row that passes the dependency check has a lower
    priority number, or the same priority and an earlier [created_at]. *)
Theorem claim_takes_first_in_priority_order (worker_id : string) (now : Z)
    (d : db) (t : task_dict) :
  snd (claim_task worker_id now d) = Some t ->
  exists r, r ∈ tasks d /\ task_id r = td_task_id t
            /\ priority r = td_priority t
            /\ forall r', r' ∈ tasks d -> is_pending r' = true ->
                          deps_satisfied d r' = true ->
                          priority r < priority r'
                          \/ (priority r = priority r'
                              /\ created_at r <= created_at r').
Proof.
  intros Ht.
  destruct (claim_task_some_row _ _ _ _ Ht) as (r & rows & Hf & Hid & _ & _ & Hp).
  pose proof (filter_sorted (fun r => deps_satisfied d r = true)
                (select_pending d) (order_by_sorted _)) as Hs.
  rewrite Hf in Hs. apply StronglySorted_inv in Hs as [_ Hhead].
  assert (r ∈ r :: rows) as Hr by apply list_elem_of_here.
  rewrite <- Hf in Hr. apply list_elem_of_filter in Hr as [_ Hr].
  apply elem_of_select_pending in Hr as [Hin _].
  exists r. repeat split; auto.
  intros r' Hr' Hpend Hdeps.
  assert (r' ∈ r :: rows) as Hmem.
  { rewrite <- Hf. apply list_elem_of_filter. split; [exact Hdeps|].
    apply elem_of_select_pending. auto. }
  apply elem_of_cons in Hmem as [->|Hmem].
  - lia.
  - rewrite Forall_forall in Hhead. apply order_le_spec. apply Hhead.
    exact Hmem.
Qed.

Lemma claim_takes_first_in_priority_order_witness :
  (td_task_id <$> snd (claim_task "worker-A" 5 gated_db)) = Some "task-000000d2"
  /\ exists r, r ∈ tasks gated_db /\ task_id r = "task-000000d2"
               /\ priority r = 5
               /\ forall r', r' ∈ tasks gated_db -> is_pending r' = true ->
                             deps_satisfied gated_db r' = true ->
                             priority r < priority r'
                             \/ (priority r = priority r'
                                 /\ created_at r <= created_at r').
Proof.
  split; [reflexivity|].
  exact (claim_takes_first_in_priority_order "worker-A" 5 gated_db
           {| td_task_id := "task-000000d2"; td_title := "middle";
              td_description := "work"; td_priority := 5;
              td_branch_name := Some "agent-task-000" |} eq_refl).
Defined.

(** ** Invariants of the table under the queue operations *)

Lemma evolves_refl (r : task_row) : evolves r r.
Proof. unfold evolves. repeat split. lia. Qed.

Lemma evolves_trans (a b c : task_row) :
  evolves a b -> evolves b c -> evolves a c.
Proof.
  unfold evolves. intros (?&?&?&?&?&?&?) (?&?&?&?&?&?&?).
  repeat split; try congruence. lia.
Qed.

Lemma sql_update_task_ids (cond : task_row -> bool) (set : task_row -> task_row)
    (rows : list task_row) :
  (forall r, task_id (set r) = task_id r) ->
  map task_id (sql_update cond set rows) = map task_id rows.
Proof.
  intros Hset. unfold sql_update. rewrite map_map. apply map_ext.
  intros r. destruct (cond r); [apply Hset|reflexivity].
Qed.

Lemma sql_update_evolves (cond : task_row -> bool) (set : task_row -> task_row)
    (rows : list task_row) :
  (forall r, evolves r (set r)) ->
  Forall2 evolves rows (sql_update cond set rows).
Proof.
  intros Hset. eapply Forall2_impl; [apply sql_update_Forall2|].
  intros a b ->. destruct (cond a); [apply Hset|apply evolves_refl].
Qed.

Lemma has_task_id_false (tid : string) (rows : list task_row) :
  has_task_id tid rows = false -> tid ∉ map task_id rows.
Proof.
  intros H Hin. apply list_elem_of_fmap in Hin as (r & -> & Hr).
  assert (has_task_id (task_id r) rows = true) as Ht.
  { apply has_task_id_elem_of. eauto. }
  congruence.
Qed.

Lemma NoDup_snoc_fresh (tid : string) (r : task_row) (rows : list task_row) :
  task_id r = tid -> has_task_id tid rows = false ->
  NoDup (map task_id rows) -> NoDup (map task_id (rows ++ [r])).
Proof.
  intros Hid Hfresh Hnd. rewrite map_app. apply NoDup_app.
  split; [exact Hnd|]. split.
  - intros x Hx Hx'. simpl in Hx'. apply list_elem_of_singleton in Hx'.
    subst x. rewrite Hid in Hx. apply (has_task_id_false _ _ Hfresh Hx).
  - simpl. apply NoDup_singleton.
Qed.

Lemma grows_refl (rows : list task_row) : grows rows rows.
Proof.
  exists rows, []. rewrite app_nil_r. split; [reflexivity|].
  apply Forall_Forall2_diag. apply Forall_forall. intros r _.
  apply evolves_refl.
Qed.

Lemma grows_snoc (rows : list task_row) (r : task_row) :
  grows rows (rows ++ [r]).
Proof.
  exists rows, [r]. split; [reflexivity|].
  apply Forall_Forall2_diag. apply Forall_forall. intros r' _.
  apply evolves_refl.
Qed.

Lemma grows_update (rows rows' : list task_row) :
  Forall2 evolves rows rows' -> grows rows rows'.
Proof. intros H. exists rows', []. rewrite app_nil_r. auto. Qed.

Lemma grows_trans (a b c : list task_row) :
  grows a b -> grows b c -> grows a c.
Proof.
  intros (l1 & l2 & -> & H1) (m1 & m2 & -> & H2).
  apply Forall2_app_inv_l in H2 as (k1 & k2 & Hk1 & Hk2 & ->).
  exists k1, (k2 ++ m2). rewrite app_assoc. split; [reflexivity|].
  clear Hk2. revert k1 Hk1. induction H1 as [|x y a l1 Hxy _ IH]; intros k1 Hk1.
  - inversion Hk1. constructor.
  - inversion Hk1 as [|? z ? k1' Hyz Hk1']; subst. constructor.
    + eapply evolves_trans; eassumption.
    + apply IH. assumption.
Qed.

Lemma add_tasks_batch_loop_inv (uuid4_hex : nat -> string) (now : Z)
    (items : list batch_task) (draws : nat) (rows : list task_row) :
  grows rows (fst (add_tasks_batch_loop uuid4_hex now items draws rows))
  /\ (NoDup (map task_id rows) ->
      NoDup (map task_id
               (fst (add_tasks_batch_loop uuid4_hex now items draws rows)))).
Proof.
  revert draws rows. induction items as [|t items IH]; intros draws rows; simpl.
  - split; [apply grows_refl|auto].
  - destruct (batch_task_id uuid4_hex draws t) as [tid draws'].
    destruct (has_task_id tid rows) eqn:E; [apply IH|].
    destruct (IH draws' (rows ++ [new_row tid (default "" (bt_title t))
                                    (default "" (bt_description t))
                                    (default 5 (bt_priority t))
                                    (default [] (bt_depends_on t)) now]))
      as [Hg Hnd].
    split.
    + eapply grows_trans; [apply grows_snoc|exact Hg].
    + intros H. apply Hnd. eapply NoDup_snoc_fresh; eauto.
Qed.

Lemma apply_call_inv (now : Z) (c : queue_call) (d : db) :
  grows (tasks d) (tasks (apply_call now c d))
  /\ (NoDup (map task_id (tasks d)) ->
      NoDup (map task_id (tasks (apply_call now c d)))).
Proof.
  destruct c as [ttl desc prio deps uuid_hex|items uuid4_hex|worker_id ready
                |tid res st|tid err|tid err|]; simpl.
  - unfold add_task.
    destruct (has_task_id _ (tasks d)) eqn:E; simpl.
    + split; [apply grows_refl|auto].
    + split; [apply grows_snoc|]. intros H.
      eapply NoDup_snoc_fresh; eauto.
  - unfold add_tasks_batch.
    pose proof (add_tasks_batch_loop_inv uuid4_hex now items 0 (tasks d)) as H.
    destruct (add_tasks_batch_loop uuid4_hex now items 0 (tasks d)). exact H.
  - unfold claim_update. destruct ready as [|task rest]; simpl.
    + split; [apply grows_refl|auto].
    + destruct (Nat.eqb _ 0); simpl.
      * split; [apply grows_refl|auto].
      * split.
        -- apply grows_update, sql_update_evolves. intros r.
           unfold evolves. simpl. repeat split. lia.
        -- rewrite sql_update_task_ids; auto.
  - split.
    + apply grows_update, sql_update_evolves. intros r.
      unfold evolves. simpl. repeat split. lia.
    + rewrite sql_update_task_ids; auto.
  - split.
    + apply grows_update, sql_update_evolves. intros r.
      unfold evolves. simpl. repeat split. lia.
    + rewrite sql_update_task_ids; auto.
  - split.
    + apply grows_update, sql_update_evolves. intros r.
      unfold evolves. simpl. repeat split. lia.
    + rewrite sql_update_task_ids; auto.
  - split.
    + apply grows_update, sql_update_evolves. intros r.
      unfold evolves. simpl. repeat split. lia.
    + rewrite sql_update_task_ids; auto.
Qed.

Lemma run_calls_inv (calls : list (Z * queue_call)) (d : db) :
  grows (tasks d) (tasks (run_calls calls d))
  /\ (NoDup (map task_id (tasks d)) ->
      NoDup (map task_id (tasks (run_calls calls d)))).
Proof.
  unfold run_calls. revert d. induction calls as [|[now c] calls IH];
    intros d; simpl.
  - split; [apply grows_refl|auto].
  - destruct (apply_call_inv now c d) as [Hg Hnd].
    destruct (IH (apply_call now c d)) as [Hg' Hnd'].
    split; [eapply grows_trans; eassumption|auto].
Qed.

(** X4: the task identifiers of the table stay pairwise distinct under
    every sequence of calls of [add_task], [add_tasks_batch], [claim_task],
    [complete_task], [fail_task], [mark_fix_needed] and the [/stop]
    update. *)
Theorem task_ids_stay_unique (calls : list (Z * queue_call)) (d : db) :
  NoDup (map task_id (tasks d)) ->
  NoDup (map task_id (tasks (run_calls calls d))).
Proof. intros H. destruct (run_calls_inv calls d) as [_ Hnd]. auto. Qed.

Lemma task_ids_stay_unique_witness :
  NoDup (map task_id (tasks (run_calls retry_history empty_db))).
Proof. apply task_ids_stay_unique. simpl. apply NoDup_nil_2. Defined.

(** X5: under every such sequence of calls no row of [tasks] is deleted or
    moved, its identifier, title, description, priority, dependencies and
    creation time stay what they were, and its [retries] never goes
    down. *)
Theorem rows_persist_and_retries_never_decrease
    (calls : list (Z * queue_call)) (d : db) (i : nat) (r : task_row) :
  tasks d !! i = Some r ->
  exists r', tasks (run_calls calls d) !! i = Some r'
             /\ task_id r' = task_id r /\ title r' = title r
             /\ description r' = description r /\ priority r' = priority r
             /\ depends_on r' = depends_on r /\ created_at r' = created_at r
             /\ retries r <= retries r'.
Proof.
  intros Hi. destruct (run_calls_inv calls d) as [(l1 & l2 & -> & Hev) _].
  destruct (Forall2_lookup_l _ _ _ _ _ Hev Hi) as (r' & Hr' & He).
  exists r'. split; [apply lookup_app_l_Some; exact Hr'|exact He].
Qed.

Lemma rows_persist_and_retries_never_decrease_witness :
  let d := run_calls (take 2 retry_history) empty_db in
  exists r r', tasks d !! 0%nat = Some r
               /\ tasks (run_calls (drop 2 retry_history) d) !! 0%nat = Some r'
               /\ status r = "running" /\ status r' = "done"
               /\ retries r = 0 /\ retries r' = 1
               /\ task_id r' = task_id r.
Proof.
  intros d.
  destruct (rows_persist_and_retries_never_decrease (drop 2 retry_history) d
              0%nat _ eq_refl) as (r' & Hr' & Hid & _).
  eexists. exists r'. split; [reflexivity|]. split; [exact Hr'|].
  vm_compute in Hr'. injection Hr' as <-. repeat split.
Defined.

(** ** add_tasks_batch *)

Lemma has_task_id_app (tid : string) (l1 l2 : list task_row) :
  has_task_id tid (l1 ++ l2) = has_task_id tid l1 || has_task_id tid l2.
Proof. unfold has_task_id. apply existsb_app. Qed.

Lemma batch_task_id_explicit (uuid4_hex : nat -> string) (draws : nat)
    (t : batch_task) :
  has_explicit_id t = true ->
  exists tid, bt_task_id t = Some tid
              /\ batch_task_id uuid4_hex draws t = (tid, draws).
Proof.
  unfold has_explicit_id, batch_task_id.
  destruct (bt_task_id t) as [tid|]; [|discriminate].
  intros H. apply negb_true_iff in H. rewrite H. eauto.
Qed.

(** The loop only appends: what it returns starts with the rows it was
    given, and keeps every identifier it has seen. *)
Lemma add_tasks_batch_loop_appends (uuid4_hex : nat -> string) (now : Z)
    (items : list batch_task) (draws : nat) (rows : list task_row) :
  exists added,
    fst (add_tasks_batch_loop uuid4_hex now items draws rows) = rows ++ added
    /\ Forall (fun r => status r = "pending" /\ retries r = 0
                        /\ assigned_worker r = None /\ created_at r = now)
         added.
Proof.
  revert draws rows. induction items as [|t items IH]; intros draws rows; simpl.
  - exists []. rewrite app_nil_r. auto.
  - destruct (batch_task_id uuid4_hex draws t) as [tid draws'].
    destruct (has_task_id tid rows); [apply IH|].
    destruct (IH draws' (rows ++ [new_row tid (default "" (bt_title t))
                                    (default "" (bt_description t))
                                    (default 5 (bt_priority t))
                                    (default [] (bt_depends_on t)) now]))
      as (added & -> & Hadded).
    eexists. rewrite <- app_assoc. split; [reflexivity|].
    simpl. constructor; [repeat split|exact Hadded].
Qed.

Lemma add_tasks_batch_loop_known (uuid4_hex : nat -> string) (now : Z)
    (items : list batch_task) (draws : nat) (rows : list task_row) :
  forallb has_explicit_id items = true ->
  (forall t tid, t ∈ items -> bt_task_id t = Some tid ->
                 has_task_id tid rows = true) ->
  add_tasks_batch_loop uuid4_hex now items draws rows = (rows, draws).
Proof.
  revert draws. induction items as [|t items IH]; intros draws Hex Hknown;
    simpl; [reflexivity|].
  simpl in Hex. apply andb_prop in Hex as [Ht Hex].
  destruct (batch_task_id_explicit uuid4_hex draws t Ht) as (tid & Hid & ->).
  rewrite (Hknown t tid (list_elem_of_here _ _) Hid).
  apply IH; [exact Hex|]. intros t' tid' Hin. apply Hknown.
  apply list_elem_of_further. exact Hin.
Qed.

Lemma add_tasks_batch_loop_records (uuid4_hex : nat -> string) (now : Z)
    (items : list batch_task) (draws : nat) (rows : list task_row)
    (t : batch_task) (tid : string) :
  forallb has_explicit_id items = true ->
  t ∈ items -> bt_task_id t = Some tid ->
  has_task_id tid (fst (add_tasks_batch_loop uuid4_hex now items draws rows))
  = true.
Proof.
  revert draws rows. induction items as [|t0 items IH];
    intros draws rows Hex Hin Hid; [apply elem_of_nil in Hin; contradiction|].
  simpl in Hex. apply andb_prop in Hex as [Ht0 Hex]. simpl.
  destruct (batch_task_id_explicit uuid4_hex draws t0 Ht0) as (tid0 & Hid0 & ->).
  apply elem_of_cons in Hin as [->|Hin].
  - assert (tid0 = tid) as -> by congruence.
    match goal with
    | |- context [add_tasks_batch_loop _ _ _ _ ?rows'] =>
        destruct (add_tasks_batch_loop_appends uuid4_hex now items draws rows')
          as (added & -> & _);
        assert (has_task_id tid rows' = true) as Hk
    end.
    { destruct (has_task_id tid rows) eqn:E; [exact E|].
      rewrite has_task_id_app. simpl. rewrite String.eqb_refl.
      apply orb_true_r. }
    rewrite has_task_id_app, Hk. reflexivity.
  - apply IH; assumption.
Qed.

(** X6: [add_tasks_batch] never touches a row that is already in the
    table, and ignores an element whose identifier is already there: when
    every element of a batch brings its own identifier, submitting the
    batch a second time changes nothing. *)
Theorem add_tasks_batch_ignores_known_ids (uuid4_hex uuid4_hex' : nat -> string)
    (now now' : Z) (items : list batch_task) (draws draws' : nat) (d : db) :
  forallb has_explicit_id items = true ->
  tasks d `prefix_of` tasks (fst (add_tasks_batch uuid4_hex now items draws d))
  /\ fst (add_tasks_batch uuid4_hex' now' items draws'
            (fst (add_tasks_batch uuid4_hex now items draws d)))
     = fst (add_tasks_batch uuid4_hex now items draws d).
Proof.
  intros Hex. unfold add_tasks_batch.
  destruct (add_tasks_batch_loop_appends uuid4_hex now items draws (tasks d))
    as (added & Hrows & _).
  pose proof (fun t tid => add_tasks_batch_loop_records uuid4_hex now items
                             draws (tasks d) t tid Hex) as Hrec.
  destruct (add_tasks_batch_loop uuid4_hex now items draws (tasks d))
    as [rows k]. simpl in *. subst rows. split.
  - apply prefix_app_r. reflexivity.
  - rewrite (add_tasks_batch_loop_known uuid4_hex' now' items draws'
               (tasks d ++ added) Hex Hrec). reflexivity.
Qed.

Lemma add_tasks_batch_ignores_known_ids_witness :
  let d1 := fst (add_tasks_batch (fun _ => "") 0 planned_batch 0 empty_db) in
  map task_id (tasks d1) = ["task-001"; "task-002"]
  /\ map title (tasks d1) = ["layout"; "logic"]
  /\ map priority (tasks d1) = [1; 5]
  /\ fst (add_tasks_batch (fun _ => "") 9 planned_batch 0 d1) = d1.
Proof.
  intros d1. do 3 (split; [reflexivity|]).
  exact (proj2 (add_tasks_batch_ignores_known_ids (fun _ => "") (fun _ => "")
                  0 9 planned_batch 0 0 empty_db eq_refl)).
Defined.

(** ** get_stats *)

Lemma rowcount_cons (cond : task_row -> bool) (r : task_row)
    (rows : list task_row) :
  rowcount cond (r :: rows)
  = ((if cond r then 1 else 0) + rowcount cond rows)%nat.
Proof.
  unfold rowcount. rewrite filter_cons.
  destruct (cond r); [rewrite decide_True by reflexivity
                     |rewrite decide_False by discriminate]; reflexivity.
Qed.

(** Case analysis on the status of a row against the statuses that the
    code names. *)
Ltac case_status r :=
  let E := fresh "E" in
  destruct (String.eqb_spec (status r) "pending") as [E|?];
  [try rewrite E
  |destruct (String.eqb_spec (status r) "running") as [E|?];
   [try rewrite E
   |destruct (String.eqb_spec (status r) "done") as [E|?];
    [try rewrite E
    |destruct (String.eqb_spec (status r) "failed") as [E|?];
     [try rewrite E
     |destruct (String.eqb_spec (status r) "fix_needed") as [E|?];
      [try rewrite E|]]]]].

(** X7: the five counters of [get_stats] and the rows in a status that has
    no counter (such as [replaced]) add up to [total]. *)
Theorem get_stats_partitions_total (d : db) :
  (stats_pending (get_stats d) + stats_running (get_stats d)
   + stats_done (get_stats d) + stats_failed (get_stats d)
   + stats_fix_needed (get_stats d)
   + rowcount uncounted_status (tasks d))%nat
  = stats_total (get_stats d).
Proof.
  unfold get_stats, count_status. simpl.
  induction (tasks d) as [|r rows IH]; [reflexivity|].
  rewrite !rowcount_cons. simpl length. unfold uncounted_status at 1.
  cbn [existsb]. cbv beta.
  case_status r; simpl; lia.
Qed.

Lemma claim_where_at_most_one (tid : string) (rows : list task_row) :
  NoDup (map task_id rows) -> (rowcount (claim_where tid) rows <= 1)%nat.
Proof.
  induction rows as [|r rows IH]; intros Hnd; [unfold rowcount; simpl; lia|].
  simpl in Hnd. apply NoDup_cons in Hnd as [Hr Hnd].
  rewrite rowcount_cons. specialize (IH Hnd).
  destruct (claim_where tid r) eqn:E; [|lia].
  unfold claim_where in E. apply andb_prop in E as [E _].
  apply String.eqb_eq in E.
  assert (rowcount (claim_where tid) rows = 0%nat) as ->; [|lia].
  apply rowcount_zero. apply Forall_forall. intros r' Hr'.
  unfold claim_where. destruct (String.eqb_spec (task_id r') tid) as [E'|];
    [|reflexivity].
  exfalso. apply Hr. rewrite E, <- E'. apply list_elem_of_fmap. eauto.
Qed.

(** The counters after the update of a claim, by the number of rows it
    affects. *)
Lemma claim_update_counts (tid worker_id branch : string) (now : Z)
    (rows : list task_row) :
  let rows' := sql_update (claim_where tid) (claim_set worker_id branch now)
                 rows in
  let k := rowcount (claim_where tid) rows in
  (count_status "pending" rows' + k)%nat = count_status "pending" rows
  /\ count_status "running" rows' = (count_status "running" rows + k)%nat
  /\ count_status "done" rows' = count_status "done" rows
  /\ count_status "failed" rows' = count_status "failed" rows
  /\ count_status "fix_needed" rows' = count_status "fix_needed" rows
  /\ length rows' = length rows.
Proof.
  unfold count_status. induction rows as [|r rows IH]; simpl;
    [repeat split|].
  destruct IH as (I1 & I2 & I3 & I4 & I5 & I6). rewrite !rowcount_cons.
  cbv beta. destruct (claim_where tid r) eqn:E.
  - unfold claim_where in E. apply andb_prop in E as [_ E].
    apply String.eqb_eq in E. rewrite E. simpl. repeat split; lia.
  - case_status r; simpl; repeat split; lia.
Qed.

(** X8: with distinct task identifiers, a claim that answers a task moves
    exactly one task from [pending] to [running] in the statistics and
    leaves the other counters as they were. *)
Theorem claim_moves_one_task_to_running (worker_id : string) (now : Z)
    (ready : list task_dict) (d : db) (t : task_dict) :
  NoDup (map task_id (tasks d)) ->
  snd (claim_update worker_id now ready d) = Some t ->
  let s := get_stats d in
  let s' := get_stats (fst (claim_update worker_id now ready d)) in
  stats_pending s = S (stats_pending s')
  /\ stats_running s' = S (stats_running s)
  /\ stats_done s' = stats_done s /\ stats_failed s' = stats_failed s
  /\ stats_fix_needed s' = stats_fix_needed s
  /\ stats_total s' = stats_total s.
Proof.
  intros Hnd Ht.
  destruct (claim_update_some _ _ _ _ _ Ht)
    as (task & rest & branch & _ & _ & _ & Hcount & ->).
  pose proof (claim_where_at_most_one (td_task_id task) (tasks d) Hnd) as Hle.
  destruct (claim_update_counts (td_task_id task) worker_id branch now (tasks d))
    as (H1 & H2 & H3 & H4 & H5 & H6).
  unfold get_stats. simpl. repeat split; lia.
Qed.

Lemma claim_moves_one_task_to_running_witness :
  let s := get_stats gated_db in
  let s' := get_stats (fst (claim_task "worker-A" 5 gated_db)) in
  stats_pending s = 3%nat /\ stats_running s = 0%nat
  /\ stats_pending s = S (stats_pending s')
  /\ stats_running s' = S (stats_running s).
Proof.
  intros s s'. do 2 (split; [reflexivity|]).
  destruct (claim_moves_one_task_to_running "worker-A" 5
              (get_ready_tasks gated_db) gated_db
              {| td_task_id := "task-000000d2"; td_title := "middle";
                 td_description := "work"; td_priority := 5;
                 td_branch_name := Some "agent-task-000" |})
    as (H1 & H2 & _).
  - refine (@bool_decide_unpack _ (NoDup_dec _) _). vm_compute. exact I.
  - reflexivity.
  - split; [exact H1|exact H2].
Defined.

(** ** The [/stop] route *)

(** X9: after the update of [/stop] no task is [pending] or [running], so
    the supervisor's loop condition [pending == 0 and running == 0] holds;
    the tasks that were are counted as [failed], and the other counters and
    the total are as before. *)
Theorem stop_swarm_fails_open_tasks (d : db) :
  let s := get_stats d in
  let s' := get_stats (stop_swarm d) in
  stats_pending s' = 0%nat /\ stats_running s' = 0%nat
  /\ stats_failed s' = (stats_failed s + stats_pending s + stats_running s)%nat
  /\ stats_done s' = stats_done s
  /\ stats_fix_needed s' = stats_fix_needed s
  /\ stats_total s' = stats_total s.
Proof.
  unfold get_stats, stop_swarm, count_status. simpl.
  induction (tasks d) as [|r rows IH]; simpl; [repeat split|].
  destruct IH as (I1 & I2 & I3 & I4 & I5 & I6). rewrite !rowcount_cons.
  rewrite I1, I2, I3, I4, I5, I6.
  cbv beta. case_status r; simpl;
    repeat match goal with
           | H : status r = _ |- _ => rewrite ?H; clear H
           | H : status r <> _ |- _ =>
               rewrite ?(proj2 (String.eqb_neq _ _) H); clear H
           end; simpl; repeat split; lia.
Qed.

(** ** The worker loop *)

(** The table after a pass that claimed a task: the claim, then the
    update that belongs to the outcome. *)
Lemma run_iteration_some (worker_id : string) (t_start t_end : Z)
    (work : task_dict -> task_outcome) (d d' : db) (t : task_dict) :
  run_iteration worker_id t_start t_end work d = Some (t, d') ->
  exists task rest branch (d1 : db),
    get_ready_tasks d = task :: rest
    /\ td_task_id t = td_task_id task
    /\ rowcount (claim_where (td_task_id t)) (tasks d) <> 0%nat
    /\ tasks d1 = sql_update (claim_where (td_task_id t))
                    (claim_set worker_id branch t_start) (tasks d)
    /\ tasks d'
       = tasks match work t with
               | Merged _ dumps =>
                   complete_task (td_task_id t) dumps "done" t_end d1
               | MergeConflict =>
                   mark_fix_needed (td_task_id t) "Merge conflict" t_end d1
               | Failed message =>
                   fail_task (td_task_id t) (String.substring 0 500 message) d1
               end.
Proof.
  unfold run_iteration.
  destruct (claim_task worker_id t_start d) as [d1 [task|]] eqn:Hc;
    [|discriminate].
  assert (snd (claim_task worker_id t_start d) = Some task) as Hs
    by (rewrite Hc; reflexivity).
  unfold claim_task in Hs.
  destruct (claim_update_some _ _ _ _ _ Hs)
    as (task0 & rest & branch & Hready & _ & Htask & Hcount & Hd1).
  unfold claim_task in Hc. rewrite Hc in Hd1. simpl in Hd1.
  assert (td_task_id task = td_task_id task0) as Hid by (subst task; reflexivity).
  unfold execute_task.
  destruct (work task) as [summary dumps| |message] eqn:Hw; simpl;
    intros H; injection H as <- <-; rewrite Hw;
    exists task0, rest, branch, d1; rewrite Hid, Hd1; repeat split; auto.
Qed.

(** X10: one pass of the worker loop never leaves its task [running]: the
    rows of the claimed task end as [done] with the result stored, as
    [fix_needed] after a merge conflict, or back in [pending] with
    [retries] one higher after an exception; rows of other tasks are not
    touched. *)
Theorem run_iteration_settles_the_claimed_task (worker_id : string)
    (t_start t_end : Z) (work : task_dict -> task_outcome) (d d' : db)
    (t : task_dict) :
  run_iteration worker_id t_start t_end work d = Some (t, d') ->
  Forall2 (after_iteration (td_task_id t) (work t)) (tasks d) (tasks d').
Proof.
  intros H.
  destruct (run_iteration_some _ _ _ _ _ _ _ H)
    as (task & rest & branch & d1 & _ & _ & _ & Hd1 & ->).
  destruct (work t) as [summary dumps| |message]; simpl; rewrite Hd1;
    unfold sql_update; rewrite map_map;
    apply Forall2_fmap_r, Forall_Forall2_diag, Forall_forall; intros r Hr;
    unfold after_iteration, claim_where; cbn;
    destruct (String.eqb (task_id r) (td_task_id t)) eqn:E; cbn;
    destruct (String.eqb (status r) "pending"); cbn; rewrite ?E; cbn;
    try reflexivity;
    unfold evolves; cbn; repeat split; lia.
Qed.

Lemma run_iteration_settles_the_claimed_task_witness :
  exists t d',
    run_iteration "worker-A" 5 6 (steady_work 0) gated_db = Some (t, d')
    /\ td_task_id t = "task-000000d2"
    /\ Forall2 (after_iteration (td_task_id t) (steady_work 0 t))
         (tasks gated_db) (tasks d').
Proof.
  destruct (run_iteration "worker-A" 5 6 (steady_work 0) gated_db)
    as [[t d']|] eqn:E.
  - exists t, d'. split; [reflexivity|]. split.
    + vm_compute in E. injection E as <- _. reflexivity.
    + exact (run_iteration_settles_the_claimed_task "worker-A" 5 6
               (steady_work 0) gated_db d' t E).
  - vm_compute in E. discriminate E.
Defined.

Lemma run_iteration_none (worker_id : string) (t_start t_end : Z)
    (work : task_dict -> task_outcome) (d : db) :
  run_iteration worker_id t_start t_end work d = None <->
  get_ready_tasks d = [].
Proof.
  rewrite <- (claim_task_none_iff worker_id t_start d). unfold run_iteration.
  destruct (claim_task worker_id t_start d) as [d1 [task|]]; simpl.
  - destruct (execute_task _ _ _ _ _ _). split; discriminate.
  - tauto.
Qed.

Lemma count_pending_update_le (cond : task_row -> bool)
    (set : task_row -> task_row) (rows : list task_row) :
  (forall r, String.eqb (status (set r)) "pending" = false) ->
  (count_status "pending" (sql_update cond set rows)
   <= count_status "pending" rows)%nat.
Proof.
  intros Hset. unfold count_status.
  induction rows as [|r rows IH]; simpl; [lia|].
  rewrite !rowcount_cons. cbv beta. destruct (cond r).
  - rewrite Hset. destruct (String.eqb (status r) "pending"); lia.
  - destruct (String.eqb (status r) "pending"); lia.
Qed.

(** A pass whose task does not raise takes at least one row out of
    [pending]. *)
Lemma run_iteration_fewer_pending (worker_id : string) (t_start t_end : Z)
    (work : task_dict -> task_outcome) (d d' : db) (t : task_dict) :
  run_iteration worker_id t_start t_end work d = Some (t, d') ->
  (forall message, work t <> Failed message) ->
  (count_status "pending" (tasks d') < count_status "pending" (tasks d))%nat.
Proof.
  unfold run_iteration.
  destruct (claim_task worker_id t_start d) as [d1 [task|]] eqn:Hc;
    [|discriminate].
  assert (snd (claim_task worker_id t_start d) = Some task) as Hs
    by (rewrite Hc; reflexivity).
  unfold claim_task in Hs.
  destruct (claim_update_some _ _ _ _ _ Hs)
    as (task0 & rest & branch & _ & _ & _ & Hcount & Hd1).
  unfold claim_task in Hc. rewrite Hc in Hd1. simpl in Hd1. subst d1.
  destruct (claim_update_counts (td_task_id task0) worker_id branch t_start
              (tasks d)) as (Hp & _).
  unfold execute_task. destruct (work task) as [summary dumps| |message] eqn:Hw;
    simpl; intros H; injection H as <- <-; intros Hnf.
  - eapply Nat.le_lt_trans; [apply count_pending_update_le; reflexivity|].
    simpl. lia.
  - eapply Nat.le_lt_trans; [apply count_pending_update_le; reflexivity|].
    simpl. lia.
  - exfalso. exact (Hnf message Hw).
Qed.

(** X11: a worker whose tasks never raise leaves the loop: with more
    passes allowed than there are pending tasks, [run] ends, and it ends
    only when no task is ready. *)
Theorem run_ends_when_no_task_raises (fuel : nat) (worker_id : string)
    (clock : nat -> Z) (work : nat -> task_dict -> task_outcome) (iter : nat)
    (d : db) :
  (forall i t message, work i t <> Failed message) ->
  (count_status "pending" (tasks d) < fuel)%nat ->
  snd (run fuel worker_id clock work iter d) = true
  /\ get_ready_tasks (fst (run fuel worker_id clock work iter d)) = [].
Proof.
  intros Hwork. revert iter d.
  induction fuel as [|fuel IH]; intros iter d Hfuel; [lia|].
  cbn [run].
  destruct (run_iteration worker_id (clock (2 * iter)%nat)
              (clock (2 * iter + 1)%nat) (work iter) d) as [[t d']|] eqn:E.
  - apply IH.
    pose proof (run_iteration_fewer_pending _ _ _ _ _ _ _ E (Hwork iter t)).
    lia.
  - simpl. split; [reflexivity|]. eapply run_iteration_none. exact E.
Qed.

Lemma run_ends_when_no_task_raises_witness :
  let out := run 4 "worker-A" (fun i => Z.of_nat i) steady_work 0 gated_db in
  snd out = true
  /\ get_ready_tasks (fst out) = []
  /\ map status (tasks (fst out)) = ["done"; "done"; "done"; "fix_needed"].
Proof.
  intros out.
  destruct (run_ends_when_no_task_raises 4 "worker-A" (fun i => Z.of_nat i)
              steady_work 0 gated_db) as [H1 H2].
  - intros i t message. unfold steady_work.
    destruct (String.eqb (td_task_id t) "task-000000d4"); discriminate.
  - vm_compute. lia.
  - split; [exact H1|]. split; [exact H2|reflexivity].
Defined.

(** ** What [get_ready_tasks] depends on *)

Lemma same_view_order_le (a a' b b' : task_row) :
  same_view a a' -> same_view b b' -> order_le a' b' = order_le a b.
Proof.
  unfold same_view, order_le. intros (_&_&_&_&Hp&_&Hc) (_&_&_&_&Hp'&_&Hc').
  rewrite Hp, Hc, Hp', Hc'. reflexivity.
Qed.

Lemma same_view_filter (P : task_row -> bool) (l l' : list task_row) :
  (forall a b, same_view a b -> P b = P a) ->
  Forall2 same_view l l' ->
  Forall2 same_view (filter (fun r => P r = true) l)
    (filter (fun r => P r = true) l').
Proof.
  intros HP H. induction H as [|a b l l' Hab _ IH]; [constructor|].
  rewrite !filter_cons, (HP a b Hab).
  destruct (decide (P a = true)); [constructor; assumption|exact IH].
Qed.

Lemma same_view_order_insert (x x' : task_row) (l l' : list task_row) :
  same_view x x' -> Forall2 same_view l l' ->
  Forall2 same_view (order_insert x l) (order_insert x' l').
Proof.
  intros Hx H. induction H as [|a b l l' Hab Hl IH]; simpl.
  - constructor; [exact Hx|constructor].
  - rewrite (same_view_order_le x x' a b Hx Hab).
    destruct (order_le x a).
    + constructor; [exact Hx|]. constructor; assumption.
    + constructor; assumption.
Qed.

Lemma same_view_order_by (l l' : list task_row) :
  Forall2 same_view l l' ->
  Forall2 same_view (order_by_priority_created l)
    (order_by_priority_created l').
Proof.
  unfold order_by_priority_created.
  induction 1 as [|a b l l' Hab _ IH]; simpl; [constructor|].
  apply same_view_order_insert; assumption.
Qed.

Lemma same_view_rowcount (P : task_row -> bool) (l l' : list task_row) :
  (forall a b, same_view a b -> P b = P a) ->
  Forall2 same_view l l' -> rowcount P l' = rowcount P l.
Proof.
  intros HP H. induction H as [|a b l l' Hab _ IH]; [reflexivity|].
  rewrite !rowcount_cons, (HP a b Hab), IH. reflexivity.
Qed.

Lemma same_view_deps_satisfied (d d' : db) (a b : task_row) :
  Forall2 same_view (tasks d) (tasks d') -> same_view a b ->
  deps_satisfied d' b = deps_satisfied d a.
Proof.
  intros Hd (_&_&_&_&_&Hdeps&_). unfold deps_satisfied. rewrite Hdeps.
  destruct (depends_on a) as [|dep deps]; [reflexivity|].
  unfold pending_deps. f_equal. apply same_view_rowcount; [|exact Hd].
  intros x y (Hid&_&_&Hst&_). rewrite Hid, Hst. reflexivity.
Qed.

(** Tables whose rows agree on identifier, title, description, status,
    priority, dependencies and creation time have the same ready list. *)
Lemma same_view_get_ready_tasks (d d' : db) :
  Forall2 same_view (tasks d) (tasks d') ->
  get_ready_tasks d' = get_ready_tasks d.
Proof.
  intros Hd. unfold get_ready_tasks, select_pending.
  assert (Forall2 same_view
            (order_by_priority_created
               (filter (fun r => is_pending r = true) (tasks d)))
            (order_by_priority_created
               (filter (fun r => is_pending r = true) (tasks d')))) as Hs.
  { apply same_view_order_by, same_view_filter; [|exact Hd].
    intros a b (_&_&_&Hst&_). unfold is_pending. rewrite Hst. reflexivity. }
  revert Hs. generalize
    (order_by_priority_created (filter (fun r => is_pending r = true) (tasks d)))
    (order_by_priority_created (filter (fun r => is_pending r = true) (tasks d'))).
  intros l l' Hs. induction Hs as [|a b l l' Hab _ IH]; [reflexivity|].
  rewrite !filter_cons, (same_view_deps_satisfied d d' a b Hd Hab).
  destruct (decide (deps_satisfied d a = true)); [|exact IH].
  simpl. rewrite IH. f_equal.
  destruct Hab as (H1&H2&H3&_&H5&_). unfold ready_dict.
  rewrite H1, H2, H3, H5. reflexivity.
Qed.

(** A pass whose task raises puts the task back as it was for the queue,
    with one more retry. *)
Lemma failing_iteration_rows (worker_id : string) (t_start t_end : Z)
    (work : task_dict -> task_outcome) (d d' : db) (t : task_dict)
    (message : string) :
  NoDup (map task_id (tasks d)) ->
  run_iteration worker_id t_start t_end work d = Some (t, d') ->
  work t = Failed message ->
  Forall2 (fun old new =>
             same_view old new
             /\ retries new
                = retries old
                  + (if String.eqb (task_id old) (td_task_id t) then 1 else 0))
    (tasks d) (tasks d').
Proof.
  intros Hnd H Hw.
  destruct (run_iteration_some _ _ _ _ _ _ _ H)
    as (task & rest & branch & d1 & _ & _ & Hcount & Hd1 & ->).
  rewrite Hw. simpl. rewrite Hd1.
  apply rowcount_pos in Hcount as (r0 & Hr0 & Hw0).
  unfold claim_where in Hw0. apply andb_prop in Hw0 as [Hid0 Hp0].
  apply String.eqb_eq in Hid0. apply String.eqb_eq in Hp0.
  assert (forall r, r ∈ tasks d -> task_id r = td_task_id t ->
                    status r = "pending") as Hpend.
  { intros r Hr Hid.
    apply list_elem_of_lookup in Hr as [i Hi].
    apply list_elem_of_lookup in Hr0 as [j Hj].
    assert (i = j) as ->.
    { eapply NoDup_lookup; [exact Hnd| |];
        rewrite list_lookup_fmap; [rewrite Hi|rewrite Hj]; simpl;
        [rewrite Hid|rewrite Hid0]; reflexivity. }
    congruence. }
  unfold sql_update. rewrite map_map.
  apply Forall2_fmap_r, Forall_Forall2_diag, Forall_forall. intros r Hr.
  unfold claim_where. cbn.
  destruct (String.eqb_spec (task_id r) (td_task_id t)) as [E|E]; cbn.
  - rewrite (Hpend r Hr E). cbn. rewrite E, String.eqb_refl. cbn.
    unfold same_view. cbn. rewrite (Hpend r Hr E). repeat split.
  - apply String.eqb_neq in E. rewrite E. unfold same_view.
    repeat split. lia.
Qed.

(** X12: nothing caps the retries.  A worker whose every task raises
    never leaves the loop: on each pass it claims the same task again, the
    first of the ready list, whose [retries] goes up by one each time,
    while no other task is touched and the ready list stays what it
    was. *)
Theorem run_retries_a_failing_task_forever (fuel : nat) (worker_id : string)
    (clock : nat -> Z) (work : nat -> task_dict -> task_outcome) (iter : nat)
    (d : db) (task : task_dict) (rest : list task_dict) :
  NoDup (map task_id (tasks d)) ->
  get_ready_tasks d = task :: rest ->
  (forall i t, exists message, work i t = Failed message) ->
  snd (run fuel worker_id clock work iter d) = false
  /\ get_ready_tasks (fst (run fuel worker_id clock work iter d))
     = task :: rest
  /\ Forall2 (fun old new =>
                task_id new = task_id old
                /\ retries new
                   = retries old
                     + (if String.eqb (task_id old) (td_task_id task)
                        then Z.of_nat fuel else 0))
       (tasks d) (tasks (fst (run fuel worker_id clock work iter d))).
Proof.
  intros Hnd Hready Hwork. revert iter d Hnd Hready.
  induction fuel as [|fuel IH]; intros iter d Hnd Hready.
  - simpl. split; [reflexivity|]. split; [exact Hready|].
    apply Forall_Forall2_diag, Forall_forall. intros r _.
    split; [reflexivity|]. destruct (String.eqb _ _); lia.
  - cbn [run].
    destruct (run_iteration worker_id (clock (2 * iter)%nat)
                (clock (2 * iter + 1)%nat) (work iter) d) as [[t d']|] eqn:E.
    + destruct (Hwork iter t) as [message Hw].
      pose proof (failing_iteration_rows _ _ _ _ _ _ _ _ Hnd E Hw) as Hrows.
      destruct (run_iteration_some _ _ _ _ _ _ _ E)
        as (task0 & rest0 & _ & _ & Hready0 & Hid & _).
      assert (task0 = task) as -> by congruence.
      assert (Forall2 same_view (tasks d) (tasks d')) as Hview.
      { eapply Forall2_impl; [exact Hrows|]. intros a b [H _]. exact H. }
      assert (map task_id (tasks d') = map task_id (tasks d)) as Hids.
      { clear -Hview. induction Hview as [|a b l l' (H&_) _ IH];
          [reflexivity|]. simpl. rewrite H, IH. reflexivity. }
      destruct (IH (S iter) d') as (H1 & H2 & H3).
      * rewrite Hids. exact Hnd.
      * rewrite (same_view_get_ready_tasks d d' Hview). exact Hready.
      * split; [exact H1|]. split; [exact H2|].
        clear -Hrows H3 Hid. revert H3.
        generalize (tasks (fst (run fuel worker_id clock work (S iter) d'))).
        induction Hrows as [|a b l l' [Hv Hr] _ IHr]; intros l3 H3;
          inversion H3 as [|? c ? l3' [Hc1 Hc2] H3']; subst; constructor.
        -- destruct Hv as (Hv & _). split; [congruence|].
           rewrite Hc2, Hr, Hv, Hid.
           destruct (String.eqb (task_id a) (td_task_id task)); lia.
        -- apply IHr. exact H3'.
    + apply run_iteration_none in E. congruence.
Qed.

Lemma run_retries_a_failing_task_forever_witness :
  let out := run 3 "worker-A" (fun i => Z.of_nat i) failing_work 0 gated_db in
  snd out = false
  /\ map retries (tasks (fst out)) = [0; 3; 0; 0]
  /\ map status (tasks (fst out)) = ["done"; "pending"; "pending"; "pending"].
Proof.
  intros out.
  destruct (run_retries_a_failing_task_forever 3 "worker-A"
              (fun i => Z.of_nat i) failing_work 0 gated_db
              {| td_task_id := "task-000000d2"; td_title := "middle";
                 td_description := "work"; td_priority := 5;
                 td_branch_name := None |}
              [ {| td_task_id := "task-000000d4"; td_title := "side";
                   td_description := "work"; td_priority := 7;
                   td_branch_name := None |} ]) as (H1 & _ & _).
  - refine (@bool_decide_unpack _ (NoDup_dec _) _). vm_compute. exact I.
  - reflexivity.
  - intros i t. eexists. reflexivity.
  - split; [exact H1|]. split; reflexivity.
Defined.

(** ** The reconciler: further properties *)

(** X13: with [config.py] as the configuration every sweep ends in an
    exception.  When the syntax check passes, the sweep changes nothing at
    all.  When it fails, the sweep first adds one more pending task of
    priority 1 titled ["Fix Python syntax errors"] (whether or not an
    earlier sweep added one) and logs one [error] event, and touches no
    other row. *)
Theorem run_once_adds_a_syntax_task_and_raises (s : settings)
    (uuid4_hex : nat -> string) (syntax : syntax_result) (now : Z) (w : world) :
  let out := run_once (config s) uuid4_hex syntax now w in
  let tid := "task-" +:+ String.substring 0 8 (uuid4_hex (w_uuid_draws w)) in
  (syntax_ok syntax = true ->
   out = (w, inl (AttributeError "WORKER_TIMEOUT_SECONDS")))
  /\ (syntax_ok syntax = false -> has_task_id tid (tasks (w_db w)) = false ->
      snd out = inl (AttributeError "WORKER_TIMEOUT_SECONDS")
      /\ tasks (w_db (fst out))
         = tasks (w_db w) ++ [syntax_fix_row tid (syntax_output syntax) now]
      /\ map log_event_name (agent_log (w_db (fst out)))
         = map log_event_name (agent_log (w_db w)) ++ ["error"])
  /\ (syntax_ok syntax = false -> has_task_id tid (tasks (w_db w)) = true ->
      snd out = inl (IntegrityError "tasks.task_id")
      /\ w_db (fst out) = w_db w).
Proof.
  unfold run_once. split; [|split].
  - intros ->. reflexivity.
  - intros -> Hfresh.
    unfold mbind, Run_bind, queue_add_task, add_task. cbv beta.
    rewrite Hfresh. simpl. rewrite map_app. repeat split.
  - intros -> Htaken.
    unfold mbind, Run_bind, queue_add_task, add_task. cbv beta.
    rewrite Htaken. simpl. repeat split.
Qed.



(** One iteration of the rework loop that does not raise: the generated
    identifier was free, the fix task is appended, the rows of the
    original become [replaced], and [fix_created] is logged. *)
Lemma handle_one_fix_some (uuid4_hex : nat -> string) (now : Z) (r : task_row)
    (w w' : world) :
  handle_one_fix uuid4_hex now r w = (w', inr tt) ->
  let tid := "task-" +:+ String.substring 0 8 (uuid4_hex (w_uuid_draws w)) in
  has_task_id tid (tasks (w_db w)) = false
  /\ tasks (w_db w')
     = sql_update (fun x => String.eqb (task_id x) (task_id r))
         (complete_set "replaced" ("Replaced by " +:+ tid) now)
         (tasks (w_db w)
          ++ [new_row tid ("Fix: " +:+ title r)
                ("Fix the issue: " +:+ str_opt (error r)) 1 [] now])
  /\ map log_event_name (agent_log (w_db w'))
     = map log_event_name (agent_log (w_db w)) ++ ["fix_created"].
Proof.
  unfold handle_one_fix, mbind, Run_bind, queue_add_task, add_task. cbv beta.
  destruct (has_task_id _ (tasks (w_db w))) eqn:E; simpl; [discriminate|].
  intros H. injection H as <-. simpl. rewrite map_app. repeat split.
Qed.

Lemma has_task_id_sql_update (tid : string) (cond : task_row -> bool)
    (set : task_row -> task_row) (rows : list task_row) :
  (forall r, task_id (set r) = task_id r) ->
  has_task_id tid (sql_update cond set rows) = has_task_id tid rows.
Proof.
  intros Hset. unfold has_task_id, sql_update.
  induction rows as [|r rows IH]; [reflexivity|]. simpl. rewrite IH.
  destruct (cond r); [rewrite Hset|]; reflexivity.
Qed.

Lemma sql_update_app (cond : task_row -> bool) (set : task_row -> task_row)
    (l1 l2 : list task_row) :
  sql_update cond set (l1 ++ l2)
  = sql_update cond set l1 ++ sql_update cond set l2.
Proof. unfold sql_update. apply map_app. Qed.

(** The rework loop over the selected rows [todo], when it does not
    raise. *)
Lemma fix_loop_effect (uuid4_hex : nat -> string) (now : Z)
    (todo : list task_row) :
  forall (w w' : world),
    for_each todo (handle_one_fix uuid4_hex now) w = (w', inr tt) ->
    (forall r, r ∈ todo -> has_task_id (task_id r) (tasks (w_db w)) = true) ->
    exists olds added,
      tasks (w_db w') = olds ++ added
      /\ Forall2 (fun old new =>
                    task_id new = task_id old
                    /\ if in_ids (task_id old) (map task_id todo)
                       then status new = "replaced" else new = old)
           (tasks (w_db w)) olds
      /\ Forall2 is_fix_for todo added
      /\ map log_event_name (agent_log (w_db w'))
         = map log_event_name (agent_log (w_db w))
           ++ replicate (length todo) "fix_created".
Proof.
  induction todo as [|r rest IH]; intros w w' Hrun Hknown.
  - simpl in Hrun. injection Hrun as <-. exists (tasks (w_db w)), [].
    rewrite !app_nil_r. repeat split; [|constructor].
    apply Forall_Forall2_diag, Forall_forall. intros x _. simpl. auto.
  - cbn [for_each] in Hrun. unfold mbind, Run_bind in Hrun.
    destruct (handle_one_fix uuid4_hex now r w) as [w1 [e|[]]] eqn:E1;
      [discriminate|].
    destruct (handle_one_fix_some _ _ _ _ _ E1) as (Hfresh & Ht1 & Hl1).
    cbv zeta in Hfresh, Ht1.
    remember ("task-" +:+ String.substring 0 8 (uuid4_hex (w_uuid_draws w)))
      as tid eqn:Htid. clear Htid.
    assert (String.eqb tid (task_id r) = false) as Hne.
    { apply String.eqb_neq. intros Heq.
      pose proof (Hknown r (list_elem_of_here _ _)) as Hk.
      rewrite <- Heq in Hk. congruence. }
    rewrite sql_update_app in Ht1. unfold sql_update at 2 in Ht1.
    cbn [map task_id new_row] in Ht1. rewrite Hne in Ht1.
    destruct (IH w1 w' Hrun) as (olds1 & added1 & Ht & Hold & Hadd & Hlog).
    { intros r' Hr'. rewrite Ht1, has_task_id_app, has_task_id_sql_update
        by reflexivity.
      rewrite (Hknown r' (list_elem_of_further _ _ _ Hr')). reflexivity. }
    rewrite Ht1 in Hold.
    apply Forall2_app_inv_l in Hold as (o1 & o2 & Ho1 & Ho2 & ->).
    inversion Ho2 as [|? n' ? o2' [_ Hn'] Ho2']; subst. inversion Ho2'; subst.
    assert (in_ids tid (map task_id rest) = false) as Hnot.
    { destruct (in_ids tid (map task_id rest)) eqn:Ein; [|reflexivity].
      apply in_ids_elem_of, list_elem_of_fmap in Ein as (r' & Hid' & Hr').
      pose proof (Hknown r' (list_elem_of_further _ _ _ Hr')) as Hk.
      rewrite <- Hid' in Hk. congruence. }
    cbn [task_id new_row] in Hn'. rewrite Hnot in Hn'. subst n'.
    exists o1, (new_row tid ("Fix: " +:+ title r)
                  ("Fix the issue: " +:+ str_opt (error r)) 1 [] now :: added1).
    split; [rewrite Ht, <- app_assoc; reflexivity|]. split; [|split].
    + clear -Ho1. unfold sql_update in Ho1. apply Forall2_fmap_l in Ho1.
      eapply Forall2_impl; [exact Ho1|]. intros old new [Hid Hst]. simpl.
      destruct (String.eqb (task_id old) (task_id r)) eqn:Eid; simpl in *.
      * split; [exact Hid|].
        destruct (in_ids (task_id old) (map task_id rest)); [exact Hst|].
        subst new. reflexivity.
      * split; [exact Hid|exact Hst].
    + constructor; [|exact Hadd]. unfold is_fix_for. simpl. repeat split.
    + rewrite Hlog, Hl1, <- app_assoc. reflexivity.
Qed.

(** X15: when [handle_fix_needed] returns, it returns the number of tasks
    that were in [fix_needed]; none is left in that status; for each of
    them, in order, one new pending task of priority 1 titled
    ["Fix: <title>"] with description ["Fix the issue: <error>"] stands at
    the end of the table; the rows of the originals are [replaced], the
    other rows are as before; and one [fix_created] event per task is
    logged. *)
Theorem handle_fix_needed_replaces_every_task (uuid4_hex : nat -> string)
    (now : Z) (w w' : world) (n : nat) :
  handle_fix_needed uuid4_hex now w = (w', inr n) ->
  let fix_tasks := filter (fun r => is_fix_needed r = true) (tasks (w_db w)) in
  n = count_status "fix_needed" (tasks (w_db w))
  /\ count_status "fix_needed" (tasks (w_db w')) = 0%nat
  /\ (exists olds added,
        tasks (w_db w') = olds ++ added
        /\ Forall2 (fun old new =>
                      task_id new = task_id old
                      /\ if in_ids (task_id old) (map task_id fix_tasks)
                         then status new = "replaced" else new = old)
             (tasks (w_db w)) olds
        /\ Forall2 is_fix_for fix_tasks added)
  /\ map log_event_name (agent_log (w_db w'))
     = map log_event_name (agent_log (w_db w)) ++ replicate n "fix_created".
Proof.
  unfold handle_fix_needed, mbind, Run_bind, read_db. cbv beta zeta.
  intros H.
  set (fix_tasks := filter (fun r => is_fix_needed r = true) (tasks (w_db w)))
    in *.
  destruct (for_each fix_tasks (handle_one_fix uuid4_hex now) w)
    as [w1 [e|[]]] eqn:E; [discriminate|].
  simpl in H. injection H as <- <-.
  destruct (fix_loop_effect uuid4_hex now fix_tasks w w1 E)
    as (olds & added & Ht & Hold & Hadd & Hlog).
  { intros r Hr. apply list_elem_of_filter in Hr as [_ Hr].
    apply has_task_id_elem_of. eauto. }
  split; [reflexivity|]. split; [|split; [exists olds, added; auto|exact Hlog]].
  rewrite Ht. unfold count_status. apply rowcount_zero, Forall_app. split.
  - apply Forall_forall. intros new Hnew.
    apply list_elem_of_lookup in Hnew as [i Hi].
    destruct (Forall2_lookup_r _ _ _ _ _ Hold Hi) as (old & Hiold & _ & Hrel).
    destruct (in_ids (task_id old) (map task_id fix_tasks)) eqn:Ein.
    + rewrite Hrel. reflexivity.
    + subst new. destruct (String.eqb (status old) "fix_needed") eqn:Est;
        [|reflexivity].
      exfalso. assert (in_ids (task_id old) (map task_id fix_tasks) = true);
        [|congruence].
      apply in_ids_elem_of, list_elem_of_fmap. exists old. split; [reflexivity|].
      apply list_elem_of_filter. split; [exact Est|].
      apply list_elem_of_lookup. eauto.
  - apply Forall_forall. intros new Hnew.
    apply list_elem_of_lookup in Hnew as [i Hi].
    destruct (Forall2_lookup_r _ _ _ _ _ Hadd Hi) as (r & _ & Hst & _).
    rewrite Hst. reflexivity.
Qed.

Lemma handle_fix_needed_replaces_every_task_witness :
  exists w',
    handle_fix_needed (fun _ => "0f1e2d3c4b5a69788796a5b4c3d2e1f0") 20
      {| w_db := conflict_db; w_uuid_draws := 0 |} = (w', inr 1%nat)
    /\ count_status "fix_needed" (tasks (w_db w')) = 0%nat.
Proof.
  destruct (handle_fix_needed (fun _ => "0f1e2d3c4b5a69788796a5b4c3d2e1f0") 20
              {| w_db := conflict_db; w_uuid_draws := 0 |})
    as [w' r] eqn:E.
  assert (r = inr 1%nat) as -> by (vm_compute in E; congruence).
  exists w'. split; [reflexivity|].
  exact (proj1 (proj2 (handle_fix_needed_replaces_every_task _ _ _ _ _ E))).
Defined.

(** ** write_files: what a run leaves behind *)

(** One step of the loop of [write_files], spelled out. *)
Lemma write_files_loop_cons (tool_ok : string -> string -> bool)
    (cwd : list string) (workspace : PurePath) (e : file_entry)
    (rest : list file_entry) (written : list string) (f : fs) :
  write_files_loop tool_ok cwd workspace (e :: rest) written f
  = if String.eqb (fe_path e) ""
    then write_files_loop tool_ok cwd workspace rest written f
    else
      match mkdir_parents cwd (parent (joinpath workspace (fe_path e))) f with
      | (f1, inl x) => (f1, inl x)
      | (f1, inr _) =>
          match write_text cwd (joinpath workspace (fe_path e)) (fe_content e)
                  f1 with
          | (f2, inl x) => (f2, inl x)
          | (f2, inr _) =>
              if syntax_check tool_ok (joinpath workspace (fe_path e))
                   (fe_content e)
              then write_files_loop tool_ok cwd workspace rest
                     (written ++ [fe_path e]) f2
              else (f2, inl (Exception_ ("Syntax check failed for "
                                         +:+ fe_path e)))
          end
      end.
Proof.
  cbn [write_files_loop]. destruct (String.eqb (fe_path e) ""); [reflexivity|].
  unfold mbind, Run_bind.
  destruct (mkdir_parents _ _ f) as [f1 [x|[]]]; [reflexivity|].
  destruct (write_text _ _ _ f1) as [f2 [x|[]]]; [reflexivity|].
  destruct (syntax_check _ _ _); reflexivity.
Qed.

Lemma mkdir_parents_error (cwd : list string) (p : PurePath) (f f1 : fs)
    (x : exn) :
  mkdir_parents cwd p f = (f1, inl x) -> x = OSError "not a directory".
Proof.
  unfold mkdir_parents. generalize (if is_absolute p then [] else cwd).
  generalize (parts p). intros ps. revert f.
  induction ps as [|c ps IH]; intros f cur; simpl; [discriminate|].
  destruct (String.eqb c ".."); [apply IH|].
  destruct (f !! (cur ++ [c])) as [[|content]|]; try apply IH.
  intros H. injection H as _ <-. reflexivity.
Qed.

Lemma write_text_result (cwd : list string) (p : PurePath) (content : string)
    (f f2 : fs) (r : exn + unit) :
  write_text cwd p content f = (f2, r) ->
  (r = inl (OSError "is a directory") /\ f2 = f)
  \/ (r = inr tt /\ f2 = <[locate cwd p := File content]> f).
Proof.
  unfold write_text. destruct (names_directory cwd p f); intros H;
    injection H as <- <-; auto.
Qed.

Lemma mkdir_parents_keeps_files (cwd : list string) (p : PurePath) (f : fs)
    (loc : list string) (c : string) :
  fst (mkdir_parents cwd p f) !! loc = Some (File c) <-> f !! loc = Some (File c).
Proof. unfold mkdir_parents. apply mkdirs_keeps_files. Qed.

(** X16: when [write_files] returns, the list it returns is the list of
    the non-empty paths of the payload, in order, and each of them names a
    file afterwards. *)
Theorem write_files_returns_the_paths_it_wrote
    (tool_ok : string -> string -> bool) (cwd : list string)
    (workspace : PurePath) (files : list file_entry) (f : fs)
    (written : list string) :
  snd (write_files tool_ok cwd workspace files f) = inr written ->
  written = filter (fun p => String.eqb p "" = false) (map fe_path files)
  /\ forall p, p ∈ written ->
       exists c, fst (write_files tool_ok cwd workspace files f)
                   !! locate cwd (joinpath workspace p) = Some (File c).
Proof.
  unfold write_files.
  assert (forall acc f0,
            snd (write_files_loop tool_ok cwd workspace files acc f0)
            = inr written ->
            (forall p, p ∈ acc ->
               exists c, f0 !! locate cwd (joinpath workspace p)
                         = Some (File c)) ->
            written = acc ++ filter (fun p => String.eqb p "" = false)
                               (map fe_path files)
            /\ forall p, p ∈ written ->
                 exists c, fst (write_files_loop tool_ok cwd workspace files
                                  acc f0)
                             !! locate cwd (joinpath workspace p)
                           = Some (File c)) as Hloop.
  { induction files as [|e rest IH]; intros acc f0 Hret Hacc.
    - simpl in *. injection Hret as <-. rewrite app_nil_r. auto.
    - rewrite write_files_loop_cons in *. simpl map. rewrite filter_cons.
      destruct (String.eqb (fe_path e) "") eqn:Ee.
      + rewrite decide_False by discriminate. apply IH; assumption.
      + rewrite decide_True by reflexivity.
        destruct (mkdir_parents cwd (parent (joinpath workspace (fe_path e)))
                    f0) as [f1 [x|[]]] eqn:Emk; [discriminate|].
        destruct (write_text cwd (joinpath workspace (fe_path e))
                    (fe_content e) f1) as [f2 [x|[]]] eqn:Ewt; [discriminate|].
        destruct (syntax_check tool_ok (joinpath workspace (fe_path e))
                    (fe_content e)); [|discriminate].
        destruct (write_text_result _ _ _ _ _ _ Ewt) as [[? _]|[_ ->]];
          [discriminate|].
        destruct (IH (acc ++ [fe_path e])
                    (<[locate cwd (joinpath workspace (fe_path e))
                       := File (fe_content e)]> f1) Hret) as [Hw Hfiles].
        * intros p Hp. apply elem_of_app in Hp as [Hp|Hp].
          -- destruct (Hacc p Hp) as [c Hc].
             destruct (decide (locate cwd (joinpath workspace (fe_path e))
                               = locate cwd (joinpath workspace p))) as [<-|Hne].
             ++ rewrite lookup_insert_eq. eauto.
             ++ rewrite lookup_insert_ne by assumption. exists c.
                pose proof (mkdir_parents_keeps_files cwd
                              (parent (joinpath workspace (fe_path e))) f0
                              (locate cwd (joinpath workspace p)) c) as Hk.
                rewrite Emk in Hk. apply Hk. exact Hc.
          -- apply list_elem_of_singleton in Hp. subst p.
             rewrite lookup_insert_eq. eauto.
        * split; [|exact Hfiles]. rewrite Hw, <- app_assoc. reflexivity. }
  intros Hret. destruct (Hloop [] f Hret) as [Hw Hfiles].
  - intros p Hp. apply elem_of_nil in Hp. contradiction.
  - split; [exact Hw|exact Hfiles].
Qed.

Lemma write_files_returns_the_paths_it_wrote_witness :
  let files := [ {| fe_path := "src/app.py"; fe_content := "print(1)" |};
                 {| fe_path := ""; fe_content := "lost" |};
                 {| fe_path := "README.md"; fe_content := "hello" |} ] in
  snd (write_files (fun _ _ => true) [] default_workspace files ∅)
  = inr ["src/app.py"; "README.md"]
  /\ ["src/app.py"; "README.md"]
     = filter (fun p => String.eqb p "" = false) (map fe_path files).
Proof.
  intros files. split; [reflexivity|].
  exact (proj1 (write_files_returns_the_paths_it_wrote (fun _ _ => true) []
                  default_workspace files ∅ ["src/app.py"; "README.md"]
                  eq_refl)).
Defined.

(** X17: the syntax gate does not undo the write.  When [write_files]
    raises ["Syntax check failed for <path>"], an entry of the payload with
    that path failed its check, and its content is in the file that the
    path names. *)
Theorem write_files_leaves_the_rejected_file
    (tool_ok : string -> string -> bool) (cwd : list string)
    (workspace : PurePath) (files : list file_entry) (f : fs) (msg : string) :
  snd (write_files tool_ok cwd workspace files f) = inl (Exception_ msg) ->
  exists e, e ∈ files
            /\ msg = "Syntax check failed for " +:+ fe_path e
            /\ syntax_check tool_ok (joinpath workspace (fe_path e))
                 (fe_content e) = false
            /\ fst (write_files tool_ok cwd workspace files f)
                 !! locate cwd (joinpath workspace (fe_path e))
               = Some (File (fe_content e)).
Proof.
  unfold write_files. generalize (@nil string) as acc. revert f.
  induction files as [|e rest IH]; intros f acc; [discriminate|].
  rewrite write_files_loop_cons.
  destruct (String.eqb (fe_path e) "") eqn:Ee.
  - intros H. destruct (IH f acc H) as (e' & Hin & Hrest).
    exists e'. split; [apply list_elem_of_further; exact Hin|exact Hrest].
  - destruct (mkdir_parents cwd (parent (joinpath workspace (fe_path e))) f)
      as [f1 [x|[]]] eqn:Emk.
    + intros H. simpl in H. injection H as ->.
      apply mkdir_parents_error in Emk. discriminate.
    + destruct (write_text cwd (joinpath workspace (fe_path e)) (fe_content e)
                  f1) as [f2 [x|[]]] eqn:Ewt.
      * intros H. simpl in H. injection H as ->.
        destruct (write_text_result _ _ _ _ _ _ Ewt) as [[? _]|[? _]];
          discriminate.
      * destruct (syntax_check tool_ok (joinpath workspace (fe_path e))
                    (fe_content e)) eqn:Esc.
        -- intros H. destruct (IH f2 _ H) as (e' & Hin & Hrest).
           exists e'. split; [apply list_elem_of_further; exact Hin|exact Hrest].
        -- intros H. simpl in H. injection H as <-.
           exists e. split; [apply list_elem_of_here|].
           split; [reflexivity|]. split; [exact Esc|]. simpl.
           destruct (write_text_result _ _ _ _ _ _ Ewt) as [[? _]|[_ ->]];
             [discriminate|].
           apply lookup_insert_eq.
Qed.

Lemma write_files_leaves_the_rejected_file_witness :
  let files := [ {| fe_path := "ok.txt"; fe_content := "fine" |};
                 {| fe_path := "src/app.py"; fe_content := "def (" |};
                 {| fe_path := "later.txt"; fe_content := "never" |} ] in
  let tool := fun tool content : string => negb (String.eqb content "def (") in
  let out := write_files tool [] default_workspace files ∅ in
  snd out = inl (Exception_ "Syntax check failed for src/app.py")
  /\ fst out !! ["home"; "gary"; "agentswarm"; "workspace"; "later.txt"] = None
  /\ exists e, e ∈ files
               /\ "Syntax check failed for src/app.py"
                  = "Syntax check failed for " +:+ fe_path e
               /\ syntax_check tool (joinpath default_workspace (fe_path e))
                    (fe_content e) = false
               /\ fst out !! locate [] (joinpath default_workspace (fe_path e))
                  = Some (File (fe_content e)).
Proof.
  intros files tool out. split; [reflexivity|]. split; [reflexivity|].
  exact (write_files_leaves_the_rejected_file tool [] default_workspace files ∅
           "Syntax check failed for src/app.py" eq_refl).
Defined.

(** ** parse_response: where decoding starts *)

Lemma substring_one (s : string) (p : nat) (c : ascii) :
  String.get p s = Some c -> String.substring p 1 s = String c EmptyString.
Proof.
  revert p. induction s as [|a s IH]; intros p; simpl.
  - destruct p; discriminate.
  - destruct p as [|p].
    + intros H. injection H as ->. destruct s; reflexivity.
    + apply IH.
Qed.

(** [s.find(c)] for a character [c]: the first position that holds it. *)
Lemma find_char_some (c : ascii) (s : string) (m : nat) :
  index 0 (String c EmptyString) s = Some m ->
  String.get m s = Some c
  /\ forall p, (p < m)%nat -> String.get p s <> Some c.
Proof.
  intros H. split.
  - pose proof (index_correct1 _ _ _ _ H) as H1. simpl String.length in H1.
    pose proof (substring_correct1 s m 1 0 ltac:(lia)) as H2.
    rewrite H1 in H2. simpl in H2. symmetry. exact H2.
  - intros p Hp Hget.
    apply (index_correct2 _ _ _ _ H p); [lia|exact Hp|].
    apply substring_one. exact Hget.
Qed.

Lemma find_char_none (c : ascii) (s : string) :
  index 0 (String c EmptyString) s = None ->
  forall p, String.get p s <> Some c.
Proof.
  intros H p Hget.
  apply (index_correct3 0 p _ _ H); [discriminate|lia|].
  apply substring_one. exact Hget.
Qed.

(** X18: [parse_response] starts decoding at the first ["["] or ["{"] of
    the cleaned response, whichever comes first: the position it picks
    holds one of the two and none of them stands before it; it picks no
    position only when the text has neither. *)
Theorem json_start_is_first_bracket (cleaned : string) :
  match json_start cleaned with
  | Some i =>
      (String.get i cleaned = Some "["%char
       \/ String.get i cleaned = Some "{"%char)
      /\ forall p, (p < i)%nat ->
           String.get p cleaned <> Some "["%char
           /\ String.get p cleaned <> Some "{"%char
  | None =>
      forall p, String.get p cleaned <> Some "["%char
                /\ String.get p cleaned <> Some "{"%char
  end.
Proof.
  unfold json_start.
  destruct (index 0 "[" cleaned) as [i|] eqn:Ei;
    destruct (index 0 "{" cleaned) as [j|] eqn:Ej.
  - destruct (find_char_some _ _ _ Ei) as [Hi Hbi].
    destruct (find_char_some _ _ _ Ej) as [Hj Hbj].
    destruct (Nat.ltb_spec j i).
    + split; [right; exact Hj|]. intros p Hp. split; [apply Hbi; lia|auto].
    + split; [left; exact Hi|]. intros p Hp. split; [auto|apply Hbj; lia].
  - destruct (find_char_some _ _ _ Ei) as [Hi Hbi].
    split; [left; exact Hi|]. intros p Hp.
    split; [auto|apply (find_char_none _ _ Ej)].
  - destruct (find_char_some _ _ _ Ej) as [Hj Hbj].
    split; [right; exact Hj|]. intros p Hp.
    split; [apply (find_char_none _ _ Ei)|auto].
  - intros p. split; [apply (find_char_none _ _ Ei)|apply (find_char_none _ _ Ej)].
Qed.

(** ** main.py: the supervisor loop *)

Lemma spawn_loop_size (spawn_pid : nat -> positive) (count i : nat)
    (running_workers : workers) :
  (size (fst (spawn_loop spawn_pid i count running_workers))
   <= size running_workers + count)%nat
  /\ length (snd (spawn_loop spawn_pid i count running_workers)) = count.
Proof.
  revert i running_workers.
  induction count as [|count IH]; intros i running_workers.
  - split; [cbn [spawn_loop fst]; lia|reflexivity].
  - cbn [spawn_loop]. set (worker_id := "worker-" +:+ fmt0 _).
    specialize (IH (S i) (<[spawn_pid i := worker_id]> running_workers)).
    pose proof (map_size_insert (spawn_pid i) worker_id running_workers) as Hs.
    destruct (spawn_loop spawn_pid (S i) count _) as [m l].
    cbn [fst snd length] in *. destruct IH as [IH1 IH2].
    split; [|rewrite IH2; reflexivity].
    destruct (running_workers !! spawn_pid i); unfold id in Hs; lia.
Qed.

Lemma remove_finished_size (is_alive : positive -> bool)
    (running_workers : workers) :
  (size (remove_finished is_alive running_workers) <= size running_workers)%nat.
Proof.
  unfold remove_finished.
  generalize (filter (fun pid => is_alive pid = false)
                (map fst (map_to_list running_workers))).
  intros finished. revert running_workers.
  induction finished as [|pid finished IH]; intros m; simpl; [lia|].
  etransitivity; [apply IH|]. rewrite map_size_delete.
  destruct (m !! pid); unfold id; lia.
Qed.

(** X19: the supervisor of [main] keeps the fleet within [MAX_WORKERS]: a
    pass of its loop that starts with at most [MAX_WORKERS] recorded
    workers ends with at most that many, and it starts no more workers
    than there are pending tasks and free slots. *)
Theorem supervisor_keeps_fleet_within_max_workers
    (max_workers pending : Z) (spawn_pid : nat -> positive)
    (is_alive : positive -> bool) (running_workers : workers) :
  Z.of_nat (size running_workers) <= max_workers ->
  let (running_workers', spawned) :=
    supervisor_pass max_workers pending spawn_pid is_alive running_workers in
  Z.of_nat (size running_workers') <= max_workers
  /\ Z.of_nat (length spawned) <= Z.max 0 pending
  /\ Z.of_nat (length spawned)
     <= max_workers - Z.of_nat (size running_workers).
Proof.
  intros Hmax. unfold supervisor_pass, spawn_workers.
  pose proof (remove_finished_size is_alive) as Hrm.
  destruct ((0 <? max_workers - Z.of_nat (size running_workers))
            && (0 <? pending)) eqn:E.
  - apply andb_true_iff in E as [E1 E2].
    apply Z.ltb_lt in E1. apply Z.ltb_lt in E2.
    pose proof (spawn_loop_size spawn_pid
      (Z.to_nat (Z.min (max_workers - Z.of_nat (size running_workers)) pending))
      0 running_workers) as [H1 H2].
    destruct (spawn_loop spawn_pid 0 _ running_workers) as [m l].
    simpl in *. specialize (Hrm m). rewrite H2. repeat split; lia.
  - specialize (Hrm running_workers). simpl. repeat split; lia.
Qed.

Lemma supervisor_keeps_fleet_within_max_workers_witness :
  let running_workers : workers := {[ 40%positive := "worker-1" ]} in
  let (running_workers', spawned) :=
    supervisor_pass 3 5 (pids_after 40) (fun pid => negb (Pos.eqb pid 40))
      running_workers in
  Z.of_nat (size running_workers') <= 3
  /\ Z.of_nat (length spawned) <= Z.max 0 5
  /\ Z.of_nat (length spawned) <= 3 - Z.of_nat (size running_workers).
Proof.
  intros running_workers.
  apply (supervisor_keeps_fleet_within_max_workers 3 5 (pids_after 40)
           (fun pid => negb (Pos.eqb pid 40)) running_workers).
  vm_compute. discriminate.
Defined.

Lemma spawn_loop_ids (spawn_pid : nat -> positive) (count i : nat)
    (running_workers : workers) :
  (forall j k, spawn_pid j = spawn_pid k -> j = k) ->
  (forall j, (i <= j)%nat -> running_workers !! spawn_pid j = None) ->
  snd (spawn_loop spawn_pid i count running_workers)
  = map (fun j => "worker-" +:+
           fmt0 (Z.of_nat (size running_workers) + Z.of_nat i
                 + 2 * Z.of_nat j + 1))
        (seq 0 count).
Proof.
  intros Hinj. revert i running_workers.
  induction count as [|count IH]; intros i running_workers Hfresh;
    [reflexivity|].
  cbn [spawn_loop].
  set (worker_id := "worker-" +:+ fmt0 _).
  specialize (IH (S i) (<[spawn_pid i := worker_id]> running_workers)).
  destruct (spawn_loop spawn_pid (S i) count _) as [m l].
  cbn [snd] in *. rewrite IH.
  - cbn [seq map]. f_equal.
    + subst worker_id. do 2 f_equal. lia.
    + rewrite <- seq_shift, map_map. apply map_ext. intros j.
      rewrite map_size_insert_None by (apply Hfresh; lia).
      do 2 f_equal. lia.
  - intros j Hj. rewrite lookup_insert_ne; [apply Hfresh; lia|].
    intros E. apply Hinj in E. lia.
Qed.

(** X20: the worker ids of one spawn step go up in steps of two.  The id
    is built from [len(running_workers) + i + 1] while the loop itself
    adds each started process to [running_workers]: with [n] workers
    recorded before the step and every started process under a pid of its
    own, the ids given out are [worker-(n+1)], [worker-(n+3)],
    [worker-(n+5)] and so on, one per free slot or pending task,
    whichever is fewer. *)
Theorem spawned_worker_ids_go_up_in_steps_of_two
    (max_workers pending : Z) (spawn_pid : nat -> positive)
    (running_workers : workers) :
  (forall j k, spawn_pid j = spawn_pid k -> j = k) ->
  (forall j, running_workers !! spawn_pid j = None) ->
  Z.of_nat (size running_workers) < max_workers ->
  0 < pending ->
  snd (spawn_workers max_workers pending spawn_pid running_workers)
  = ids_from (size running_workers)
      (Z.to_nat (Z.min (max_workers - Z.of_nat (size running_workers))
                       pending)).
Proof.
  intros Hinj Hfresh Hslots Hpending. unfold spawn_workers, ids_from.
  replace (0 <? max_workers - Z.of_nat (size running_workers)) with true
    by (symmetry; apply Z.ltb_lt; lia).
  replace (0 <? pending) with true by (symmetry; apply Z.ltb_lt; lia).
  cbn [andb]. rewrite spawn_loop_ids; [|exact Hinj|intros; apply Hfresh].
  apply map_ext. intros j. do 2 f_equal. lia.
Qed.

Lemma spawned_worker_ids_go_up_in_steps_of_two_witness :
  let running_workers : workers :=
    {[ 41%positive := "worker-2"; 42%positive := "worker-3" ]} in
  snd (spawn_workers 15 2 (pids_after 42) running_workers)
  = ["worker-3"; "worker-5"].
Proof.
  intros running_workers.
  apply (spawned_worker_ids_go_up_in_steps_of_two 15 2 (pids_after 42)
           running_workers).
  - unfold pids_after. intros j k H. lia.
  - intros j. unfold running_workers, pids_after.
    rewrite lookup_insert_ne by lia. apply lookup_singleton_ne. lia.
  - vm_compute. reflexivity.
  - lia.
Defined.

(** ** main.py: the delivery archive *)

Lemma has_char_append (c : ascii) (a b : string) :
  has_char c (a +:+ b) = has_char c a || has_char c b.
Proof.
  induction a as [|x a IH]; simpl; [reflexivity|].
  rewrite IH. apply orb_assoc.
Qed.

Lemma replace_char_removes (old new : ascii) (s : string) :
  old <> new -> has_char old (replace_char old new s) = false.
Proof.
  intros Hne. induction s as [|x s IH]; simpl; [reflexivity|].
  rewrite IH, orb_false_r.
  destruct (Ascii.eqb x old) eqn:E; apply Ascii.eqb_neq.
  - congruence.
  - apply Ascii.eqb_neq. exact E.
Qed.

Lemma replace_char_keeps_out (c old new : ascii) (s : string) :
  c <> new -> has_char c s = false ->
  has_char c (replace_char old new s) = false.
Proof.
  intros Hne. induction s as [|x s IH]; simpl; [reflexivity|].
  intros H. apply orb_false_iff in H as [H1 H2].
  rewrite (IH H2), orb_false_r.
  destruct (Ascii.eqb x old); [|exact H1].
  apply Ascii.eqb_neq. congruence.
Qed.

Lemma replace_char_length (old new : ascii) (s : string) :
  String.length (replace_char old new s) = String.length s.
Proof. induction s as [|x s IH]; simpl; [reflexivity|]. rewrite IH. reflexivity. Qed.

Lemma split_on_without_sep (sep : ascii) (s : string) :
  has_char sep s = false -> split_on sep s = [s].
Proof.
  induction s as [|x s IH]; simpl; [reflexivity|].
  intros H. apply orb_false_iff in H as [H1 H2].
  rewrite H1, (IH H2). reflexivity.
Qed.

Lemma safe_name_has_no_slash (project_name : string) :
  has_char "/" (safe_name project_name) = false.
Proof. apply replace_char_removes. discriminate. Qed.

Lemma archive_name_has_no_slash (project_name timestamp : string) :
  has_char "/" timestamp = false ->
  has_char "/" (archive_name project_name timestamp) = false.
Proof.
  intros H. unfold archive_name.
  rewrite !has_char_append, safe_name_has_no_slash, H. reflexivity.
Qed.

Lemma archive_name_is_component (project_name timestamp : string) :
  is_component (archive_name project_name timestamp) = true.
Proof.
  assert (has_char "-" (archive_name project_name timestamp) = true) as H.
  { unfold archive_name. rewrite !has_char_append.
    simpl. rewrite orb_true_r. reflexivity. }
  unfold is_component.
  destruct (String.eqb_spec (archive_name project_name timestamp) "") as [E|_];
    [rewrite E in H; discriminate|].
  destruct (String.eqb_spec (archive_name project_name timestamp) ".") as [E|_];
    [rewrite E in H; discriminate|].
  reflexivity.
Qed.

(** X21: the delivery archive is written directly into the outputs
    directory, whatever the project name is: [safe_name] has at most 30
    characters and neither a space nor a slash, so with a timestamp
    without a slash (any output of the [strftime] format used)
    [outputs_dir / archive_name] is the outputs directory followed by the
    one component [archive_name]. *)
Theorem archive_is_written_into_outputs_dir
    (outputs_dir : PurePath) (project_name timestamp : string) :
  has_char "/" timestamp = false ->
  archive_path outputs_dir project_name timestamp
  = {| is_absolute := is_absolute outputs_dir;
       parts := parts outputs_dir ++ [archive_name project_name timestamp] |}
  /\ (String.length (safe_name project_name) <= 30)%nat
  /\ has_char "/" (safe_name project_name) = false
  /\ has_char " " (safe_name project_name) = false.
Proof.
  intros Hts. split; [|split; [|split]].
  - pose proof (archive_name_has_no_slash project_name timestamp Hts) as Hno.
    unfold archive_path, joinpath, Path.
    assert (String.prefix "/" (archive_name project_name timestamp) = false)
      as Hp.
    { destruct (archive_name project_name timestamp) as [|x s];
        [reflexivity|]. simpl in Hno.
      apply orb_false_iff in Hno as [Hx _]. apply Ascii.eqb_neq in Hx.
      cbn [String.prefix].
      destruct (ascii_dec "/" x) as [E|_]; [congruence|reflexivity]. }
    cbn [is_absolute parts]. rewrite Hp, (split_on_without_sep _ _ Hno).
    rewrite filter_cons, decide_True by apply archive_name_is_component.
    reflexivity.
  - unfold safe_name. rewrite !replace_char_length.
    apply length_substring_le.
  - apply safe_name_has_no_slash.
  - unfold safe_name. apply replace_char_keeps_out; [discriminate|].
    apply replace_char_removes. discriminate.
Qed.

Lemma archive_is_written_into_outputs_dir_witness :
  archive_path (Path "/home/gary/agentswarm/outputs")
    "../../etc/cron.d a/b" "20240131T120000Z"
  = {| is_absolute := true;
       parts := ["home"; "gary"; "agentswarm"; "outputs";
                 ".._.._etc_cron.d_a_b-final-20240131T120000Z.tar.gz"] |}.
Proof.
  apply (proj1 (archive_is_written_into_outputs_dir
                  (Path "/home/gary/agentswarm/outputs")
                  "../../etc/cron.d a/b" "20240131T120000Z" eq_refl)).
Defined.

(** ** The rate limiter: waiting and progress *)

Lemma foldl_min_elem (ts : list Z) (t : Z) : foldl Z.min t ts ∈ t :: ts.
Proof.
  revert t. induction ts as [|a ts IH]; intros t; simpl.
  - apply list_elem_of_here.
  - specialize (IH (Z.min t a)). apply elem_of_cons in IH as [E|Hin].
    + rewrite E. destruct (Z.min_spec t a) as [[_ ->]|[_ ->]].
      * apply list_elem_of_here.
      * apply list_elem_of_further, list_elem_of_here.
    + apply list_elem_of_further, list_elem_of_further. exact Hin.
Qed.

Lemma oldest_elem (ts : list Z) : ts <> [] -> oldest ts ∈ ts.
Proof. destruct ts as [|t ts]; [congruence|]. intros _. apply foldl_min_elem. Qed.

Lemma live_count_stamps (now : Z) (f : state_file) :
  live_count now f
  = length (filter (fun t => live now t = true) (stamps_of f)).
Proof. destruct f; reflexivity. Qed.

(** X22: the wait that a refused pass computes is long enough.  When the
    state file holds exactly [rpm] live timestamps, the pass is refused,
    and a pass at any clock reading that is at least [wait_seconds] later
    is granted, as long as no other process has written the file in
    between: by then the oldest of the timestamps has left the window. *)
Theorem refused_pass_is_granted_after_its_wait
    (rpm now now' : Z) (f : state_file) :
  1 <= rpm ->
  Z.of_nat (live_count now f) = rpm ->
  now + wait_seconds (snd (throttle_attempt rpm now f)) <= now' ->
  must_retry (snd (throttle_attempt rpm now f)) = true
  /\ must_retry
       (snd (throttle_attempt rpm now' (fst (throttle_attempt rpm now f))))
     = false.
Proof.
  intros Hrpm Hfull Hwait.
  destruct (throttle_attempt_full rpm now f ltac:(lia)) as [Hf Hretry].
  split; [exact Hretry|]. rewrite Hf.
  apply throttle_attempt_room.
  rewrite live_count_stamps in *.
  set (ts := filter (fun t => live now t = true) (stamps_of f)) in *.
  assert (wait_seconds (snd (throttle_attempt rpm now f))
          = Z.max 500 (60000 - (now - oldest ts))) as Hw.
  { unfold throttle_attempt. fold (stamps_of f). fold ts.
    replace (rpm <=? Z.of_nat (length ts)) with true
      by (symmetry; apply Z.leb_le; lia).
    reflexivity. }
  rewrite Hw in Hwait.
  assert (ts <> []) as Hne by (intros E; rewrite E in Hfull; simpl in Hfull; lia).
  pose proof (oldest_elem ts Hne) as Hin.
  assert (filter (fun t => live now' t = true) (stamps_of f)
          = filter (fun t => live now' t = true) ts) as E.
  { unfold ts. rewrite list_filter_filter. apply list_filter_iff.
    intros t. split; [|tauto]. intros H. split; [exact H|].
    apply (live_later now now'); [lia|exact H]. }
  rewrite E.
  assert (length (filter (fun t => live now' t = true) ts) < length ts)%nat.
  { apply (length_filter_lt _ _ (oldest ts) Hin).
    unfold live. intros H. apply Z.ltb_lt in H. lia. }
  lia.
Qed.

Lemma refused_pass_is_granted_after_its_wait_witness :
  must_retry (snd (throttle_attempt 2 3000 (Stamps [1000; 2000]))) = true
  /\ must_retry
       (snd (throttle_attempt 2 61000
               (fst (throttle_attempt 2 3000 (Stamps [1000; 2000])))))
     = false.
Proof.
  apply (refused_pass_is_granted_after_its_wait 2 3000 61000
           (Stamps [1000; 2000])).
  - lia.
  - reflexivity.
  - vm_compute. discriminate.
Defined.

(** X23: a caller of [_throttle_for_rate_limit] that has the state file
    to itself returns at the first of its clock readings at which fewer
    than [rpm] of the recorded timestamps are live; the refused passes
    before it leave the file as it was, and the granted one stores the
    live timestamps followed by its own. *)
Theorem lone_caller_is_granted_at_first_free_reading
    (rpm now : Z) (before later : list Z) (f : state_file) :
  Forall (fun t => rpm <= Z.of_nat (live_count t f)) before ->
  Z.of_nat (live_count now f) < rpm ->
  throttle_for_rate_limit rpm (before ++ now :: later) f
  = (Stamps (filter (fun t => live now t = true) (stamps_of f) ++ [now]),
     Some now).
Proof.
  intros Hfull Hroom. induction Hfull as [|t before Ht _ IH]; simpl.
  - destruct (throttle_attempt_room rpm now f Hroom) as [Hf Hr].
    destruct (throttle_attempt rpm now f) as [f' a]. simpl in *.
    rewrite Hr, Hf. reflexivity.
  - destruct (throttle_attempt_full rpm t f Ht) as [Hf Hr].
    destruct (throttle_attempt rpm t f) as [f' a]. simpl in *.
    rewrite Hr, Hf. exact IH.
Qed.

Lemma lone_caller_is_granted_at_first_free_reading_witness :
  throttle_for_rate_limit 2 ([3000; 8000; 13000] ++ 61000 :: [66000])
    (Stamps [1000; 2000])
  = (Stamps ([2000] ++ [61000]), Some 61000).
Proof.
  apply (lone_caller_is_granted_at_first_free_reading 2 61000
           [3000; 8000; 13000] [66000] (Stamps [1000; 2000])).
  - repeat constructor; vm_compute; discriminate.
  - vm_compute. reflexivity.
Defined.
